(** * Display and validation utilities of cosmos-multisig-ui

    A shallow embedding of the helper module of the multisig front-end
    ([abbreviateLongString], [printableCoin], [printableCoins],
    [exampleAddress], [examplePubkey], [checkAddress], [explorerLinkTx])
    together with the library primitives these helpers call (JavaScript
    strings, SHA-512, base64, bech32 and the fixed-point decimal of the
    CosmJS packages), followed by the properties of the helpers. *)

From Stdlib Require Import ZArith NArith List Lia Bool Ascii.
From Stdlib Require String Strings.Byte.
Import String.StringSyntax.
Delimit Scope string_scope with string.
Import ListNotations.
Local Open Scope Z_scope.

(** ** JavaScript values used by the helpers *)

Module JS.

(** A JavaScript string is a sequence of UTF-16 code units. *)
Definition jsstring := list N.

(** An ASCII literal as a JavaScript string. *)
Definition js (s : String.string) : jsstring :=
  map N_of_ascii (String.list_ascii_of_string s).
Arguments js s%_string.

(** Values of the properties and arguments the helpers read: a string
    that may be [undefined] or [null]. *)
Inductive field :=
| Undefined
| Null
| Str (s : jsstring).

(** Numbers as the helpers meet them: an integer, or [NaN], which also
    stands for every other value that is no integer. *)
Inductive number :=
| NaN
| Int (z : Z).

(** An [Error] object: its [name] and its [message]. *)
Record error := mkError { err_name : jsstring; err_message : jsstring }.

Definition Error (msg : jsstring) : error := mkError (js "Error") msg.
Definition TypeError (msg : jsstring) : error := mkError (js "TypeError") msg.

(** [Error.prototype.toString]. *)
Definition error_toString (e : error) : jsstring :=
  match err_name e, err_message e with
  | [], msg => msg
  | name, [] => name
  | name, msg => name ++ js ": " ++ msg
  end.

(** A computation either returns a value or throws. *)
Inductive outcome (A : Type) :=
| Return (a : A)
| Throw (e : error).
Arguments Return {A} a.
Arguments Throw {A} e.

Definition bind {A B} (m : outcome A) (k : A -> outcome B) : outcome B :=
  match m with
  | Return a => k a
  | Throw e => Throw e
  end.

Definition throws {A} (m : outcome A) : Prop := exists e, m = Throw e.
Definition returns {A} (m : outcome A) : Prop := exists a, m = Return a.

(** Relative index of [slice]: a negative index counts from the end, and
    the result is clamped to the length. *)
Definition relative_index (len k : Z) : Z :=
  if k <? 0 then Z.max (len + k) 0 else Z.min k len.

(** [String.prototype.slice] and [Uint8Array.prototype.slice]; the end is
    [None] when the argument is left out. *)
Definition slice {A} (l : list A) (start : Z) (stop : option Z) : list A :=
  let len := Z.of_nat (length l) in
  let from := relative_index len start in
  let upto := match stop with
              | None => len
              | Some e => relative_index len e
              end in
  firstn (Z.to_nat (upto - from)) (skipn (Z.to_nat from) l).

Fixpoint starts_with (pre s : jsstring) : bool :=
  match pre, s with
  | [], _ => true
  | _ :: _, [] => false
  | a :: pre', b :: s' => (a =? b)%N && starts_with pre' s'
  end.

(** *** Case mapping

    [String.prototype.toUpperCase] and [String.prototype.toLowerCase]
    read the string as code points, map every code point by the tables
    of Unicode, and write the result back as code units.  The mappings
    do not depend on the locale; the one that depends on the context is
    that of the capital sigma. *)

(** The letters of ASCII. *)
Definition upper_unit (c : N) : N :=
  if ((97 <=? c) && (c <=? 122))%N then (c - 32)%N else c.
Definition lower_unit (c : N) : N :=
  if ((65 <=? c) && (c <=? 90))%N then (c + 32)%N else c.

(** A row of a case table: the code points from [first_point] to
    [last_point], taken every [step], are mapped in order to the code
    points from [image] on. *)
Record case_run := run { first_point : N; last_point : N; step : N; image : N }.

(** The code points above ASCII with an upper-case mapping of one code
    point (UnicodeData.txt, Unicode 14.0). *)
Definition upper_runs : list case_run :=
  [
   run 0xB5 0xB5 1 0x39C; run 0xE0 0xF6 1 0xC0; run 0xF8 0xFE 1 0xD8; run 0xFF 0xFF 1 0x178;
   run 0x101 0x12F 2 0x100; run 0x131 0x131 1 0x49; run 0x133 0x137 2 0x132;
   run 0x13A 0x148 2 0x139; run 0x14B 0x177 2 0x14A; run 0x17A 0x17E 2 0x179;
   run 0x17F 0x17F 1 0x53; run 0x180 0x180 1 0x243; run 0x183 0x185 2 0x182;
   run 0x188 0x188 1 0x187; run 0x18C 0x18C 1 0x18B; run 0x192 0x192 1 0x191;
   run 0x195 0x195 1 0x1F6; run 0x199 0x199 1 0x198; run 0x19A 0x19A 1 0x23D;
   run 0x19E 0x19E 1 0x220; run 0x1A1 0x1A5 2 0x1A0; run 0x1A8 0x1A8 1 0x1A7;
   run 0x1AD 0x1AD 1 0x1AC; run 0x1B0 0x1B0 1 0x1AF; run 0x1B4 0x1B6 2 0x1B3;
   run 0x1B9 0x1B9 1 0x1B8; run 0x1BD 0x1BD 1 0x1BC; run 0x1BF 0x1BF 1 0x1F7;
   run 0x1C5 0x1C5 1 0x1C4; run 0x1C6 0x1C6 1 0x1C4; run 0x1C8 0x1C8 1 0x1C7;
   run 0x1C9 0x1C9 1 0x1C7; run 0x1CB 0x1CB 1 0x1CA; run 0x1CC 0x1CC 1 0x1CA;
   run 0x1CE 0x1DC 2 0x1CD; run 0x1DD 0x1DD 1 0x18E; run 0x1DF 0x1EF 2 0x1DE;
   run 0x1F2 0x1F2 1 0x1F1; run 0x1F3 0x1F3 1 0x1F1; run 0x1F5 0x1F5 1 0x1F4;
   run 0x1F9 0x21F 2 0x1F8; run 0x223 0x233 2 0x222; run 0x23C 0x23C 1 0x23B;
   run 0x23F 0x240 1 0x2C7E; run 0x242 0x242 1 0x241; run 0x247 0x24F 2 0x246;
   run 0x250 0x250 1 0x2C6F; run 0x251 0x251 1 0x2C6D; run 0x252 0x252 1 0x2C70;
   run 0x253 0x253 1 0x181; run 0x254 0x254 1 0x186; run 0x256 0x257 1 0x189;
   run 0x259 0x259 1 0x18F; run 0x25B 0x25B 1 0x190; run 0x25C 0x25C 1 0xA7AB;
   run 0x260 0x260 1 0x193; run 0x261 0x261 1 0xA7AC; run 0x263 0x263 1 0x194;
   run 0x265 0x265 1 0xA78D; run 0x266 0x266 1 0xA7AA; run 0x268 0x268 1 0x197;
   run 0x269 0x269 1 0x196; run 0x26A 0x26A 1 0xA7AE; run 0x26B 0x26B 1 0x2C62;
   run 0x26C 0x26C 1 0xA7AD; run 0x26F 0x26F 1 0x19C; run 0x271 0x271 1 0x2C6E;
   run 0x272 0x272 1 0x19D; run 0x275 0x275 1 0x19F; run 0x27D 0x27D 1 0x2C64;
   run 0x280 0x280 1 0x1A6; run 0x282 0x282 1 0xA7C5; run 0x283 0x283 1 0x1A9;
   run 0x287 0x287 1 0xA7B1; run 0x288 0x288 1 0x1AE; run 0x289 0x289 1 0x244;
   run 0x28A 0x28B 1 0x1B1; run 0x28C 0x28C 1 0x245; run 0x292 0x292 1 0x1B7;
   run 0x29D 0x29D 1 0xA7B2; run 0x29E 0x29E 1 0xA7B0; run 0x345 0x345 1 0x399;
   run 0x371 0x373 2 0x370; run 0x377 0x377 1 0x376; run 0x37B 0x37D 1 0x3FD;
   run 0x3AC 0x3AC 1 0x386; run 0x3AD 0x3AF 1 0x388; run 0x3B1 0x3C1 1 0x391;
   run 0x3C2 0x3C2 1 0x3A3; run 0x3C3 0x3CB 1 0x3A3; run 0x3CC 0x3CC 1 0x38C;
   run 0x3CD 0x3CE 1 0x38E; run 0x3D0 0x3D0 1 0x392; run 0x3D1 0x3D1 1 0x398;
   run 0x3D5 0x3D5 1 0x3A6; run 0x3D6 0x3D6 1 0x3A0; run 0x3D7 0x3D7 1 0x3CF;
   run 0x3D9 0x3EF 2 0x3D8; run 0x3F0 0x3F0 1 0x39A; run 0x3F1 0x3F1 1 0x3A1;
   run 0x3F2 0x3F2 1 0x3F9; run 0x3F3 0x3F3 1 0x37F; run 0x3F5 0x3F5 1 0x395;
   run 0x3F8 0x3F8 1 0x3F7; run 0x3FB 0x3FB 1 0x3FA; run 0x430 0x44F 1 0x410;
   run 0x450 0x45F 1 0x400; run 0x461 0x481 2 0x460; run 0x48B 0x4BF 2 0x48A;
   run 0x4C2 0x4CE 2 0x4C1; run 0x4CF 0x4CF 1 0x4C0; run 0x4D1 0x52F 2 0x4D0;
   run 0x561 0x586 1 0x531; run 0x10D0 0x10FA 1 0x1C90; run 0x10FD 0x10FF 1 0x1CBD;
   run 0x13F8 0x13FD 1 0x13F0; run 0x1C80 0x1C80 1 0x412; run 0x1C81 0x1C81 1 0x414;
   run 0x1C82 0x1C82 1 0x41E; run 0x1C83 0x1C84 1 0x421; run 0x1C85 0x1C85 1 0x422;
   run 0x1C86 0x1C86 1 0x42A; run 0x1C87 0x1C87 1 0x462; run 0x1C88 0x1C88 1 0xA64A;
   run 0x1D79 0x1D79 1 0xA77D; run 0x1D7D 0x1D7D 1 0x2C63; run 0x1D8E 0x1D8E 1 0xA7C6;
   run 0x1E01 0x1E95 2 0x1E00; run 0x1E9B 0x1E9B 1 0x1E60; run 0x1EA1 0x1EFF 2 0x1EA0;
   run 0x1F00 0x1F07 1 0x1F08; run 0x1F10 0x1F15 1 0x1F18; run 0x1F20 0x1F27 1 0x1F28;
   run 0x1F30 0x1F37 1 0x1F38; run 0x1F40 0x1F45 1 0x1F48; run 0x1F51 0x1F57 2 0x1F59;
   run 0x1F60 0x1F67 1 0x1F68; run 0x1F70 0x1F71 1 0x1FBA; run 0x1F72 0x1F75 1 0x1FC8;
   run 0x1F76 0x1F77 1 0x1FDA; run 0x1F78 0x1F79 1 0x1FF8; run 0x1F7A 0x1F7B 1 0x1FEA;
   run 0x1F7C 0x1F7D 1 0x1FFA; run 0x1FB0 0x1FB1 1 0x1FB8; run 0x1FBE 0x1FBE 1 0x399;
   run 0x1FD0 0x1FD1 1 0x1FD8; run 0x1FE0 0x1FE1 1 0x1FE8; run 0x1FE5 0x1FE5 1 0x1FEC;
   run 0x214E 0x214E 1 0x2132; run 0x2170 0x217F 1 0x2160; run 0x2184 0x2184 1 0x2183;
   run 0x24D0 0x24E9 1 0x24B6; run 0x2C30 0x2C5F 1 0x2C00; run 0x2C61 0x2C61 1 0x2C60;
   run 0x2C65 0x2C65 1 0x23A; run 0x2C66 0x2C66 1 0x23E; run 0x2C68 0x2C6C 2 0x2C67;
   run 0x2C73 0x2C73 1 0x2C72; run 0x2C76 0x2C76 1 0x2C75; run 0x2C81 0x2CE3 2 0x2C80;
   run 0x2CEC 0x2CEE 2 0x2CEB; run 0x2CF3 0x2CF3 1 0x2CF2; run 0x2D00 0x2D25 1 0x10A0;
   run 0x2D27 0x2D27 1 0x10C7; run 0x2D2D 0x2D2D 1 0x10CD; run 0xA641 0xA66D 2 0xA640;
   run 0xA681 0xA69B 2 0xA680; run 0xA723 0xA72F 2 0xA722; run 0xA733 0xA76F 2 0xA732;
   run 0xA77A 0xA77C 2 0xA779; run 0xA77F 0xA787 2 0xA77E; run 0xA78C 0xA78C 1 0xA78B;
   run 0xA791 0xA793 2 0xA790; run 0xA794 0xA794 1 0xA7C4; run 0xA797 0xA7A9 2 0xA796;
   run 0xA7B5 0xA7C3 2 0xA7B4; run 0xA7C8 0xA7CA 2 0xA7C7; run 0xA7D1 0xA7D1 1 0xA7D0;
   run 0xA7D7 0xA7D9 2 0xA7D6; run 0xA7F6 0xA7F6 1 0xA7F5; run 0xAB53 0xAB53 1 0xA7B3;
   run 0xAB70 0xABBF 1 0x13A0; run 0xFF41 0xFF5A 1 0xFF21; run 0x10428 0x1044F 1 0x10400;
   run 0x104D8 0x104FB 1 0x104B0; run 0x10597 0x105A1 1 0x10570; run 0x105A3 0x105B1 1 0x1057C;
   run 0x105B3 0x105B9 1 0x1058C; run 0x105BB 0x105BC 1 0x10594; run 0x10CC0 0x10CF2 1 0x10C80;
   run 0x118C0 0x118DF 1 0x118A0; run 0x16E60 0x16E7F 1 0x16E40; run 0x1E922 0x1E943 1 0x1E900
  ].

(** The code points whose upper-case mapping holds several code points
    (SpecialCasing.txt, the mappings without a condition). *)
Definition upper_special : list (N * list N) :=
  [
   (0xDF, [0x53; 0x53]); (0x149, [0x2BC; 0x4E]); (0x1F0, [0x4A; 0x30C]);
   (0x390, [0x399; 0x308; 0x301]); (0x3B0, [0x3A5; 0x308; 0x301]); (0x587, [0x535; 0x552]);
   (0x1E96, [0x48; 0x331]); (0x1E97, [0x54; 0x308]); (0x1E98, [0x57; 0x30A]);
   (0x1E99, [0x59; 0x30A]); (0x1E9A, [0x41; 0x2BE]); (0x1F50, [0x3A5; 0x313]);
   (0x1F52, [0x3A5; 0x313; 0x300]); (0x1F54, [0x3A5; 0x313; 0x301]);
   (0x1F56, [0x3A5; 0x313; 0x342]); (0x1F80, [0x1F08; 0x399]); (0x1F81, [0x1F09; 0x399]);
   (0x1F82, [0x1F0A; 0x399]); (0x1F83, [0x1F0B; 0x399]); (0x1F84, [0x1F0C; 0x399]);
   (0x1F85, [0x1F0D; 0x399]); (0x1F86, [0x1F0E; 0x399]); (0x1F87, [0x1F0F; 0x399]);
   (0x1F88, [0x1F08; 0x399]); (0x1F89, [0x1F09; 0x399]); (0x1F8A, [0x1F0A; 0x399]);
   (0x1F8B, [0x1F0B; 0x399]); (0x1F8C, [0x1F0C; 0x399]); (0x1F8D, [0x1F0D; 0x399]);
   (0x1F8E, [0x1F0E; 0x399]); (0x1F8F, [0x1F0F; 0x399]); (0x1F90, [0x1F28; 0x399]);
   (0x1F91, [0x1F29; 0x399]); (0x1F92, [0x1F2A; 0x399]); (0x1F93, [0x1F2B; 0x399]);
   (0x1F94, [0x1F2C; 0x399]); (0x1F95, [0x1F2D; 0x399]); (0x1F96, [0x1F2E; 0x399]);
   (0x1F97, [0x1F2F; 0x399]); (0x1F98, [0x1F28; 0x399]); (0x1F99, [0x1F29; 0x399]);
   (0x1F9A, [0x1F2A; 0x399]); (0x1F9B, [0x1F2B; 0x399]); (0x1F9C, [0x1F2C; 0x399]);
   (0x1F9D, [0x1F2D; 0x399]); (0x1F9E, [0x1F2E; 0x399]); (0x1F9F, [0x1F2F; 0x399]);
   (0x1FA0, [0x1F68; 0x399]); (0x1FA1, [0x1F69; 0x399]); (0x1FA2, [0x1F6A; 0x399]);
   (0x1FA3, [0x1F6B; 0x399]); (0x1FA4, [0x1F6C; 0x399]); (0x1FA5, [0x1F6D; 0x399]);
   (0x1FA6, [0x1F6E; 0x399]); (0x1FA7, [0x1F6F; 0x399]); (0x1FA8, [0x1F68; 0x399]);
   (0x1FA9, [0x1F69; 0x399]); (0x1FAA, [0x1F6A; 0x399]); (0x1FAB, [0x1F6B; 0x399]);
   (0x1FAC, [0x1F6C; 0x399]); (0x1FAD, [0x1F6D; 0x399]); (0x1FAE, [0x1F6E; 0x399]);
   (0x1FAF, [0x1F6F; 0x399]); (0x1FB2, [0x1FBA; 0x399]); (0x1FB3, [0x391; 0x399]);
   (0x1FB4, [0x386; 0x399]); (0x1FB6, [0x391; 0x342]); (0x1FB7, [0x391; 0x342; 0x399]);
   (0x1FBC, [0x391; 0x399]); (0x1FC2, [0x1FCA; 0x399]); (0x1FC3, [0x397; 0x399]);
   (0x1FC4, [0x389; 0x399]); (0x1FC6, [0x397; 0x342]); (0x1FC7, [0x397; 0x342; 0x399]);
   (0x1FCC, [0x397; 0x399]); (0x1FD2, [0x399; 0x308; 0x300]); (0x1FD3, [0x399; 0x308; 0x301]);
   (0x1FD6, [0x399; 0x342]); (0x1FD7, [0x399; 0x308; 0x342]); (0x1FE2, [0x3A5; 0x308; 0x300]);
   (0x1FE3, [0x3A5; 0x308; 0x301]); (0x1FE4, [0x3A1; 0x313]); (0x1FE6, [0x3A5; 0x342]);
   (0x1FE7, [0x3A5; 0x308; 0x342]); (0x1FF2, [0x1FFA; 0x399]); (0x1FF3, [0x3A9; 0x399]);
   (0x1FF4, [0x38F; 0x399]); (0x1FF6, [0x3A9; 0x342]); (0x1FF7, [0x3A9; 0x342; 0x399]);
   (0x1FFC, [0x3A9; 0x399]); (0xFB00, [0x46; 0x46]); (0xFB01, [0x46; 0x49]);
   (0xFB02, [0x46; 0x4C]); (0xFB03, [0x46; 0x46; 0x49]); (0xFB04, [0x46; 0x46; 0x4C]);
   (0xFB05, [0x53; 0x54]); (0xFB06, [0x53; 0x54]); (0xFB13, [0x544; 0x546]);
   (0xFB14, [0x544; 0x535]); (0xFB15, [0x544; 0x53B]); (0xFB16, [0x54E; 0x546]);
   (0xFB17, [0x544; 0x53D])
  ]%N.

(** The code points above ASCII with a lower-case mapping of one code
    point. *)
Definition lower_runs : list case_run :=
  [
   run 0xC0 0xD6 1 0xE0; run 0xD8 0xDE 1 0xF8; run 0x100 0x12E 2 0x101; run 0x132 0x136 2 0x133;
   run 0x139 0x147 2 0x13A; run 0x14A 0x176 2 0x14B; run 0x178 0x178 1 0xFF;
   run 0x179 0x17D 2 0x17A; run 0x181 0x181 1 0x253; run 0x182 0x184 2 0x183;
   run 0x186 0x186 1 0x254; run 0x187 0x187 1 0x188; run 0x189 0x18A 1 0x256;
   run 0x18B 0x18B 1 0x18C; run 0x18E 0x18E 1 0x1DD; run 0x18F 0x18F 1 0x259;
   run 0x190 0x190 1 0x25B; run 0x191 0x191 1 0x192; run 0x193 0x193 1 0x260;
   run 0x194 0x194 1 0x263; run 0x196 0x196 1 0x269; run 0x197 0x197 1 0x268;
   run 0x198 0x198 1 0x199; run 0x19C 0x19C 1 0x26F; run 0x19D 0x19D 1 0x272;
   run 0x19F 0x19F 1 0x275; run 0x1A0 0x1A4 2 0x1A1; run 0x1A6 0x1A6 1 0x280;
   run 0x1A7 0x1A7 1 0x1A8; run 0x1A9 0x1A9 1 0x283; run 0x1AC 0x1AC 1 0x1AD;
   run 0x1AE 0x1AE 1 0x288; run 0x1AF 0x1AF 1 0x1B0; run 0x1B1 0x1B2 1 0x28A;
   run 0x1B3 0x1B5 2 0x1B4; run 0x1B7 0x1B7 1 0x292; run 0x1B8 0x1B8 1 0x1B9;
   run 0x1BC 0x1BC 1 0x1BD; run 0x1C4 0x1C4 1 0x1C6; run 0x1C5 0x1C5 1 0x1C6;
   run 0x1C7 0x1C7 1 0x1C9; run 0x1C8 0x1C8 1 0x1C9; run 0x1CA 0x1CA 1 0x1CC;
   run 0x1CB 0x1DB 2 0x1CC; run 0x1DE 0x1EE 2 0x1DF; run 0x1F1 0x1F1 1 0x1F3;
   run 0x1F2 0x1F4 2 0x1F3; run 0x1F6 0x1F6 1 0x195; run 0x1F7 0x1F7 1 0x1BF;
   run 0x1F8 0x21E 2 0x1F9; run 0x220 0x220 1 0x19E; run 0x222 0x232 2 0x223;
   run 0x23A 0x23A 1 0x2C65; run 0x23B 0x23B 1 0x23C; run 0x23D 0x23D 1 0x19A;
   run 0x23E 0x23E 1 0x2C66; run 0x241 0x241 1 0x242; run 0x243 0x243 1 0x180;
   run 0x244 0x244 1 0x289; run 0x245 0x245 1 0x28C; run 0x246 0x24E 2 0x247;
   run 0x370 0x372 2 0x371; run 0x376 0x376 1 0x377; run 0x37F 0x37F 1 0x3F3;
   run 0x386 0x386 1 0x3AC; run 0x388 0x38A 1 0x3AD; run 0x38C 0x38C 1 0x3CC;
   run 0x38E 0x38F 1 0x3CD; run 0x391 0x3A1 1 0x3B1; run 0x3A3 0x3AB 1 0x3C3;
   run 0x3CF 0x3CF 1 0x3D7; run 0x3D8 0x3EE 2 0x3D9; run 0x3F4 0x3F4 1 0x3B8;
   run 0x3F7 0x3F7 1 0x3F8; run 0x3F9 0x3F9 1 0x3F2; run 0x3FA 0x3FA 1 0x3FB;
   run 0x3FD 0x3FF 1 0x37B; run 0x400 0x40F 1 0x450; run 0x410 0x42F 1 0x430;
   run 0x460 0x480 2 0x461; run 0x48A 0x4BE 2 0x48B; run 0x4C0 0x4C0 1 0x4CF;
   run 0x4C1 0x4CD 2 0x4C2; run 0x4D0 0x52E 2 0x4D1; run 0x531 0x556 1 0x561;
   run 0x10A0 0x10C5 1 0x2D00; run 0x10C7 0x10C7 1 0x2D27; run 0x10CD 0x10CD 1 0x2D2D;
   run 0x13A0 0x13EF 1 0xAB70; run 0x13F0 0x13F5 1 0x13F8; run 0x1C90 0x1CBA 1 0x10D0;
   run 0x1CBD 0x1CBF 1 0x10FD; run 0x1E00 0x1E94 2 0x1E01; run 0x1E9E 0x1E9E 1 0xDF;
   run 0x1EA0 0x1EFE 2 0x1EA1; run 0x1F08 0x1F0F 1 0x1F00; run 0x1F18 0x1F1D 1 0x1F10;
   run 0x1F28 0x1F2F 1 0x1F20; run 0x1F38 0x1F3F 1 0x1F30; run 0x1F48 0x1F4D 1 0x1F40;
   run 0x1F59 0x1F5F 2 0x1F51; run 0x1F68 0x1F6F 1 0x1F60; run 0x1F88 0x1F8F 1 0x1F80;
   run 0x1F98 0x1F9F 1 0x1F90; run 0x1FA8 0x1FAF 1 0x1FA0; run 0x1FB8 0x1FB9 1 0x1FB0;
   run 0x1FBA 0x1FBB 1 0x1F70; run 0x1FBC 0x1FBC 1 0x1FB3; run 0x1FC8 0x1FCB 1 0x1F72;
   run 0x1FCC 0x1FCC 1 0x1FC3; run 0x1FD8 0x1FD9 1 0x1FD0; run 0x1FDA 0x1FDB 1 0x1F76;
   run 0x1FE8 0x1FE9 1 0x1FE0; run 0x1FEA 0x1FEB 1 0x1F7A; run 0x1FEC 0x1FEC 1 0x1FE5;
   run 0x1FF8 0x1FF9 1 0x1F78; run 0x1FFA 0x1FFB 1 0x1F7C; run 0x1FFC 0x1FFC 1 0x1FF3;
   run 0x2126 0x2126 1 0x3C9; run 0x212A 0x212A 1 0x6B; run 0x212B 0x212B 1 0xE5;
   run 0x2132 0x2132 1 0x214E; run 0x2160 0x216F 1 0x2170; run 0x2183 0x2183 1 0x2184;
   run 0x24B6 0x24CF 1 0x24D0; run 0x2C00 0x2C2F 1 0x2C30; run 0x2C60 0x2C60 1 0x2C61;
   run 0x2C62 0x2C62 1 0x26B; run 0x2C63 0x2C63 1 0x1D7D; run 0x2C64 0x2C64 1 0x27D;
   run 0x2C67 0x2C6B 2 0x2C68; run 0x2C6D 0x2C6D 1 0x251; run 0x2C6E 0x2C6E 1 0x271;
   run 0x2C6F 0x2C6F 1 0x250; run 0x2C70 0x2C70 1 0x252; run 0x2C72 0x2C72 1 0x2C73;
   run 0x2C75 0x2C75 1 0x2C76; run 0x2C7E 0x2C7F 1 0x23F; run 0x2C80 0x2CE2 2 0x2C81;
   run 0x2CEB 0x2CED 2 0x2CEC; run 0x2CF2 0x2CF2 1 0x2CF3; run 0xA640 0xA66C 2 0xA641;
   run 0xA680 0xA69A 2 0xA681; run 0xA722 0xA72E 2 0xA723; run 0xA732 0xA76E 2 0xA733;
   run 0xA779 0xA77B 2 0xA77A; run 0xA77D 0xA77D 1 0x1D79; run 0xA77E 0xA786 2 0xA77F;
   run 0xA78B 0xA78B 1 0xA78C; run 0xA78D 0xA78D 1 0x265; run 0xA790 0xA792 2 0xA791;
   run 0xA796 0xA7A8 2 0xA797; run 0xA7AA 0xA7AA 1 0x266; run 0xA7AB 0xA7AB 1 0x25C;
   run 0xA7AC 0xA7AC 1 0x261; run 0xA7AD 0xA7AD 1 0x26C; run 0xA7AE 0xA7AE 1 0x26A;
   run 0xA7B0 0xA7B0 1 0x29E; run 0xA7B1 0xA7B1 1 0x287; run 0xA7B2 0xA7B2 1 0x29D;
   run 0xA7B3 0xA7B3 1 0xAB53; run 0xA7B4 0xA7C2 2 0xA7B5; run 0xA7C4 0xA7C4 1 0xA794;
   run 0xA7C5 0xA7C5 1 0x282; run 0xA7C6 0xA7C6 1 0x1D8E; run 0xA7C7 0xA7C9 2 0xA7C8;
   run 0xA7D0 0xA7D0 1 0xA7D1; run 0xA7D6 0xA7D8 2 0xA7D7; run 0xA7F5 0xA7F5 1 0xA7F6;
   run 0xFF21 0xFF3A 1 0xFF41; run 0x10400 0x10427 1 0x10428; run 0x104B0 0x104D3 1 0x104D8;
   run 0x10570 0x1057A 1 0x10597; run 0x1057C 0x1058A 1 0x105A3; run 0x1058C 0x10592 1 0x105B3;
   run 0x10594 0x10595 1 0x105BB; run 0x10C80 0x10CB2 1 0x10CC0; run 0x118A0 0x118BF 1 0x118C0;
   run 0x16E40 0x16E5F 1 0x16E60; run 0x1E900 0x1E921 1 0x1E922
  ].

(** The one lower-case mapping of several code points: the capital I with
    a dot above. *)
Definition lower_special : list (N * list N) :=
  [
   (0x130, [0x69; 0x307])
  ]%N.

(** The code points with the property Cased (DerivedCoreProperties.txt). *)
Definition cased_ranges : list (N * N) :=
  [
   (0x41, 0x5A); (0x61, 0x7A); (0xAA, 0xAA); (0xB5, 0xB5); (0xBA, 0xBA); (0xC0, 0xD6);
   (0xD8, 0xF6); (0xF8, 0x1BA); (0x1BC, 0x1BF); (0x1C4, 0x293); (0x295, 0x2B8); (0x2C0, 0x2C1);
   (0x2E0, 0x2E4); (0x345, 0x345); (0x370, 0x373); (0x376, 0x377); (0x37A, 0x37D);
   (0x37F, 0x37F); (0x386, 0x386); (0x388, 0x38A); (0x38C, 0x38C); (0x38E, 0x3A1);
   (0x3A3, 0x3F5); (0x3F7, 0x481); (0x48A, 0x52F); (0x531, 0x556); (0x560, 0x588);
   (0x10A0, 0x10C5); (0x10C7, 0x10C7); (0x10CD, 0x10CD); (0x10D0, 0x10FA); (0x10FD, 0x10FF);
   (0x13A0, 0x13F5); (0x13F8, 0x13FD); (0x1C80, 0x1C88); (0x1C90, 0x1CBA); (0x1CBD, 0x1CBF);
   (0x1D00, 0x1DBF); (0x1E00, 0x1F15); (0x1F18, 0x1F1D); (0x1F20, 0x1F45); (0x1F48, 0x1F4D);
   (0x1F50, 0x1F57); (0x1F59, 0x1F59); (0x1F5B, 0x1F5B); (0x1F5D, 0x1F5D); (0x1F5F, 0x1F7D);
   (0x1F80, 0x1FB4); (0x1FB6, 0x1FBC); (0x1FBE, 0x1FBE); (0x1FC2, 0x1FC4); (0x1FC6, 0x1FCC);
   (0x1FD0, 0x1FD3); (0x1FD6, 0x1FDB); (0x1FE0, 0x1FEC); (0x1FF2, 0x1FF4); (0x1FF6, 0x1FFC);
   (0x2071, 0x2071); (0x207F, 0x207F); (0x2090, 0x209C); (0x2102, 0x2102); (0x2107, 0x2107);
   (0x210A, 0x2113); (0x2115, 0x2115); (0x2119, 0x211D); (0x2124, 0x2124); (0x2126, 0x2126);
   (0x2128, 0x2128); (0x212A, 0x212D); (0x212F, 0x2134); (0x2139, 0x2139); (0x213C, 0x213F);
   (0x2145, 0x2149); (0x214E, 0x214E); (0x2160, 0x217F); (0x2183, 0x2184); (0x24B6, 0x24E9);
   (0x2C00, 0x2CE4); (0x2CEB, 0x2CEE); (0x2CF2, 0x2CF3); (0x2D00, 0x2D25); (0x2D27, 0x2D27);
   (0x2D2D, 0x2D2D); (0xA640, 0xA66D); (0xA680, 0xA69D); (0xA722, 0xA787); (0xA78B, 0xA78E);
   (0xA790, 0xA7CA); (0xA7D0, 0xA7D1); (0xA7D3, 0xA7D3); (0xA7D5, 0xA7D9); (0xA7F5, 0xA7F6);
   (0xA7F8, 0xA7FA); (0xAB30, 0xAB5A); (0xAB5C, 0xAB68); (0xAB70, 0xABBF); (0xFB00, 0xFB06);
   (0xFB13, 0xFB17); (0xFF21, 0xFF3A); (0xFF41, 0xFF5A); (0x10400, 0x1044F); (0x104B0, 0x104D3);
   (0x104D8, 0x104FB); (0x10570, 0x1057A); (0x1057C, 0x1058A); (0x1058C, 0x10592);
   (0x10594, 0x10595); (0x10597, 0x105A1); (0x105A3, 0x105B1); (0x105B3, 0x105B9);
   (0x105BB, 0x105BC); (0x10780, 0x10780); (0x10783, 0x10785); (0x10787, 0x107B0);
   (0x107B2, 0x107BA); (0x10C80, 0x10CB2); (0x10CC0, 0x10CF2); (0x118A0, 0x118DF);
   (0x16E40, 0x16E7F); (0x1D400, 0x1D454); (0x1D456, 0x1D49C); (0x1D49E, 0x1D49F);
   (0x1D4A2, 0x1D4A2); (0x1D4A5, 0x1D4A6); (0x1D4A9, 0x1D4AC); (0x1D4AE, 0x1D4B9);
   (0x1D4BB, 0x1D4BB); (0x1D4BD, 0x1D4C3); (0x1D4C5, 0x1D505); (0x1D507, 0x1D50A);
   (0x1D50D, 0x1D514); (0x1D516, 0x1D51C); (0x1D51E, 0x1D539); (0x1D53B, 0x1D53E);
   (0x1D540, 0x1D544); (0x1D546, 0x1D546); (0x1D54A, 0x1D550); (0x1D552, 0x1D6A5);
   (0x1D6A8, 0x1D6C0); (0x1D6C2, 0x1D6DA); (0x1D6DC, 0x1D6FA); (0x1D6FC, 0x1D714);
   (0x1D716, 0x1D734); (0x1D736, 0x1D74E); (0x1D750, 0x1D76E); (0x1D770, 0x1D788);
   (0x1D78A, 0x1D7A8); (0x1D7AA, 0x1D7C2); (0x1D7C4, 0x1D7CB); (0x1DF00, 0x1DF09);
   (0x1DF0B, 0x1DF1E); (0x1E900, 0x1E943); (0x1F130, 0x1F149); (0x1F150, 0x1F169);
   (0x1F170, 0x1F189)
  ]%N.

(** The code points with the property Case_Ignorable. *)
Definition case_ignorable_ranges : list (N * N) :=
  [
   (0x27, 0x27); (0x2E, 0x2E); (0x3A, 0x3A); (0x5E, 0x5E); (0x60, 0x60); (0xA8, 0xA8);
   (0xAD, 0xAD); (0xAF, 0xAF); (0xB4, 0xB4); (0xB7, 0xB8); (0x2B0, 0x36F); (0x374, 0x375);
   (0x37A, 0x37A); (0x384, 0x385); (0x387, 0x387); (0x483, 0x489); (0x559, 0x559);
   (0x55F, 0x55F); (0x591, 0x5BD); (0x5BF, 0x5BF); (0x5C1, 0x5C2); (0x5C4, 0x5C5);
   (0x5C7, 0x5C7); (0x5F4, 0x5F4); (0x600, 0x605); (0x610, 0x61A); (0x61C, 0x61C);
   (0x640, 0x640); (0x64B, 0x65F); (0x670, 0x670); (0x6D6, 0x6DD); (0x6DF, 0x6E8);
   (0x6EA, 0x6ED); (0x70F, 0x70F); (0x711, 0x711); (0x730, 0x74A); (0x7A6, 0x7B0);
   (0x7EB, 0x7F5); (0x7FA, 0x7FA); (0x7FD, 0x7FD); (0x816, 0x82D); (0x859, 0x85B);
   (0x888, 0x888); (0x890, 0x891); (0x898, 0x89F); (0x8C9, 0x902); (0x93A, 0x93A);
   (0x93C, 0x93C); (0x941, 0x948); (0x94D, 0x94D); (0x951, 0x957); (0x962, 0x963);
   (0x971, 0x971); (0x981, 0x981); (0x9BC, 0x9BC); (0x9C1, 0x9C4); (0x9CD, 0x9CD);
   (0x9E2, 0x9E3); (0x9FE, 0x9FE); (0xA01, 0xA02); (0xA3C, 0xA3C); (0xA41, 0xA42);
   (0xA47, 0xA48); (0xA4B, 0xA4D); (0xA51, 0xA51); (0xA70, 0xA71); (0xA75, 0xA75);
   (0xA81, 0xA82); (0xABC, 0xABC); (0xAC1, 0xAC5); (0xAC7, 0xAC8); (0xACD, 0xACD);
   (0xAE2, 0xAE3); (0xAFA, 0xAFF); (0xB01, 0xB01); (0xB3C, 0xB3C); (0xB3F, 0xB3F);
   (0xB41, 0xB44); (0xB4D, 0xB4D); (0xB55, 0xB56); (0xB62, 0xB63); (0xB82, 0xB82);
   (0xBC0, 0xBC0); (0xBCD, 0xBCD); (0xC00, 0xC00); (0xC04, 0xC04); (0xC3C, 0xC3C);
   (0xC3E, 0xC40); (0xC46, 0xC48); (0xC4A, 0xC4D); (0xC55, 0xC56); (0xC62, 0xC63);
   (0xC81, 0xC81); (0xCBC, 0xCBC); (0xCBF, 0xCBF); (0xCC6, 0xCC6); (0xCCC, 0xCCD);
   (0xCE2, 0xCE3); (0xD00, 0xD01); (0xD3B, 0xD3C); (0xD41, 0xD44); (0xD4D, 0xD4D);
   (0xD62, 0xD63); (0xD81, 0xD81); (0xDCA, 0xDCA); (0xDD2, 0xDD4); (0xDD6, 0xDD6);
   (0xE31, 0xE31); (0xE34, 0xE3A); (0xE46, 0xE4E); (0xEB1, 0xEB1); (0xEB4, 0xEBC);
   (0xEC6, 0xEC6); (0xEC8, 0xECD); (0xF18, 0xF19); (0xF35, 0xF35); (0xF37, 0xF37);
   (0xF39, 0xF39); (0xF71, 0xF7E); (0xF80, 0xF84); (0xF86, 0xF87); (0xF8D, 0xF97);
   (0xF99, 0xFBC); (0xFC6, 0xFC6); (0x102D, 0x1030); (0x1032, 0x1037); (0x1039, 0x103A);
   (0x103D, 0x103E); (0x1058, 0x1059); (0x105E, 0x1060); (0x1071, 0x1074); (0x1082, 0x1082);
   (0x1085, 0x1086); (0x108D, 0x108D); (0x109D, 0x109D); (0x10FC, 0x10FC); (0x135D, 0x135F);
   (0x1712, 0x1714); (0x1732, 0x1733); (0x1752, 0x1753); (0x1772, 0x1773); (0x17B4, 0x17B5);
   (0x17B7, 0x17BD); (0x17C6, 0x17C6); (0x17C9, 0x17D3); (0x17D7, 0x17D7); (0x17DD, 0x17DD);
   (0x180B, 0x180F); (0x1843, 0x1843); (0x1885, 0x1886); (0x18A9, 0x18A9); (0x1920, 0x1922);
   (0x1927, 0x1928); (0x1932, 0x1932); (0x1939, 0x193B); (0x1A17, 0x1A18); (0x1A1B, 0x1A1B);
   (0x1A56, 0x1A56); (0x1A58, 0x1A5E); (0x1A60, 0x1A60); (0x1A62, 0x1A62); (0x1A65, 0x1A6C);
   (0x1A73, 0x1A7C); (0x1A7F, 0x1A7F); (0x1AA7, 0x1AA7); (0x1AB0, 0x1ACE); (0x1B00, 0x1B03);
   (0x1B34, 0x1B34); (0x1B36, 0x1B3A); (0x1B3C, 0x1B3C); (0x1B42, 0x1B42); (0x1B6B, 0x1B73);
   (0x1B80, 0x1B81); (0x1BA2, 0x1BA5); (0x1BA8, 0x1BA9); (0x1BAB, 0x1BAD); (0x1BE6, 0x1BE6);
   (0x1BE8, 0x1BE9); (0x1BED, 0x1BED); (0x1BEF, 0x1BF1); (0x1C2C, 0x1C33); (0x1C36, 0x1C37);
   (0x1C78, 0x1C7D); (0x1CD0, 0x1CD2); (0x1CD4, 0x1CE0); (0x1CE2, 0x1CE8); (0x1CED, 0x1CED);
   (0x1CF4, 0x1CF4); (0x1CF8, 0x1CF9); (0x1D2C, 0x1D6A); (0x1D78, 0x1D78); (0x1D9B, 0x1DFF);
   (0x1FBD, 0x1FBD); (0x1FBF, 0x1FC1); (0x1FCD, 0x1FCF); (0x1FDD, 0x1FDF); (0x1FED, 0x1FEF);
   (0x1FFD, 0x1FFE); (0x200B, 0x200F); (0x2018, 0x2019); (0x2024, 0x2024); (0x2027, 0x2027);
   (0x202A, 0x202E); (0x2060, 0x2064); (0x2066, 0x206F); (0x2071, 0x2071); (0x207F, 0x207F);
   (0x2090, 0x209C); (0x20D0, 0x20F0); (0x2C7C, 0x2C7D); (0x2CEF, 0x2CF1); (0x2D6F, 0x2D6F);
   (0x2D7F, 0x2D7F); (0x2DE0, 0x2DFF); (0x2E2F, 0x2E2F); (0x3005, 0x3005); (0x302A, 0x302D);
   (0x3031, 0x3035); (0x303B, 0x303B); (0x3099, 0x309E); (0x30FC, 0x30FE); (0xA015, 0xA015);
   (0xA4F8, 0xA4FD); (0xA60C, 0xA60C); (0xA66F, 0xA672); (0xA674, 0xA67D); (0xA67F, 0xA67F);
   (0xA69C, 0xA69F); (0xA6F0, 0xA6F1); (0xA700, 0xA721); (0xA770, 0xA770); (0xA788, 0xA78A);
   (0xA7F2, 0xA7F4); (0xA7F8, 0xA7F9); (0xA802, 0xA802); (0xA806, 0xA806); (0xA80B, 0xA80B);
   (0xA825, 0xA826); (0xA82C, 0xA82C); (0xA8C4, 0xA8C5); (0xA8E0, 0xA8F1); (0xA8FF, 0xA8FF);
   (0xA926, 0xA92D); (0xA947, 0xA951); (0xA980, 0xA982); (0xA9B3, 0xA9B3); (0xA9B6, 0xA9B9);
   (0xA9BC, 0xA9BD); (0xA9CF, 0xA9CF); (0xA9E5, 0xA9E6); (0xAA29, 0xAA2E); (0xAA31, 0xAA32);
   (0xAA35, 0xAA36); (0xAA43, 0xAA43); (0xAA4C, 0xAA4C); (0xAA70, 0xAA70); (0xAA7C, 0xAA7C);
   (0xAAB0, 0xAAB0); (0xAAB2, 0xAAB4); (0xAAB7, 0xAAB8); (0xAABE, 0xAABF); (0xAAC1, 0xAAC1);
   (0xAADD, 0xAADD); (0xAAEC, 0xAAED); (0xAAF3, 0xAAF4); (0xAAF6, 0xAAF6); (0xAB5B, 0xAB5F);
   (0xAB69, 0xAB6B); (0xABE5, 0xABE5); (0xABE8, 0xABE8); (0xABED, 0xABED); (0xFB1E, 0xFB1E);
   (0xFBB2, 0xFBC2); (0xFE00, 0xFE0F); (0xFE13, 0xFE13); (0xFE20, 0xFE2F); (0xFE52, 0xFE52);
   (0xFE55, 0xFE55); (0xFEFF, 0xFEFF); (0xFF07, 0xFF07); (0xFF0E, 0xFF0E); (0xFF1A, 0xFF1A);
   (0xFF3E, 0xFF3E); (0xFF40, 0xFF40); (0xFF70, 0xFF70); (0xFF9E, 0xFF9F); (0xFFE3, 0xFFE3);
   (0xFFF9, 0xFFFB); (0x101FD, 0x101FD); (0x102E0, 0x102E0); (0x10376, 0x1037A);
   (0x10780, 0x10785); (0x10787, 0x107B0); (0x107B2, 0x107BA); (0x10A01, 0x10A03);
   (0x10A05, 0x10A06); (0x10A0C, 0x10A0F); (0x10A38, 0x10A3A); (0x10A3F, 0x10A3F);
   (0x10AE5, 0x10AE6); (0x10D24, 0x10D27); (0x10EAB, 0x10EAC); (0x10F46, 0x10F50);
   (0x10F82, 0x10F85); (0x11001, 0x11001); (0x11038, 0x11046); (0x11070, 0x11070);
   (0x11073, 0x11074); (0x1107F, 0x11081); (0x110B3, 0x110B6); (0x110B9, 0x110BA);
   (0x110BD, 0x110BD); (0x110C2, 0x110C2); (0x110CD, 0x110CD); (0x11100, 0x11102);
   (0x11127, 0x1112B); (0x1112D, 0x11134); (0x11173, 0x11173); (0x11180, 0x11181);
   (0x111B6, 0x111BE); (0x111C9, 0x111CC); (0x111CF, 0x111CF); (0x1122F, 0x11231);
   (0x11234, 0x11234); (0x11236, 0x11237); (0x1123E, 0x1123E); (0x112DF, 0x112DF);
   (0x112E3, 0x112EA); (0x11300, 0x11301); (0x1133B, 0x1133C); (0x11340, 0x11340);
   (0x11366, 0x1136C); (0x11370, 0x11374); (0x11438, 0x1143F); (0x11442, 0x11444);
   (0x11446, 0x11446); (0x1145E, 0x1145E); (0x114B3, 0x114B8); (0x114BA, 0x114BA);
   (0x114BF, 0x114C0); (0x114C2, 0x114C3); (0x115B2, 0x115B5); (0x115BC, 0x115BD);
   (0x115BF, 0x115C0); (0x115DC, 0x115DD); (0x11633, 0x1163A); (0x1163D, 0x1163D);
   (0x1163F, 0x11640); (0x116AB, 0x116AB); (0x116AD, 0x116AD); (0x116B0, 0x116B5);
   (0x116B7, 0x116B7); (0x1171D, 0x1171F); (0x11722, 0x11725); (0x11727, 0x1172B);
   (0x1182F, 0x11837); (0x11839, 0x1183A); (0x1193B, 0x1193C); (0x1193E, 0x1193E);
   (0x11943, 0x11943); (0x119D4, 0x119D7); (0x119DA, 0x119DB); (0x119E0, 0x119E0);
   (0x11A01, 0x11A0A); (0x11A33, 0x11A38); (0x11A3B, 0x11A3E); (0x11A47, 0x11A47);
   (0x11A51, 0x11A56); (0x11A59, 0x11A5B); (0x11A8A, 0x11A96); (0x11A98, 0x11A99);
   (0x11C30, 0x11C36); (0x11C38, 0x11C3D); (0x11C3F, 0x11C3F); (0x11C92, 0x11CA7);
   (0x11CAA, 0x11CB0); (0x11CB2, 0x11CB3); (0x11CB5, 0x11CB6); (0x11D31, 0x11D36);
   (0x11D3A, 0x11D3A); (0x11D3C, 0x11D3D); (0x11D3F, 0x11D45); (0x11D47, 0x11D47);
   (0x11D90, 0x11D91); (0x11D95, 0x11D95); (0x11D97, 0x11D97); (0x11EF3, 0x11EF4);
   (0x13430, 0x13438); (0x16AF0, 0x16AF4); (0x16B30, 0x16B36); (0x16B40, 0x16B43);
   (0x16F4F, 0x16F4F); (0x16F8F, 0x16F9F); (0x16FE0, 0x16FE1); (0x16FE3, 0x16FE4);
   (0x1AFF0, 0x1AFF3); (0x1AFF5, 0x1AFFB); (0x1AFFD, 0x1AFFE); (0x1BC9D, 0x1BC9E);
   (0x1BCA0, 0x1BCA3); (0x1CF00, 0x1CF2D); (0x1CF30, 0x1CF46); (0x1D167, 0x1D169);
   (0x1D173, 0x1D182); (0x1D185, 0x1D18B); (0x1D1AA, 0x1D1AD); (0x1D242, 0x1D244);
   (0x1DA00, 0x1DA36); (0x1DA3B, 0x1DA6C); (0x1DA75, 0x1DA75); (0x1DA84, 0x1DA84);
   (0x1DA9B, 0x1DA9F); (0x1DAA1, 0x1DAAF); (0x1E000, 0x1E006); (0x1E008, 0x1E018);
   (0x1E01B, 0x1E021); (0x1E023, 0x1E024); (0x1E026, 0x1E02A); (0x1E130, 0x1E13D);
   (0x1E2AE, 0x1E2AE); (0x1E2EC, 0x1E2EF); (0x1E8D0, 0x1E8D6); (0x1E944, 0x1E94B);
   (0x1F3FB, 0x1F3FF); (0xE0001, 0xE0001); (0xE0020, 0xE007F); (0xE0100, 0xE01EF)
  ]%N.

Definition in_run (cp : N) (r : case_run) : bool :=
  ((first_point r <=? cp) && (cp <=? last_point r)
   && ((cp - first_point r) mod step r =? 0))%N.

Definition mapped (table : list case_run) (cp : N) : N :=
  match find (in_run cp) table with
  | Some r => (image r + (cp - first_point r))%N
  | None => cp
  end.

Fixpoint special (table : list (N * list N)) (cp : N) : option (list N) :=
  match table with
  | [] => None
  | (c, cps) :: table' => if (c =? cp)%N then Some cps else special table' cp
  end.

Definition in_ranges (table : list (N * N)) (cp : N) : bool :=
  existsb (fun r => ((fst r <=? cp) && (cp <=? snd r))%N) table.

Definition cased (cp : N) : bool := in_ranges cased_ranges cp.
Definition case_ignorable (cp : N) : bool := in_ranges case_ignorable_ranges cp.

Definition upper_code_point (cp : N) : list N :=
  if (cp <? 128)%N then [upper_unit cp]
  else match special upper_special cp with
       | Some cps => cps
       | None => [mapped upper_runs cp]
       end.

Definition lower_code_point (cp : N) : list N :=
  if (cp <? 128)%N then [lower_unit cp]
  else match special lower_special cp with
       | Some cps => cps
       | None => [mapped lower_runs cp]
       end.

(** The code points of a string: a high surrogate followed by a low one
    is one code point, and every other code unit stands for itself. *)
Definition is_high_surrogate (c : N) : bool := ((0xD800 <=? c) && (c <=? 0xDBFF))%N.
Definition is_low_surrogate (c : N) : bool := ((0xDC00 <=? c) && (c <=? 0xDFFF))%N.

Fixpoint code_points (s : jsstring) : list N :=
  match s with
  | [] => []
  | c :: rest =>
      match rest with
      | d :: rest' =>
          if is_high_surrogate c && is_low_surrogate d then
            (0x10000 + (c - 0xD800) * 0x400 + (d - 0xDC00))%N :: code_points rest'
          else c :: code_points rest
      | [] => [c]
      end
  end.

Definition code_units (cp : N) : jsstring :=
  if (cp <? 0x10000)%N then [cp]
  else [(0xD800 + (cp - 0x10000) / 0x400)%N; (0xDC00 + (cp - 0x10000) mod 0x400)%N].

(** The condition Final_Sigma: the capital sigma follows a cased letter,
    code points that are ignored for case apart, and does not precede
    one.  [after_cased] reads the code points away from the sigma. *)
Fixpoint after_cased (cps : list N) : bool :=
  match cps with
  | [] => false
  | c :: rest => if case_ignorable c then after_cased rest else cased c
  end.

Definition final_sigma (before after : list N) : bool :=
  negb (after_cased after) && after_cased before.

(** [before] holds the code points already read, the last one first. *)
Fixpoint lower_points (before cps : list N) : list N :=
  match cps with
  | [] => []
  | c :: rest =>
      (if (c =? 0x3A3)%N then [if final_sigma before rest then 0x3C2%N else 0x3C3%N]
       else lower_code_point c)
      ++ lower_points (c :: before) rest
  end.

Definition toUpperCase (s : jsstring) : jsstring :=
  flat_map code_units (flat_map upper_code_point (code_points s)).

Definition toLowerCase (s : jsstring) : jsstring :=
  flat_map code_units (lower_points [] (code_points s)).

Definition jsstring_eqb (a b : jsstring) : bool :=
  if list_eq_dec N.eq_dec a b then true else false.

(** Strict equality [===] on the values of [field]. *)
Definition strict_eq (a b : field) : bool :=
  match a, b with
  | Undefined, Undefined => true
  | Null, Null => true
  | Str s, Str t => jsstring_eqb s t
  | _, _ => false
  end.

(** The string a value becomes under string concatenation with [+] or in
    a template literal. *)
Definition to_string (v : field) : jsstring :=
  match v with
  | Undefined => js "undefined"
  | Null => js "null"
  | Str s => s
  end.

(** The value of an environment variable: a string, or [undefined]. *)
Definition of_env (v : option jsstring) : field :=
  match v with
  | None => Undefined
  | Some s => Str s
  end.

(** [v ?? d] *)
Definition nullish (v : field) (d : jsstring) : jsstring :=
  match v with
  | Str s => s
  | _ => d
  end.

(** [v?.startsWith(pre)], read as a condition. *)
Definition optional_startsWith (v : field) (pre : jsstring) : bool :=
  match v with
  | Str s => starts_with pre s
  | _ => false
  end.

(** Truthiness of a string-or-missing value. *)
Definition truthy (v : field) : bool :=
  match v with
  | Str (_ :: _) => true
  | _ => false
  end.

(** The first place where [pat] occurs in [s]: what comes before it and
    what comes after it. *)
Fixpoint split_at_first (pat s : jsstring) : option (jsstring * jsstring) :=
  if starts_with pat s then Some ([], skipn (length pat) s)
  else
    match s with
    | [] => None
    | c :: s' =>
        match split_at_first pat s' with
        | Some (before, after) => Some (c :: before, after)
        | None => None
        end
    end.

(** The replacement text of [replace] (GetSubstitution, without capture
    groups): [$$] is a dollar sign, [$&] the matched text, [$`] the text
    before it and [$'] the text after it; any other dollar sign stands
    for itself. *)
Fixpoint substitution (matched before after replacement : jsstring) : jsstring :=
  match replacement with
  | [] => []
  | c :: r =>
      if (c =? 36)%N then
        match r with
        | [] => [c]
        | d :: r' =>
            if (d =? 36)%N then 36%N :: substitution matched before after r'
            else if (d =? 38)%N then matched ++ substitution matched before after r'
            else if (d =? 96)%N then before ++ substitution matched before after r'
            else if (d =? 39)%N then after ++ substitution matched before after r'
            else c :: substitution matched before after r
        end
      else c :: substitution matched before after r
  end.

(** [s.replace(pat, replacement)] with a string pattern: the first
    occurrence only. *)
Definition replace (s pat replacement : jsstring) : jsstring :=
  match split_at_first pat s with
  | Some (before, after) => before ++ substitution pat before after replacement ++ after
  | None => s
  end.

(** ** Byte arrays *)

Definition byte := Byte.byte.
Definition Uint8Array := list byte.

Definition Z_of_byte (b : byte) : Z := Z.of_N (Byte.to_N b).

(** The byte a number leaves in a cell of a [Uint8Array]: its low eight
    bits. *)
Definition byte_of_Z (z : Z) : byte :=
  match Byte.of_N (Z.to_N (z mod 256)) with
  | Some b => b
  | None => Byte.x00
  end.

End JS.
Import JS.

Notation "x <- m ;; k" := (bind m (fun x => k))
  (at level 61, m at next level, right associativity).

(** ** SHA-512, the [sha512] of the crypto package

    The package is imported by the helpers and is not among their
    sources; the hash is written after FIPS 180-4. *)

Module Sha512.

Definition wrap64 (z : Z) : Z := z mod 2 ^ 64.
Definition add64 (a b : Z) : Z := wrap64 (a + b).
Definition rotr (n x : Z) : Z :=
  Z.lor (Z.shiftr x n) (wrap64 (Z.shiftl x (64 - n))).
Definition shr (n x : Z) : Z := Z.shiftr x n.
Definition xor3 (a b c : Z) : Z := Z.lxor (Z.lxor a b) c.

Definition Ch (x y z : Z) : Z :=
  Z.lxor (Z.land x y) (Z.land (Z.lxor x (2 ^ 64 - 1)) z).
Definition Maj (x y z : Z) : Z :=
  xor3 (Z.land x y) (Z.land x z) (Z.land y z).
Definition Sigma0 (x : Z) : Z := xor3 (rotr 28 x) (rotr 34 x) (rotr 39 x).
Definition Sigma1 (x : Z) : Z := xor3 (rotr 14 x) (rotr 18 x) (rotr 41 x).
Definition sigma0 (x : Z) : Z := xor3 (rotr 1 x) (rotr 8 x) (shr 7 x).
Definition sigma1 (x : Z) : Z := xor3 (rotr 19 x) (rotr 61 x) (shr 6 x).

(** The round constants: the first 64 bits of the fractional parts of the
    cube roots of the first eighty primes. *)
Definition K : list Z :=
  [0x428a2f98d728ae22; 0x7137449123ef65cd; 0xb5c0fbcfec4d3b2f; 0xe9b5dba58189dbbc;
   0x3956c25bf348b538; 0x59f111f1b605d019; 0x923f82a4af194f9b; 0xab1c5ed5da6d8118;
   0xd807aa98a3030242; 0x12835b0145706fbe; 0x243185be4ee4b28c; 0x550c7dc3d5ffb4e2;
   0x72be5d74f27b896f; 0x80deb1fe3b1696b1; 0x9bdc06a725c71235; 0xc19bf174cf692694;
   0xe49b69c19ef14ad2; 0xefbe4786384f25e3; 0x0fc19dc68b8cd5b5; 0x240ca1cc77ac9c65;
   0x2de92c6f592b0275; 0x4a7484aa6ea6e483; 0x5cb0a9dcbd41fbd4; 0x76f988da831153b5;
   0x983e5152ee66dfab; 0xa831c66d2db43210; 0xb00327c898fb213f; 0xbf597fc7beef0ee4;
   0xc6e00bf33da88fc2; 0xd5a79147930aa725; 0x06ca6351e003826f; 0x142929670a0e6e70;
   0x27b70a8546d22ffc; 0x2e1b21385c26c926; 0x4d2c6dfc5ac42aed; 0x53380d139d95b3df;
   0x650a73548baf63de; 0x766a0abb3c77b2a8; 0x81c2c92e47edaee6; 0x92722c851482353b;
   0xa2bfe8a14cf10364; 0xa81a664bbc423001; 0xc24b8b70d0f89791; 0xc76c51a30654be30;
   0xd192e819d6ef5218; 0xd69906245565a910; 0xf40e35855771202a; 0x106aa07032bbd1b8;
   0x19a4c116b8d2d0c8; 0x1e376c085141ab53; 0x2748774cdf8eeb99; 0x34b0bcb5e19b48a8;
   0x391c0cb3c5c95a63; 0x4ed8aa4ae3418acb; 0x5b9cca4f7763e373; 0x682e6ff3d6b2b8a3;
   0x748f82ee5defb2fc; 0x78a5636f43172f60; 0x84c87814a1f0ab72; 0x8cc702081a6439ec;
   0x90befffa23631e28; 0xa4506cebde82bde9; 0xbef9a3f7b2c67915; 0xc67178f2e372532b;
   0xca273eceea26619c; 0xd186b8c721c0c207; 0xeada7dd6cde0eb1e; 0xf57d4f7fee6ed178;
   0x06f067aa72176fba; 0x0a637dc5a2c898a6; 0x113f9804bef90dae; 0x1b710b35131c471b;
   0x28db77f523047d84; 0x32caab7b40c72493; 0x3c9ebe0a15c9bebc; 0x431d67c49c100d4c;
   0x4cc5d4becb3e42b6; 0x597f299cfc657e2a; 0x5fcb6fab3ad6faec; 0x6c44198c4a475817].

(** The eight working variables a..h, also the chaining value. *)
Record state := mkState {
  va : Z; vb : Z; vc : Z; vd : Z; ve : Z; vf : Z; vg : Z; vh : Z }.

(** The initial hash value: the first 64 bits of the fractional parts of
    the square roots of the first eight primes. *)
Definition H0 : state :=
  mkState 0x6a09e667f3bcc908 0xbb67ae8584caa73b 0x3c6ef372fe94f82b 0xa54ff53a5f1d36f1
          0x510e527fade682d1 0x9b05688c2b3e6c1f 0x1f83d9abfb41bd6b 0x5be0cd19137e2179.

(** Big-endian bytes of a number, [n] of them. *)
Fixpoint be_bytes (n : nat) (z : Z) : list Z :=
  match n with
  | O => []
  | S n' => (Z.shiftr z (8 * Z.of_nat n')) mod 256 :: be_bytes n' z
  end.

Definition be_word (bs : list Z) : Z :=
  fold_left (fun acc b => acc * 256 + b) bs 0.

(** Padding: the bit 1, zeros up to 112 modulo 128 bytes, and the length
    of the message in bits on 128 bits. *)
Definition pad (msg : list Z) : list Z :=
  let len := Z.of_nat (length msg) in
  msg ++ [0x80] ++ repeat 0 (Z.to_nat ((111 - len) mod 128))
      ++ be_bytes 16 (8 * len).

(** Consecutive pieces of [size] elements; [fuel] bounds their number. *)
Fixpoint chunks {A} (fuel size : nat) (l : list A) : list (list A) :=
  match fuel, l with
  | O, _ => []
  | _, [] => []
  | S fuel', _ => firstn size l :: chunks fuel' size (skipn size l)
  end.

(** The message schedule, by a window on the last sixteen words. *)
Fixpoint schedule (n : nat) (w : list Z) : list Z :=
  match n with
  | O => []
  | S n' =>
      let wt := add64 (add64 (sigma1 (nth 14 w 0)) (nth 9 w 0))
                      (add64 (sigma0 (nth 1 w 0)) (nth 0 w 0)) in
      nth 0 w 0 :: schedule n' (tl w ++ [wt])
  end.

Definition round (s : state) (kw : Z * Z) : state :=
  let (k, w) := kw in
  let T1 := add64 (add64 (add64 (vh s) (Sigma1 (ve s)))
                         (add64 (Ch (ve s) (vf s) (vg s)) k)) w in
  let T2 := add64 (Sigma0 (va s)) (Maj (va s) (vb s) (vc s)) in
  mkState (add64 T1 T2) (va s) (vb s) (vc s) (add64 (vd s) T1) (ve s) (vf s) (vg s).

Definition compress (h : state) (block : list Z) : state :=
  let w := schedule 80 (map be_word (chunks 16 8 block)) in
  let s := fold_left round (combine K w) h in
  mkState (add64 (va h) (va s)) (add64 (vb h) (vb s)) (add64 (vc h) (vc s))
          (add64 (vd h) (vd s)) (add64 (ve h) (ve s)) (add64 (vf h) (vf s))
          (add64 (vg h) (vg s)) (add64 (vh h) (vh s)).

Definition digest (h : state) : Uint8Array :=
  map byte_of_Z
    (be_bytes 8 (va h) ++ be_bytes 8 (vb h) ++ be_bytes 8 (vc h) ++ be_bytes 8 (vd h)
     ++ be_bytes 8 (ve h) ++ be_bytes 8 (vf h) ++ be_bytes 8 (vg h) ++ be_bytes 8 (vh h)).

(** Modelled from the spec: [sha512(data)] of the crypto package, "a
    cryptographic hash (SHA-512) producing a fixed 64-byte digest". *)
Definition sha512 (data : Uint8Array) : Uint8Array :=
  let padded := pad (map Z_of_byte data) in
  digest (fold_left compress (chunks (length padded) 128 padded) H0).

End Sha512.

(** ** base64, the [toBase64] and [fromBase64] of the encoding package

    The package is imported by the helpers and is not among their
    sources; the codec is the one of RFC 4648 with padding. *)

Module Base64.

Definition alphabet : jsstring :=
  js "ABCDEFGHIJKLMNOPQRSTUVWXYZabcdefghijklmnopqrstuvwxyz0123456789+/".

Definition pad_unit : N := 61%N.

Definition charAt (v : Z) : N := nth (Z.to_nat v) alphabet 0%N.

Fixpoint index_of (c : N) (l : jsstring) (i : Z) : option Z :=
  match l with
  | [] => None
  | x :: l' => if (x =? c)%N then Some i else index_of c l' (i + 1)
  end.

(** The value of a digit of the alphabet; the pad and foreign code units
    count for nothing. *)
Definition lookup (c : N) : Z :=
  match index_of c alphabet 0 with
  | Some v => v
  | None => 0
  end.

Fixpoint encode (data : list Z) : jsstring :=
  match data with
  | [] => []
  | [a] =>
      [charAt (Z.shiftr a 2); charAt (Z.land (Z.shiftl a 4) 63); pad_unit; pad_unit]
  | [a; b] =>
      let tmp := Z.shiftl a 8 + b in
      [charAt (Z.shiftr tmp 10); charAt (Z.land (Z.shiftr tmp 4) 63);
       charAt (Z.land (Z.shiftl tmp 2) 63); pad_unit]
  | a :: b :: c :: rest =>
      let tmp := Z.shiftl a 16 + Z.shiftl b 8 + c in
      charAt (Z.land (Z.shiftr tmp 18) 63) :: charAt (Z.land (Z.shiftr tmp 12) 63)
        :: charAt (Z.land (Z.shiftr tmp 6) 63) :: charAt (Z.land tmp 63)
        :: encode rest
  end.

(** Modelled from the spec: [toBase64(data)] of the encoding package,
    the "base64 encode" primitive. *)
Definition toBase64 (data : Uint8Array) : jsstring :=
  encode (map Z_of_byte data).

Definition is_digit (c : N) : bool :=
  match index_of c alphabet 0 with
  | Some _ => true
  | None => false
  end.

(** The format [/^[a-zA-Z0-9+/]*={0,2}$/]. *)
Fixpoint well_formed (s : jsstring) : bool :=
  match s with
  | [] => true
  | [c] => is_digit c || (c =? pad_unit)%N
  | [c; d] =>
      (is_digit c && (is_digit d || (d =? pad_unit)%N))
      || ((c =? pad_unit)%N && (d =? pad_unit)%N)
  | c :: s' => is_digit c && well_formed s'
  end.

Fixpoint decode (s : jsstring) : list Z :=
  match s with
  | a :: b :: c :: d :: rest =>
      if (c =? pad_unit)%N then
        let tmp := Z.lor (Z.shiftl (lookup a) 2) (Z.shiftr (lookup b) 4) in
        [Z.land tmp 255]
      else if (d =? pad_unit)%N then
        let tmp := Z.lor (Z.lor (Z.shiftl (lookup a) 10) (Z.shiftl (lookup b) 4))
                         (Z.shiftr (lookup c) 2) in
        [Z.land (Z.shiftr tmp 8) 255; Z.land tmp 255]
      else
        let tmp := Z.lor (Z.lor (Z.shiftl (lookup a) 18) (Z.shiftl (lookup b) 12))
                         (Z.lor (Z.shiftl (lookup c) 6) (lookup d)) in
        Z.land (Z.shiftr tmp 16) 255 :: Z.land (Z.shiftr tmp 8) 255
          :: Z.land tmp 255 :: decode rest
  | _ => []
  end.

(** Modelled from the spec: [fromBase64(base64String)] of the encoding
    package, the "base64 decode" primitive; text of another format or
    length is refused. *)
Definition fromBase64 (base64String : jsstring) : outcome Uint8Array :=
  if negb (well_formed base64String) then
    Throw (Error (js "Invalid base64 string format"))
  else if negb (Z.of_nat (length base64String) mod 4 =? 0) then
    Throw (Error (js "Invalid string. Length must be a multiple of 4"))
  else
    Return (map byte_of_Z (decode base64String)).

End Base64.

(** ** bech32, the [Bech32] class of the encoding package

    The package is imported by the helpers and is not among their
    sources; the codec follows BIP-173 the way the bech32 library the
    package wraps computes it. *)

Module Bech32.

Definition ALPHABET : jsstring := js "qpzry9x8gf2tvdw0s3jn54khce6mua7l".

Definition charAt (v : Z) : N := nth (Z.to_nat v) ALPHABET 0%N.

Fixpoint ALPHABET_MAP_from (c : N) (l : jsstring) (i : Z) : option Z :=
  match l with
  | [] => None
  | x :: l' => if (x =? c)%N then Some i else ALPHABET_MAP_from c l' (i + 1)
  end.

Definition ALPHABET_MAP (c : N) : option Z := ALPHABET_MAP_from c ALPHABET 0.

Definition polymodStep (pre : Z) : Z :=
  let b := Z.shiftr pre 25 in
  Z.lxor (Z.lxor (Z.lxor (Z.lxor (Z.lxor
    (Z.shiftl (Z.land pre 0x1FFFFFF) 5)
    (Z.land (- Z.land (Z.shiftr b 0) 1) 0x3b6a57b2))
    (Z.land (- Z.land (Z.shiftr b 1) 1) 0x26508e6d))
    (Z.land (- Z.land (Z.shiftr b 2) 1) 0x1ea119fa))
    (Z.land (- Z.land (Z.shiftr b 3) 1) 0x3d4233dd))
    (Z.land (- Z.land (Z.shiftr b 4) 1) 0x2a1462b3).

(** The first loop of [prefixChk]; [inl] is the message of a refusal. *)
Fixpoint prefixChk_high (prefix rest : jsstring) (chk : Z) : jsstring + Z :=
  match rest with
  | [] => inr chk
  | c :: rest' =>
      if ((c <? 33) || (126 <? c))%N then
        inl (js "Invalid prefix (" ++ prefix ++ js ")")
      else
        prefixChk_high prefix rest' (Z.lxor (polymodStep chk) (Z.shiftr (Z.of_N c) 5))
  end.

Definition prefixChk (prefix : jsstring) : jsstring + Z :=
  match prefixChk_high prefix prefix 1 with
  | inl msg => inl msg
  | inr chk =>
      inr (fold_left
             (fun chk v => Z.lxor (polymodStep chk) (Z.land (Z.of_N v) 0x1f))
             prefix (polymodStep chk))
  end.

(** The loop of [encode] over the words: the checksum state and the
    text so far. *)
Fixpoint encode_words (words : list Z) (chk : Z) (result : jsstring)
  : outcome (Z * jsstring) :=
  match words with
  | [] => Return (chk, result)
  | x :: words' =>
      if negb (Z.shiftr x 5 =? 0) then Throw (Error (js "Non 5-bit word"))
      else encode_words words' (Z.lxor (polymodStep chk) x) (result ++ [charAt x])
  end.

Definition checksum_units (chk : Z) : jsstring :=
  map (fun i => charAt (Z.land (Z.shiftr chk ((5 - i) * 5)) 0x1f)) [0; 1; 2; 3; 4; 5].

Definition LIMIT : Z := 90.

(** [bech32.encode(prefix, words)]; the prefix is [None] when the value
    passed is [undefined]. *)
Definition encode (prefix : option jsstring) (words : list Z) : outcome jsstring :=
  match prefix with
  | None =>
      Throw (TypeError (js "Cannot read properties of undefined (reading 'length')"))
  | Some prefix =>
      if LIMIT <? Z.of_nat (length prefix) + 7 + Z.of_nat (length words) then
        Throw (TypeError (js "Exceeds length limit"))
      else
        let prefix := toLowerCase prefix in
        match prefixChk prefix with
        | inl msg => Throw (Error msg)
        | inr chk =>
            r <- encode_words words chk (prefix ++ js "1") ;;
            let chk := Nat.iter 6 polymodStep (fst r) in
            let chk := Z.lxor chk 1 in
            Return (snd r ++ checksum_units chk)
        end
  end.

(** The loop of [decode] over the data part. *)
Fixpoint decode_words (wordChars : jsstring) (chk : Z) (words : list Z)
  : jsstring + (Z * list Z) :=
  match wordChars with
  | [] => inr (chk, words)
  | c :: rest =>
      match ALPHABET_MAP c with
      | None => inl (js "Unknown character " ++ [c])
      | Some v =>
          let chk := Z.lxor (polymodStep chk) v in
          (* not in the checksum? *)
          if 6 <=? Z.of_nat (length rest) then decode_words rest chk (words ++ [v])
          else decode_words rest chk words
      end
  end.

Fixpoint lastIndexOf (c : N) (s : jsstring) (i : Z) (found : Z) : Z :=
  match s with
  | [] => found
  | x :: s' => lastIndexOf c s' (i + 1) (if (x =? c)%N then i else found)
  end.

(** [bech32.decode(str, Infinity)]: no limit on the length. *)
Definition decode (str : jsstring) : outcome (jsstring * list Z) :=
  if Z.of_nat (length str) <? 8 then Throw (Error (str ++ js " too short"))
  else
    (* don't allow mixed case *)
    let lowered := toLowerCase str in
    let uppered := toUpperCase str in
    if negb (jsstring_eqb str lowered) && negb (jsstring_eqb str uppered) then
      Throw (Error (js "Mixed-case string " ++ str))
    else
      let str := lowered in
      let split := lastIndexOf 49%N str 0 (-1) in
      if split =? -1 then Throw (Error (js "No separator character for " ++ str))
      else if split =? 0 then Throw (Error (js "Missing prefix for " ++ str))
      else
        let prefix := slice str 0 (Some split) in
        let wordChars := slice str (split + 1) None in
        if Z.of_nat (length wordChars) <? 6 then Throw (Error (js "Data too short"))
        else
          match prefixChk prefix with
          | inl msg => Throw (Error msg)
          | inr chk =>
              match decode_words wordChars chk [] with
              | inl msg => Throw (Error msg)
              | inr (chk, words) =>
                  if negb (chk =? 1) then
                    Throw (Error (js "Invalid checksum for " ++ str))
                  else Return (prefix, words)
              end
          end.

(** Numbers of the bit operators: 32 bits, signed. *)
Definition int32 (z : Z) : Z := (z + 2 ^ 31) mod 2 ^ 32 - 2 ^ 31.

(** The inner loop of [convert]: words are taken out while enough bits
    are held. *)
Fixpoint drain (fuel : nat) (outBits maxV value bits : Z) (result : list Z)
  : Z * list Z :=
  match fuel with
  | O => (bits, result)
  | S fuel' =>
      if outBits <=? bits then
        let bits := bits - outBits in
        drain fuel' outBits maxV value bits
              (result ++ [Z.land (Z.shiftr value bits) maxV])
      else (bits, result)
  end.

Fixpoint convert_loop (data : list Z) (inBits outBits maxV value bits : Z)
  (result : list Z) : Z * Z * list Z :=
  match data with
  | [] => (value, bits, result)
  | d :: data' =>
      let value := int32 (Z.lor (int32 (Z.shiftl value inBits)) d) in
      let bits := bits + inBits in
      let (bits, result) := drain (Z.to_nat bits) outBits maxV value bits result in
      convert_loop data' inBits outBits maxV value bits result
  end.

Definition convert (data : list Z) (inBits outBits : Z) (pad : bool)
  : jsstring + list Z :=
  let maxV := Z.shiftl 1 outBits - 1 in
  let '(value, bits, result) := convert_loop data inBits outBits maxV 0 0 [] in
  if pad then
    if 0 <? bits then
      inr (result ++ [Z.land (int32 (Z.shiftl value (outBits - bits))) maxV])
    else inr result
  else
    if inBits <=? bits then inl (js "Excess padding")
    else if negb (Z.land (int32 (Z.shiftl value (outBits - bits))) maxV =? 0) then
      inl (js "Non-zero padding")
    else inr result.

Definition toWords (bytes : list Z) : list Z :=
  match convert bytes 8 5 true with
  | inr words => words
  | inl _ => []
  end.

Definition fromWords (words : list Z) : outcome (list Z) :=
  match convert words 5 8 false with
  | inr bytes => Return bytes
  | inl msg => Throw (Error msg)
  end.

(** Modelled from the spec: [Bech32.encode(prefix, data)] of the encoding
    package, the "bech32 encode" primitive, which accepts a prefix and
    bytes. *)
Definition Bech32_encode (prefix : option jsstring) (data : Uint8Array)
  : outcome jsstring :=
  encode prefix (toWords (map Z_of_byte data)).

(** Modelled from the spec: [Bech32.decode(address)] of the encoding
    package, the "bech32 decode" primitive, which "returns {prefix, data:
    bytes}" and "raises a decodable error on malformed input". *)
Definition Bech32_decode (address : jsstring) : outcome (jsstring * Uint8Array) :=
  decodedAddress <- decode address ;;
  bytes <- fromWords (snd decodedAddress) ;;
  Return (fst decodedAddress, map byte_of_Z bytes).

End Bech32.

(** ** Fixed-point decimals, the [Decimal] class of the math package

    The package is imported by the helpers and is not among their
    sources. *)

Module DecimalMath.

(** Too large values lead to massive memory usage. *)
Definition maxFractionalDigits : Z := 100.

(** A non-negative decimal: its atomic units and the number of
    fractional digits. *)
Record Decimal := mkDecimal { atomics : Z; fractionalDigits : Z }.

Definition verifyFractionalDigits (fractionalDigits : number) : outcome Z :=
  match fractionalDigits with
  | NaN => Throw (Error (js "Fractional digits is not an integer"))
  | Int z =>
      if z <? 0 then Throw (Error (js "Fractional digits must not be negative"))
      else if maxFractionalDigits <? z then
        Throw (Error (js "Fractional digits must not exceed 100"))
      else Return z
  end.

Definition is_decimal_digit (c : N) : bool := ((48 <=? c) && (c <=? 57))%N.

(** The format [/^[0-9]+$/] of a non-negative integer numeral. *)
Definition is_numeral (s : jsstring) : bool :=
  match s with
  | [] => false
  | _ => forallb is_decimal_digit s
  end.

Definition numeral_value (s : jsstring) : Z :=
  fold_left (fun acc c => 10 * acc + (Z.of_N c - 48)) s 0.

(** Modelled from the spec: [Decimal.fromAtomics(atomics,
    fractionalDigits)] of the math package, "a fixed-point decimal
    parser" with "an explicit exponent" that throws when the amount "is
    not a valid non-negative integer numeral"; the class first checks
    the number of fractional digits, an integer from 0 to 100. *)
Definition fromAtomics (atomics : jsstring) (fractionalDigits : number)
  : outcome Decimal :=
  digits <- verifyFractionalDigits fractionalDigits ;;
  if negb (is_numeral atomics) then
    Throw (Error (js
      "Invalid string format. Only non-negative integers in decimal representation supported."))
  else Return (mkDecimal (numeral_value atomics) digits).

Fixpoint uint_units (u : Decimal.uint) : jsstring :=
  match u with
  | Decimal.Nil => []
  | Decimal.D0 u => 48%N :: uint_units u
  | Decimal.D1 u => 49%N :: uint_units u
  | Decimal.D2 u => 50%N :: uint_units u
  | Decimal.D3 u => 51%N :: uint_units u
  | Decimal.D4 u => 52%N :: uint_units u
  | Decimal.D5 u => 53%N :: uint_units u
  | Decimal.D6 u => 54%N :: uint_units u
  | Decimal.D7 u => 55%N :: uint_units u
  | Decimal.D8 u => 56%N :: uint_units u
  | Decimal.D9 u => 57%N :: uint_units u
  end.

(** The decimal numeral of a non-negative integer. *)
Definition integer_toString (z : Z) : jsstring := uint_units (N.to_uint (Z.to_N z)).

Definition padStart (s : jsstring) (targetLength : Z) (c : N) : jsstring :=
  repeat c (Z.to_nat (targetLength - Z.of_nat (length s))) ++ s.

Fixpoint drop_leading (c : N) (s : jsstring) : jsstring :=
  match s with
  | [] => []
  | x :: s' => if (x =? c)%N then drop_leading c s' else s
  end.

(** [s.replace(/0+$/, "")] *)
Definition trim_trailing_zeros (s : jsstring) : jsstring :=
  rev (drop_leading 48%N (rev s)).

(** Modelled from the spec: [Decimal.prototype.toString] of the math
    package, the "canonical trimmed-zero string output": the whole part,
    and after a point the fractional part without its trailing zeros
    when it is not zero. *)
Definition toString (d : Decimal) : jsstring :=
  let factor := 10 ^ fractionalDigits d in
  let whole := atomics d / factor in
  let fractional := atomics d mod factor in
  if fractional =? 0 then integer_toString whole
  else
    let fullFractionalPart :=
      padStart (integer_toString fractional) (fractionalDigits d) 48%N in
    let trimmedFractionalPart := trim_trailing_zeros fullFractionalPart in
    integer_toString whole ++ js "." ++ trimmedFractionalPart.

End DecimalMath.

(** ** The configuration read from [process.env] *)

Record Env := mkEnv {
  NEXT_PUBLIC_DENOM : option jsstring;
  NEXT_PUBLIC_DISPLAY_DENOM : option jsstring;
  (** the value of [Number(process.env.NEXT_PUBLIC_DISPLAY_DENOM_EXPONENT)] *)
  NEXT_PUBLIC_DISPLAY_DENOM_EXPONENT : number;
  NEXT_PUBLIC_ADDRESS_PREFIX : option jsstring;
  NEXT_PUBLIC_EXPLORER_LINK_TX : option jsstring }.

(** A [Coin], e.g. [{"amount": "1234", "denom": "uatom"}]. *)
Record Coin := mkCoin { amount : field; denom : field }.

(** The [index] argument of the example generators. *)
Inductive argument :=
| ArgUndefined
| ArgNull
| ArgNumber (n : number).

Definition argument_truthy (index : argument) : bool :=
  match index with
  | ArgNumber (Int z) => negb (z =? 0)
  | _ => false
  end.

(** The number an argument converts to: [undefined] is [NaN] and [null]
    is 0. *)
Definition to_number (index : argument) : number :=
  match index with
  | ArgUndefined => NaN
  | ArgNull => Int 0
  | ArgNumber n => n
  end.

(** [index || 0] *)
Definition or_zero (index : argument) : number :=
  if argument_truthy index then to_number index else Int 0.

(** [index % m], read as a condition: the remainder takes the sign of
    the dividend, and neither 0 nor [NaN] counts as true. *)
Definition remainder_truthy (index : argument) (m : Z) : bool :=
  match to_number index with
  | Int z => negb (Z.rem z m =? 0)
  | NaN => false
  end.

(** How often the body of [for (let i = 0; i < usedIndex; ++i)] runs. *)
Definition iterations (usedIndex : number) : nat :=
  match usedIndex with
  | Int z => Z.to_nat z
  | NaN => 0%nat
  end.

(** [for (...) { data = body(data) }], the body run [count] times. *)
Fixpoint for_loop {A} (count : nat) (body : A -> A) (data : A) : A :=
  match count with
  | O => data
  | S count' => for_loop count' body (body data)
  end.

(** [data[0] = v] on a [Uint8Array]; an empty array has no cell 0. *)
Definition set_first (data : Uint8Array) (v : byte) : Uint8Array :=
  match data with
  | [] => []
  | _ :: rest => v :: rest
  end.

(** ** The helpers *)

Section Utils.

Variable env : Env.

(** Abbreviates long strings, typically used for addresses and
    transaction hashes. *)
Definition abbreviateLongString (longString : jsstring) : jsstring :=
  if Z.of_nat (length longString) <? 13 then
    (* no need to abbreviate *)
    longString
  else
    slice longString 0 (Some 5) ++ js "..." ++ slice longString (-5) None.

(** NARROW NO-BREAK SPACE (U+202F) *)
Definition thinSpace : jsstring := [0x202F%N].

(** EN DASH (U+2013), shown for a missing coin. *)
Definition dash : jsstring := [0x2013%N].

(** Takes a [Coin] and converts it into a user-readable string; [None]
    is a coin that is [null] or [undefined]. *)
Definition printableCoin (coin : option Coin) : outcome jsstring :=
  match coin with
  | None => Return dash
  | Some coin =>
      (* The display denom from configuration *)
      if strict_eq (denom coin) (of_env (NEXT_PUBLIC_DENOM env)) then
        let exponent := NEXT_PUBLIC_DISPLAY_DENOM_EXPONENT env in
        d <- DecimalMath.fromAtomics (nullish (amount coin) (js "0")) exponent ;;
        let value := DecimalMath.toString d in
        let ticker := of_env (NEXT_PUBLIC_DISPLAY_DENOM env) in
        Return (value ++ thinSpace ++ to_string ticker)
      else if optional_startsWith (denom coin) (js "u") then
        (* Auto-convert leading "u"s *)
        d <- DecimalMath.fromAtomics (nullish (amount coin) (js "0")) (Int 6) ;;
        let value := DecimalMath.toString d in
        let ticker := toUpperCase (slice (to_string (denom coin)) 1 None) in
        Return (value ++ thinSpace ++ ticker)
      else
        (* Fallback to plain coin display *)
        Return (to_string (amount coin) ++ thinSpace ++ to_string (denom coin))
  end.

Definition printableCoins (coins : list (option Coin)) : outcome jsstring :=
  if negb (Z.of_nat (length coins) =? 1) then
    Throw (Error (js "Implementation only supports exactly one coin entry."))
  else printableCoin (nth 0 coins None).

(** Generates an example address for the configured blockchain. *)
Definition exampleAddress (index : argument) : outcome jsstring :=
  let usedIndex := or_zero index in
  decoded <- Bech32.Bech32_decode (js "cosmos1vqpjljwsynsn58dugz0w8ut7kun7t8ls2qkmsq") ;;
  let data := snd decoded in
  let data :=
    for_loop (iterations usedIndex)
      (fun data =>
         (* hash one time and trim to original length *)
         slice (Sha512.sha512 data) 0 (Some (Z.of_nat (length data))))
      data in
  Bech32.Bech32_encode (NEXT_PUBLIC_ADDRESS_PREFIX env) data.

(** Generates an example pubkey (secp256k1, compressed). *)
Definition examplePubkey (index : argument) : outcome jsstring :=
  let usedIndex := or_zero index in
  data <- Base64.fromBase64 (js "Akd/qKMWdZXyiMnSu6aFLpQEGDO0ijyal9mXUIcVaPNX") ;;
  let data :=
    for_loop (iterations usedIndex)
      (fun data =>
         (* hash one time and trim to original length *)
         let data := slice (Sha512.sha512 data) 0 (Some (Z.of_nat (length data))) in
         (* pubkeys have to start with 0x02 or 0x03 *)
         set_first data (if remainder_truthy index 2 then Byte.x02 else Byte.x03))
      data in
  Return (Base64.toBase64 data).

(** Returns an error message for invalid addresses; [None] is [null],
    there is no error. *)
Definition checkAddress (input : field) : outcome (option jsstring) :=
  match input with
  | Str ((_ :: _) as address) =>
      (* try { ... } catch (error) { return error.toString(); } *)
      match Bech32.Bech32_decode address with
      | Throw error => Return (Some (error_toString error))
      | Return (prefix, data) =>
          if negb (strict_eq (Str prefix) (of_env (NEXT_PUBLIC_ADDRESS_PREFIX env))) then
            Return (Some (js "Expected address prefix '"
                            ++ to_string (of_env (NEXT_PUBLIC_ADDRESS_PREFIX env))
                            ++ js "' but got '" ++ prefix ++ js "'"))
          else if negb (Z.of_nat (length data) =? 20) then
            Return (Some (js "Invalid address length in bech32 data. Must be 20 bytes."))
          else Return None
      end
  | _ =>
      (* !input: undefined, null and the empty string *)
      Return (Some (js "Empty"))
  end.

(** Returns a link to a transaction in an explorer if an explorer is
    configured for transactions, [None] for [null] otherwise. *)
Definition explorerLinkTx (hash : jsstring) : option jsstring :=
  match NEXT_PUBLIC_EXPLORER_LINK_TX env with
  | Some ((_ :: _) as template) => Some (replace template (js "%s") hash)
  | _ =>
      (* the variable is not set, or is the empty string *)
      None
  end.

End Utils.

(** ** Notions used in the statements *)

(** The numbers of fractional digits the decimal class takes: the
    integers from 0 to 100. *)
Definition accepted_exponent (n : number) : Prop :=
  exists e, n = Int e /\ 0 <= e <= 100.

(** Configurations for the examples: a Cosmos Hub set-up, one whose
    native denom is shown in thousands under a ticker of its own, one
    that leaves the display exponent unset, and one with nothing set. *)
Definition cosmos_env : Env :=
  mkEnv (Some (js "uatom")) (Some (js "ATOM")) (Int 6) (Some (js "cosmos"))
        (Some (js "https://www.mintscan.io/cosmos/txs/%s")).

Definition milli_env : Env :=
  mkEnv (Some (js "uatom")) (Some (js "Atom")) (Int 3) (Some (js "cosmos")) None.

Definition no_exponent_env : Env :=
  mkEnv (Some (js "uatom")) (Some (js "ATOM")) NaN (Some (js "cosmos")) None.

Definition empty_env : Env := mkEnv None None NaN None None.

(** A replacement text holds a pattern of [replace] when a dollar sign
    in it is followed by "$", "&", "`" or "'". *)
Fixpoint replacement_pattern (s : jsstring) : bool :=
  match s with
  | c :: ((d :: _) as r) =>
      ((c =? 36) && ((d =? 36) || (d =? 38) || (d =? 96) || (d =? 39)))%N
      || replacement_pattern r
  | _ => false
  end.

(** The strings of ASCII, and the code units that are no capital letter
    of ASCII. *)
Definition is_ascii (s : jsstring) : Prop := Forall (fun c => (c < 128)%N) s.

Definition no_capital (c : N) : Prop := ~ (65 <= c <= 90)%N.

(** [pat] occurs in [s]; it occurs there for the first time between
    [before] and [after]. *)
Definition occurs (pat s : jsstring) : Prop :=
  exists before after, s = before ++ pat ++ after.

Definition occurs_first (pat s before after : jsstring) : Prop :=
  s = before ++ pat ++ after
  /\ forall b a, s = b ++ pat ++ a -> (length before <= length b)%nat.

(** The prefixes [Bech32.encode] takes with 20 bytes of data: printable
    ASCII, and short enough for the whole address to stay within 90
    code units. *)
Definition valid_prefix (prefix : jsstring) : Prop :=
  (length prefix <= 51)%nat /\ Forall (fun c => (33 <= c <= 126)%N) prefix.

(** The configuration with the native denom left unset. *)
Definition without_native_denom (env : Env) : Env :=
  mkEnv None (NEXT_PUBLIC_DISPLAY_DENOM env) (NEXT_PUBLIC_DISPLAY_DENOM_EXPONENT env)
        (NEXT_PUBLIC_ADDRESS_PREFIX env) (NEXT_PUBLIC_EXPLORER_LINK_TX env).

(** A configuration that names the micro denom "uxyz" as native, with
    the exponent and the ticker the micro rule would use. *)
Definition xyz_env : Env :=
  mkEnv (Some (js "uxyz")) (Some (js "XYZ")) (Int 6) (Some (js "xyz")) None.

(** A configuration whose address prefix holds an upper-case letter. *)
Definition capital_env : Env :=
  mkEnv (Some (js "uatom")) (Some (js "ATOM")) (Int 6) (Some (js "Cosmos")) None.

(** The body of the loop of [examplePubkey]. *)
Definition pubkey_body (index : argument) (data : Uint8Array) : Uint8Array :=
  let data := slice (Sha512.sha512 data) 0 (Some (Z.of_nat (length data))) in
  set_first data (if remainder_truthy index 2 then Byte.x02 else Byte.x03).

(** The accumulator of [convert] after one more datum of [inBits] bits. *)
Definition shift_in (inBits value d : Z) : Z :=
  Bech32.int32 (Z.lor (Bech32.int32 (Z.shiftl value inBits)) d).

(** The eight words of five bits that five bytes make, and the five
    bytes that eight words make. *)
Definition words5 (b1 b2 b3 b4 b5 : Z) : list Z :=
  [b1 / 8; (b1 mod 8) * 4 + b2 / 64; (b2 / 2) mod 32;
   (b2 mod 2) * 16 + b3 / 16; (b3 mod 16) * 2 + b4 / 128; (b4 / 4) mod 32;
   (b4 mod 4) * 8 + b5 / 32; b5 mod 32].

Definition bytes8 (w1 w2 w3 w4 w5 w6 w7 w8 : Z) : list Z :=
  [w1 * 8 + w2 / 4; (w2 mod 4) * 64 + w3 * 2 + w4 / 16;
   (w4 mod 16) * 16 + w5 / 2; (w5 mod 2) * 128 + w6 * 4 + w7 / 8;
   (w7 mod 8) * 32 + w8].

(** A configuration whose link template holds no placeholder. *)
Definition plain_link_env : Env :=
  mkEnv None None NaN None (Some (js "https://www.mintscan.io/cosmos/txs")).

(** The first eighty primes, and the test that [k] is the first 64 bits
    of the fractional part of the [n]-th root of [p], for a root whose
    whole part is below 8. *)
Definition primes : list Z :=
  [2; 3; 5; 7; 11; 13; 17; 19; 23; 29; 31; 37; 41; 43; 47; 53; 59; 61; 67; 71;
   73; 79; 83; 89; 97; 101; 103; 107; 109; 113; 127; 131; 137; 139; 149; 151;
   157; 163; 167; 173; 179; 181; 191; 193; 197; 199; 211; 223; 227; 229; 233;
   239; 241; 251; 257; 263; 269; 271; 277; 281; 283; 293; 307; 311; 313; 317;
   331; 337; 347; 349; 353; 359; 367; 373; 379; 383; 389; 397; 401; 409].

Definition root_fraction (n p k : Z) : bool :=
  (0 <=? k) && (k <? 2 ^ 64)
  && existsb (fun whole =>
                let r := whole * 2 ^ 64 + k in
                (r ^ n <=? p * 2 ^ (64 * n)) && (p * 2 ^ (64 * n) <? (r + 1) ^ n))
             [1; 2; 3; 4; 5; 6; 7].

(** The bytes of an ASCII text. *)
Definition ascii_bytes (s : String.string) : Uint8Array :=
  map (fun a => byte_of_Z (Z.of_N (N_of_ascii a))) (String.list_ascii_of_string s).
Arguments ascii_bytes s%_string.

(** The bytes of the hard-coded seeds: the data of the bech32 address
    [exampleAddress] starts from and the compressed key [examplePubkey]
    starts from. *)
Definition address_seed : Uint8Array :=
  [Byte.x60; Byte.x03; Byte.x2f; Byte.xc9; Byte.xd0; Byte.x24; Byte.xe1;
   Byte.x3a; Byte.x1d; Byte.xbc; Byte.x40; Byte.x9e; Byte.xe3; Byte.xf1;
   Byte.x7e; Byte.xb7; Byte.x27; Byte.xe5; Byte.x9f; Byte.xf0].

Definition pubkey_seed : Uint8Array :=
  [Byte.x02; Byte.x47; Byte.x7f; Byte.xa8; Byte.xa3; Byte.x16; Byte.x75;
   Byte.x95; Byte.xf2; Byte.x88; Byte.xc9; Byte.xd2; Byte.xbb; Byte.xa6;
   Byte.x85; Byte.x2e; Byte.x94; Byte.x04; Byte.x18; Byte.x33; Byte.xb4;
   Byte.x8a; Byte.x3c; Byte.x9a; Byte.x97; Byte.xd9; Byte.x97; Byte.x50;
   Byte.x87; Byte.x15; Byte.x68; Byte.xf3; Byte.x57].

(** * Properties *)

(** ** The primitives on known values *)

Example K_cube_roots :
  forallb (fun pk => root_fraction 3 (fst pk) (snd pk)) (combine primes Sha512.K)
  = true
  /\ length Sha512.K = 80%nat.
Proof. split; vm_compute; reflexivity. Qed.

Example H0_square_roots :
  forallb (fun pk => root_fraction 2 (fst pk) (snd pk))
          (combine primes
             [Sha512.va Sha512.H0; Sha512.vb Sha512.H0; Sha512.vc Sha512.H0;
              Sha512.vd Sha512.H0; Sha512.ve Sha512.H0; Sha512.vf Sha512.H0;
              Sha512.vg Sha512.H0; Sha512.vh Sha512.H0])
  = true.
Proof. vm_compute. reflexivity. Qed.

(** The digest of "abc" of FIPS 180-4. *)
Example sha512_abc :
  map Z_of_byte (Sha512.sha512 (ascii_bytes "abc"))
  = [0xdd; 0xaf; 0x35; 0xa1; 0x93; 0x61; 0x7a; 0xba; 0xcc; 0x41; 0x73; 0x49;
     0xae; 0x20; 0x41; 0x31; 0x12; 0xe6; 0xfa; 0x4e; 0x89; 0xa9; 0x7e; 0xa2;
     0x0a; 0x9e; 0xee; 0xe6; 0x4b; 0x55; 0xd3; 0x9a; 0x21; 0x92; 0x99; 0x2a;
     0x27; 0x4f; 0xc1; 0xa8; 0x36; 0xba; 0x3c; 0x23; 0xa3; 0xfe; 0xeb; 0xbd;
     0x45; 0x4d; 0x44; 0x23; 0x64; 0x3c; 0xe8; 0x0e; 0x2a; 0x9a; 0xc9; 0x4f;
     0xa5; 0x4c; 0xa4; 0x9f].
Proof. vm_compute. reflexivity. Qed.

(** The base64 texts of RFC 4648. *)
Example base64_foobar :
  Base64.toBase64 (ascii_bytes "foobar") = js "Zm9vYmFy"
  /\ Base64.toBase64 (ascii_bytes "fooba") = js "Zm9vYmE="
  /\ Base64.toBase64 (ascii_bytes "foob") = js "Zm9vYg=="
  /\ Base64.fromBase64 (js "Zm9vYg==") = Return (ascii_bytes "foob")
  /\ Base64.fromBase64 (js "Zm9vYmE=") = Return (ascii_bytes "fooba").
Proof. repeat split; vm_compute; reflexivity. Qed.

(** Valid and invalid bech32 texts of BIP-173. *)
Example bech32_vectors :
  Bech32.decode (js "A12UEL5L") = Return (js "a", [])
  /\ returns (Bech32.decode (js "bc1qw508d6qejxtdg4y5r3zarvary0c5xw7kv8f3t4"))
  /\ throws (Bech32.decode (js "A12UEL5M"))
  /\ throws (Bech32.decode (js "pzry9x0s0muk"))
  /\ Bech32.Bech32_encode (Some (js "cosmos")) address_seed
     = Return (js "cosmos1vqpjljwsynsn58dugz0w8ut7kun7t8ls2qkmsq").
Proof.
  split; [vm_compute; reflexivity|].
  split; [eexists; vm_compute; reflexivity|].
  split; [eexists; vm_compute; reflexivity|].
  split; [eexists; vm_compute; reflexivity|].
  vm_compute. reflexivity.
Qed.

Example decimal_strings :
  bind (DecimalMath.fromAtomics (js "1234500") (Int 6))
       (fun d => Return (DecimalMath.toString d)) = Return (js "1.2345")
  /\ bind (DecimalMath.fromAtomics (js "1000000") (Int 6))
          (fun d => Return (DecimalMath.toString d)) = Return (js "1")
  /\ bind (DecimalMath.fromAtomics (js "42") (Int 0))
          (fun d => Return (DecimalMath.toString d)) = Return (js "42")
  /\ bind (DecimalMath.fromAtomics (js "7") (Int 3))
          (fun d => Return (DecimalMath.toString d)) = Return (js "0.007").
Proof. repeat split. Qed.

(** The examples of use of the helpers. *)
Example printableCoin_examples :
  printableCoin empty_env None = Return dash
  /\ printableCoin empty_env (Some (mkCoin (Str (js "1000000")) (Str (js "uatom"))))
     = Return (js "1" ++ thinSpace ++ js "ATOM")
  /\ printableCoin empty_env (Some (mkCoin (Str (js "5")) (Str (js "foo"))))
     = Return (js "5" ++ thinSpace ++ js "foo")
  /\ checkAddress empty_env (Str (js "")) = Return (Some (js "Empty")).
Proof. repeat split. Qed.

(** ** Slices *)

Lemma slice_prefix {A} (l : list A) (n : Z) :
  0 <= n <= Z.of_nat (length l) ->
  slice l 0 (Some n) = firstn (Z.to_nat n) l.
Proof.
  intros Hn. unfold slice, relative_index. simpl.
  destruct (n <? 0) eqn:E; [apply Z.ltb_lt in E; lia|].
  rewrite Z.min_l by lia. rewrite Z.min_l by lia.
  now rewrite Z.sub_0_r.
Qed.

Lemma slice_suffix {A} (l : list A) (k : Z) :
  - Z.of_nat (length l) <= k < 0 ->
  slice l k None = skipn (length l - Z.to_nat (- k)) l.
Proof.
  intros Hk. unfold slice, relative_index.
  destruct (k <? 0) eqn:E; [|apply Z.ltb_ge in E; lia].
  rewrite Z.max_l by lia.
  replace (Z.to_nat (Z.of_nat (length l) + k))
    with (length l - Z.to_nat (- k))%nat by lia.
  apply firstn_all2. rewrite length_skipn. lia.
Qed.

(** C7. A string of fewer than 13 code units is returned as it is; a
    longer one becomes its first five code units, the marker "..." and
    its last five code units, 13 code units in all. *)
Theorem abbreviateLongString_spec (s : jsstring) :
  ((length s < 13)%nat -> abbreviateLongString s = s) /\
  ((13 <= length s)%nat ->
     abbreviateLongString s
       = firstn 5 s ++ js "..." ++ skipn (length s - 5) s /\
     length (abbreviateLongString s) = 13%nat).
Proof.
  unfold abbreviateLongString. split; intros H.
  - destruct (Z.of_nat (length s) <? 13) eqn:E; [reflexivity|].
    apply Z.ltb_ge in E. lia.
  - destruct (Z.of_nat (length s) <? 13) eqn:E; [apply Z.ltb_lt in E; lia|].
    rewrite slice_prefix by lia. rewrite (slice_suffix s (-5)) by lia.
    change (Z.to_nat 5) with 5%nat. change (Z.to_nat (- -5)) with 5%nat. split; [reflexivity|].
    rewrite !length_app, length_firstn, length_skipn.
    change (length (js "...")) with 3%nat. lia.
Qed.

Lemma abbreviateLongString_spec_witness :
  abbreviateLongString (js "cosmos1abc") = js "cosmos1abc" /\
  abbreviateLongString (js "cosmos1vqpjljwsynsn58dugz0w8ut7kun7t8ls2qkmsq")
    = js "cosmo...qkmsq".
Proof.
  split.
  - apply (proj1 (abbreviateLongString_spec (js "cosmos1abc"))). simpl. lia.
  - apply (proj1 (proj2 (abbreviateLongString_spec
      (js "cosmos1vqpjljwsynsn58dugz0w8ut7kun7t8ls2qkmsq")) ltac:(simpl; lia))).
Defined.

(** ** Equality tests *)

Lemma jsstring_eqb_eq (a b : jsstring) : jsstring_eqb a b = true <-> a = b.
Proof.
  unfold jsstring_eqb. destruct (list_eq_dec N.eq_dec a b); split; congruence.
Qed.

Lemma strict_eq_eq (a b : field) : strict_eq a b = true <-> a = b.
Proof.
  destruct a, b; simpl; try (split; congruence).
  rewrite jsstring_eqb_eq. split; congruence.
Qed.

Lemma strict_eq_neq (a b : field) : strict_eq a b = false <-> a <> b.
Proof.
  rewrite <- strict_eq_eq. destruct (strict_eq a b); split; congruence.
Qed.

Lemma of_env_inj (a b : option jsstring) : of_env a = of_env b -> a = b.
Proof. destruct a, b; simpl; congruence. Qed.

Lemma slice_from {A} (l : list A) (n : Z) :
  0 <= n -> slice l n None = skipn (Z.to_nat n) l.
Proof.
  intros Hn. unfold slice, relative_index.
  destruct (n <? 0) eqn:E; [apply Z.ltb_lt in E; lia|].
  rewrite firstn_all2 by (rewrite length_skipn; lia).
  destruct (Z.le_gt_cases n (Z.of_nat (length l))) as [H|H].
  - now rewrite Z.min_l by lia.
  - rewrite Z.min_r by lia. rewrite !skipn_all2 by lia. reflexivity.
Qed.

(** ** Case mapping *)

Lemma case_mapping_examples :
  toUpperCase [117; 233]%N = [85; 201]%N
  /\ toUpperCase [223]%N = js "SS"
  /\ toLowerCase [0x212A]%N = js "k"
  /\ toLowerCase [0x391; 0x3A3]%N = [0x3B1; 0x3C2]%N
  /\ toLowerCase [0x391; 0x3A3; 0x391]%N = [0x3B1; 0x3C3; 0x3B1]%N
  /\ toLowerCase [0xD801; 0xDC00]%N = [0xD801; 0xDC28]%N
  /\ toUpperCase (js "atom") = js "ATOM".
Proof. vm_compute. repeat split. Qed.

Lemma code_points_ascii (s : jsstring) : is_ascii s -> code_points s = s.
Proof.
  intros H. induction H as [|c rest Hc Hrest IH]; [reflexivity|].
  cbn [code_points]. rewrite IH. destruct rest as [|d rest']; [reflexivity|].
  assert (E : is_high_surrogate c = false).
  { unfold is_high_surrogate. apply andb_false_iff. left. apply N.leb_gt. lia. }
  now rewrite E.
Qed.

Lemma code_units_small (l : list N) :
  Forall (fun c => (c < 0x10000)%N) l -> flat_map code_units l = l.
Proof.
  intros H. induction H as [|c l Hc _ IH]; [reflexivity|].
  cbn [flat_map]. rewrite IH. unfold code_units.
  apply N.ltb_lt in Hc. now rewrite Hc.
Qed.

Lemma upper_unit_ascii (c : N) : (c < 128)%N -> (upper_unit c < 128)%N.
Proof.
  intros H. unfold upper_unit.
  destruct ((97 <=? c) && (c <=? 122))%N eqn:E; [|exact H]. lia.
Qed.

Lemma lower_unit_ascii (c : N) : (c < 128)%N -> (lower_unit c < 128)%N.
Proof.
  intros H. unfold lower_unit.
  destruct ((65 <=? c) && (c <=? 90))%N eqn:E; [|exact H].
  apply andb_true_iff in E. destruct E as [_ E]. apply N.leb_le in E. lia.
Qed.

(** On a string of ASCII the case mappings are those of its letters. *)
Lemma toUpperCase_ascii (s : jsstring) :
  is_ascii s -> toUpperCase s = map upper_unit s.
Proof.
  intros H. unfold toUpperCase. rewrite (code_points_ascii s H).
  assert (E : flat_map upper_code_point s = map upper_unit s).
  { induction H as [|c s Hc _ IH]; [reflexivity|].
    cbn [flat_map map]. rewrite IH. unfold upper_code_point.
    apply N.ltb_lt in Hc. now rewrite Hc. }
  rewrite E. apply code_units_small, Forall_map.
  eapply Forall_impl; [|exact H]. intros c Hc. cbv beta.
  pose proof (upper_unit_ascii c Hc). lia.
Qed.

Lemma lower_points_ascii (s : jsstring) (before : list N) :
  is_ascii s -> lower_points before s = map lower_unit s.
Proof.
  intros H. revert before. induction H as [|c s Hc _ IH]; intros before;
    [reflexivity|].
  cbn [lower_points map]. rewrite IH.
  destruct (c =? 0x3A3)%N eqn:E; [apply N.eqb_eq in E; lia|].
  unfold lower_code_point. apply N.ltb_lt in Hc. now rewrite Hc.
Qed.

Lemma toLowerCase_ascii (s : jsstring) :
  is_ascii s -> toLowerCase s = map lower_unit s.
Proof.
  intros H. unfold toLowerCase.
  rewrite (code_points_ascii s H), (lower_points_ascii s [] H).
  apply code_units_small, Forall_map.
  eapply Forall_impl; [|exact H]. intros c Hc. cbv beta.
  pose proof (lower_unit_ascii c Hc). lia.
Qed.

Lemma code_units_no_capital (cp : N) :
  no_capital cp -> Forall no_capital (code_units cp).
Proof.
  intros H. unfold code_units. destruct (cp <? 0x10000)%N.
  - now constructor.
  - constructor; [|constructor; [|constructor]]; unfold no_capital.
    + generalize ((cp - 65536) / 1024)%N. intros q. lia.
    + generalize ((cp - 65536) mod 1024)%N. intros q. lia.
Qed.

Lemma mapped_lower_no_capital (cp : N) :
  (128 <= cp)%N -> no_capital (mapped lower_runs cp).
Proof.
  intros Hcp. unfold mapped.
  destruct (find (in_run cp) lower_runs) as [r|] eqn:F; [|unfold no_capital; lia].
  apply find_some in F. destruct F as [Hin Hr].
  assert (All : forallb (fun r => (90 <? image r)%N) lower_runs = true)
    by (vm_compute; reflexivity).
  rewrite forallb_forall in All. apply All, N.ltb_lt in Hin.
  unfold no_capital. lia.
Qed.

Lemma lower_code_point_no_capital (cp : N) :
  Forall no_capital (flat_map code_units (lower_code_point cp)).
Proof.
  unfold lower_code_point. destruct (cp <? 128)%N eqn:E.
  - cbn [flat_map]. rewrite app_nil_r. apply code_units_no_capital.
    unfold no_capital, lower_unit.
    destruct ((65 <=? cp) && (cp <=? 90))%N eqn:E'.
    + apply andb_true_iff in E'. destruct E' as [E' _]. apply N.leb_le in E'. lia.
    + apply andb_false_iff in E'. destruct E' as [E'|E']; apply N.leb_gt in E'; lia.
  - apply N.ltb_ge in E. cbn [special lower_special].
    destruct (0x130 =? cp)%N.
    + change (Forall no_capital [0x69; 0x307]%N).
      constructor; [|constructor; [|constructor]]; unfold no_capital; lia.
    + cbn [flat_map]. rewrite app_nil_r.
      now apply code_units_no_capital, mapped_lower_no_capital.
Qed.

(** No capital letter of ASCII is left in a string in lower case, of
    whatever code points the string is made. *)
Lemma toLowerCase_no_capital (s : jsstring) : Forall no_capital (toLowerCase s).
Proof.
  unfold toLowerCase. generalize (code_points s) (@nil N).
  intros cps. induction cps as [|c rest IH]; intros before; [constructor|].
  cbn [lower_points]. rewrite flat_map_app. apply Forall_app. split; [|apply IH].
  destruct (c =? 0x3A3)%N; [|apply lower_code_point_no_capital].
  destruct (final_sigma before rest);
    [change (Forall no_capital [0x3C2%N])|change (Forall no_capital [0x3C3%N])];
    (constructor; [unfold no_capital; lia|constructor]).
Qed.

Lemma mapped_lower_ascii (cp : N) :
  (128 <= cp)%N -> (mapped lower_runs cp < 128)%N -> cp = 0x212A%N.
Proof.
  intros Hcp. unfold mapped.
  destruct (find (in_run cp) lower_runs) as [r|] eqn:F; [|lia].
  apply find_some in F. destruct F as [Hin Hr].
  assert (All : forallb (fun r => (128 <=? image r)
                                  || (first_point r =? 0x212A) && (last_point r =? 0x212A))%N
                        lower_runs = true)
    by (vm_compute; reflexivity).
  rewrite forallb_forall in All. apply All in Hin.
  unfold in_run in Hr. apply andb_true_iff in Hr. destruct Hr as [Hr _].
  apply andb_true_iff in Hr. destruct Hr as [H1 H2]. apply N.leb_le in H1, H2.
  apply orb_true_iff in Hin. destruct Hin as [Hi|Hi].
  - apply N.leb_le in Hi. lia.
  - apply andb_true_iff in Hi. destruct Hi as [Hf Hl].
    apply N.eqb_eq in Hf, Hl. lia.
Qed.

Lemma is_ascii_code_units (cp : N) :
  is_ascii (code_units cp ++ []) -> (cp < 128)%N /\ code_units cp = [cp].
Proof.
  unfold code_units. destruct (cp <? 0x10000)%N; intros H.
  - apply Forall_inv in H. now split.
  - exfalso. apply Forall_inv in H. revert H.
    generalize ((cp - 65536) / 1024)%N. intros q Hq. lia.
Qed.

(** A code point that comes out of [lower_code_point] as ASCII is one
    code unit and gives one code unit. *)
Lemma lower_code_point_ascii (cp : N) :
  is_ascii (flat_map code_units (lower_code_point cp)) ->
  (cp < 0x10000)%N /\ length (flat_map code_units (lower_code_point cp)) = 1%nat.
Proof.
  unfold lower_code_point. destruct (cp <? 128)%N eqn:E.
  - apply N.ltb_lt in E. cbn [flat_map]. intros H.
    apply is_ascii_code_units in H. destruct H as [_ ->]. split; [lia|reflexivity].
  - apply N.ltb_ge in E. cbn [special lower_special].
    destruct (0x130 =? cp)%N.
    + change (flat_map code_units [0x69; 0x307]%N) with [0x69; 0x307]%N.
      intros H. exfalso. inversion H as [|? ? _ H']; subst.
      inversion H' as [|? ? Hc _]; subst. lia.
    + cbn [flat_map]. intros H. apply is_ascii_code_units in H.
      destruct H as [Hm ->]. apply mapped_lower_ascii in Hm; [|exact E].
      subst cp. split; [lia|reflexivity].
Qed.

Lemma list_pair_ind {A} (P : list A -> Prop) :
  P [] -> (forall a, P [a]) ->
  (forall a b l, P l -> P (b :: l) -> P (a :: b :: l)) ->
  forall l, P l.
Proof.
  intros H0 H1 H2 l.
  assert (H : P l /\ forall a, P (a :: l)).
  { induction l as [|b l [IH1 IH2]]; [now split|].
    split; [apply IH2|]. intros a. now apply H2. }
  now destruct H.
Qed.

Lemma lower_points_step_ascii (before rest : list N) (c : N) :
  is_ascii (flat_map code_units (lower_points before (c :: rest))) ->
  (c < 0x10000)%N
  /\ is_ascii (flat_map code_units (lower_points (c :: before) rest))
  /\ length (flat_map code_units (lower_points before (c :: rest)))
     = S (length (flat_map code_units (lower_points (c :: before) rest))).
Proof.
  cbn [lower_points]. rewrite flat_map_app, length_app. intros H.
  apply Forall_app in H. destruct H as [Hc Hrest].
  destruct (c =? 0x3A3)%N.
  - exfalso. destruct (final_sigma before rest);
      [change (is_ascii [0x3C2%N]) in Hc|change (is_ascii [0x3C3%N]) in Hc];
      inversion Hc; subst; lia.
  - apply lower_code_point_ascii in Hc. destruct Hc as [Hc ->]. now repeat split.
Qed.

(** A string whose lower case is ASCII has as many code units as its
    lower case. *)
Lemma toLowerCase_ascii_length (s : jsstring) :
  is_ascii (toLowerCase s) -> length (toLowerCase s) = length s.
Proof.
  unfold toLowerCase. generalize (@nil N). revert s.
  induction s as [|c|c d rest IH1 IH2] using list_pair_ind; intros before.
  - reflexivity.
  - cbn [code_points]. intros H. apply lower_points_step_ascii in H.
    destruct H as (_ & _ & ->). reflexivity.
  - cbn [code_points].
    destruct (is_high_surrogate c && is_low_surrogate d) eqn:E; intros H;
      apply lower_points_step_ascii in H; destruct H as (Hc & H & ->).
    + exfalso. revert Hc. generalize ((c - 55296) * 1024)%N. intros q Hq. lia.
    + cbn [length]. f_equal. now apply IH2.
Qed.

Lemma lower_unit_fixed (c : N) : no_capital c -> lower_unit c = c.
Proof.
  unfold no_capital, lower_unit. intros H.
  destruct ((65 <=? c) && (c <=? 90))%N eqn:E; [|reflexivity].
  apply andb_true_iff in E. destruct E as [E1 E2].
  apply N.leb_le in E1, E2. lia.
Qed.

(** A string of ASCII without capital letters is in lower case. *)
Lemma toLowerCase_fixed (s : jsstring) :
  is_ascii s -> Forall no_capital s -> toLowerCase s = s.
Proof.
  intros Ha Hn. rewrite (toLowerCase_ascii s Ha).
  rewrite <- (map_id s) at 2. apply map_ext_Forall.
  eapply Forall_impl; [|exact Hn]. apply lower_unit_fixed.
Qed.

(** ** The decimal parser *)

Lemma verifyFractionalDigits_accepts (n : number) :
  accepted_exponent n ->
  exists e, n = Int e /\ DecimalMath.verifyFractionalDigits n = Return e.
Proof.
  intros (e & -> & He). exists e. split; [reflexivity|].
  unfold DecimalMath.verifyFractionalDigits, DecimalMath.maxFractionalDigits.
  destruct (e <? 0) eqn:E1; [apply Z.ltb_lt in E1; lia|].
  destruct (100 <? e) eqn:E2; [apply Z.ltb_lt in E2; lia|]. reflexivity.
Qed.

Lemma verifyFractionalDigits_refuses (n : number) :
  ~ accepted_exponent n -> throws (DecimalMath.verifyFractionalDigits n).
Proof.
  intros Hn. unfold DecimalMath.verifyFractionalDigits, DecimalMath.maxFractionalDigits.
  destruct n as [|e]; [eexists; reflexivity|].
  destruct (e <? 0) eqn:E1; [eexists; reflexivity|].
  destruct (100 <? e) eqn:E2; [eexists; reflexivity|].
  exfalso. apply Hn. exists e. apply Z.ltb_ge in E1, E2. split; [reflexivity|lia].
Qed.

Lemma Return_inj {A} (a b : A) : Return a = Return b -> a = b.
Proof. intros H. now injection H. Qed.

Lemma throws_not_returns {A} (m : outcome A) : throws m -> ~ returns m.
Proof. intros [e He] [a Ha]. congruence. Qed.

Lemma fromAtomics_throws (s : jsstring) (n : number) :
  throws (DecimalMath.fromAtomics s n)
  <-> (~ accepted_exponent n \/ DecimalMath.is_numeral s = false).
Proof.
  unfold DecimalMath.fromAtomics. split.
  - intros [err H].
    destruct (DecimalMath.verifyFractionalDigits n) as [e|err'] eqn:V.
    + simpl in H. destruct (DecimalMath.is_numeral s); [discriminate|now right].
    + left. intros Hacc.
      destruct (verifyFractionalDigits_accepts n Hacc) as (e & _ & He). congruence.
  - intros [Hn|Hs].
    + destruct (verifyFractionalDigits_refuses n Hn) as [err ->].
      eexists. reflexivity.
    + destruct (DecimalMath.verifyFractionalDigits n) as [e|err']; simpl.
      * rewrite Hs. eexists. reflexivity.
      * eexists. reflexivity.
Qed.

Lemma fromAtomics_accepts (s : jsstring) (e : Z) :
  0 <= e <= 100 -> DecimalMath.is_numeral s = true ->
  DecimalMath.fromAtomics s (Int e)
    = Return (DecimalMath.mkDecimal (DecimalMath.numeral_value s) e).
Proof.
  intros He Hs. unfold DecimalMath.fromAtomics.
  destruct (verifyFractionalDigits_accepts (Int e)) as (e' & E & ->).
  { exists e. split; [reflexivity|lia]. }
  injection E as <-. simpl. now rewrite Hs.
Qed.

Lemma toString_zero (e : Z) :
  0 <= e -> DecimalMath.toString (DecimalMath.mkDecimal 0 e) = js "0".
Proof.
  intros He. unfold DecimalMath.toString.
  cbn [DecimalMath.atomics DecimalMath.fractionalDigits].
  assert (H10 : 10 ^ e <> 0) by (apply Z.pow_nonzero; lia).
  rewrite Z.mod_0_l by exact H10. rewrite Z.div_0_l by exact H10. reflexivity.
Qed.

Lemma fromAtomics_zero (n : number) :
  accepted_exponent n ->
  exists d, DecimalMath.fromAtomics (js "0") n = Return d
            /\ DecimalMath.toString d = js "0".
Proof.
  intros (e & -> & He). eexists. split.
  - apply fromAtomics_accepts; [lia|reflexivity].
  - apply toString_zero. lia.
Qed.

(** ** Coins *)

Lemma printableCoin_native (env : Env) (coin : Coin) :
  denom coin = of_env (NEXT_PUBLIC_DENOM env) ->
  printableCoin env (Some coin)
  = (d <- DecimalMath.fromAtomics (nullish (amount coin) (js "0"))
                                  (NEXT_PUBLIC_DISPLAY_DENOM_EXPONENT env) ;;
     Return (DecimalMath.toString d ++ thinSpace
               ++ to_string (of_env (NEXT_PUBLIC_DISPLAY_DENOM env)))).
Proof.
  intros H. unfold printableCoin.
  apply strict_eq_eq in H. now rewrite H.
Qed.

Lemma printableCoin_micro (env : Env) (coin : Coin) (d : jsstring) :
  denom coin = Str d -> NEXT_PUBLIC_DENOM env <> Some d ->
  starts_with (js "u") d = true ->
  printableCoin env (Some coin)
  = (v <- DecimalMath.fromAtomics (nullish (amount coin) (js "0")) (Int 6) ;;
     Return (DecimalMath.toString v ++ thinSpace ++ toUpperCase (skipn 1 d))).
Proof.
  intros Hd Hn Hu. unfold printableCoin.
  assert (E : strict_eq (denom coin) (of_env (NEXT_PUBLIC_DENOM env)) = false).
  { apply strict_eq_neq. rewrite Hd. intros E. apply Hn.
    apply of_env_inj. now rewrite <- E. }
  rewrite E, Hd. unfold optional_startsWith, to_string. rewrite Hu.
  now rewrite slice_from by lia.
Qed.

Lemma printableCoin_plain (env : Env) (coin : Coin) :
  denom coin <> of_env (NEXT_PUBLIC_DENOM env) ->
  optional_startsWith (denom coin) (js "u") = false ->
  printableCoin env (Some coin)
  = Return (to_string (amount coin) ++ thinSpace ++ to_string (denom coin)).
Proof.
  intros Hn Hu. unfold printableCoin.
  apply strict_eq_neq in Hn. now rewrite Hn, Hu.
Qed.

(** C4. A list of coins that does not hold exactly one entry makes
    [printableCoins] throw its own error; a list of one entry is printed
    as [printableCoin] prints that entry. *)
Theorem printableCoins_one_entry (env : Env) (coins : list (option Coin)) :
  (length coins <> 1%nat ->
     printableCoins env coins
     = Throw (Error (js "Implementation only supports exactly one coin entry.")))
  /\ (forall coin, coins = [coin] ->
        printableCoins env coins = printableCoin env coin).
Proof.
  unfold printableCoins. split.
  - intros H. destruct (Z.of_nat (length coins) =? 1) eqn:E; [|reflexivity].
    apply Z.eqb_eq in E. lia.
  - intros coin ->. reflexivity.
Qed.

Lemma printableCoins_one_entry_witness :
  printableCoins cosmos_env [] = Throw (Error (js "Implementation only supports exactly one coin entry."))
  /\ printableCoins cosmos_env [None; None]
     = Throw (Error (js "Implementation only supports exactly one coin entry."))
  /\ printableCoins cosmos_env [Some (mkCoin (Str (js "5")) (Str (js "foo")))]
     = printableCoin cosmos_env (Some (mkCoin (Str (js "5")) (Str (js "foo")))).
Proof.
  split; [|split].
  - apply (proj1 (printableCoins_one_entry cosmos_env [])). simpl. lia.
  - apply (proj1 (printableCoins_one_entry cosmos_env [None; None])). simpl. lia.
  - apply (proj2 (printableCoins_one_entry cosmos_env _)). reflexivity.
Defined.

(** C5. A coin in the native denom is printed by the native rule, with
    the configured exponent and ticker, whether or not its denom starts
    with "u"; the micro rule, exponent 6 and the denom without its first
    letter in upper case, prints the coins whose denom starts with "u"
    and is not the native denom, and no others: the remaining coins are
    printed plainly. *)
Theorem printableCoin_rule_order (env : Env) (coin : Coin) :
  (denom coin = of_env (NEXT_PUBLIC_DENOM env) ->
     printableCoin env (Some coin)
     = (d <- DecimalMath.fromAtomics (nullish (amount coin) (js "0"))
                                     (NEXT_PUBLIC_DISPLAY_DENOM_EXPONENT env) ;;
        Return (DecimalMath.toString d ++ thinSpace
                  ++ to_string (of_env (NEXT_PUBLIC_DISPLAY_DENOM env)))))
  /\ (forall d, denom coin = Str d -> NEXT_PUBLIC_DENOM env <> Some d ->
        starts_with (js "u") d = true ->
        printableCoin env (Some coin)
        = (v <- DecimalMath.fromAtomics (nullish (amount coin) (js "0")) (Int 6) ;;
           Return (DecimalMath.toString v ++ thinSpace ++ toUpperCase (skipn 1 d))))
  /\ (denom coin <> of_env (NEXT_PUBLIC_DENOM env) ->
      optional_startsWith (denom coin) (js "u") = false ->
      printableCoin env (Some coin)
      = Return (to_string (amount coin) ++ thinSpace ++ to_string (denom coin))).
Proof.
  split; [|split].
  - apply printableCoin_native.
  - intros d. apply printableCoin_micro.
  - apply printableCoin_plain.
Qed.

Lemma printableCoin_rule_order_witness :
  printableCoin milli_env (Some (mkCoin (Str (js "1000000")) (Str (js "uatom"))))
  = Return (js "1000" ++ thinSpace ++ js "Atom")
  /\ printableCoin milli_env (Some (mkCoin (Str (js "1230")) (Str (js "uosmo"))))
     = Return (js "0.00123" ++ thinSpace ++ js "OSMO")
  /\ printableCoin milli_env (Some (mkCoin (Str (js "5")) (Str (js "foo"))))
     = Return (js "5" ++ thinSpace ++ js "foo").
Proof.
  split; [|split].
  - apply (proj1 (printableCoin_rule_order milli_env
             (mkCoin (Str (js "1000000")) (Str (js "uatom"))))).
    reflexivity.
  - apply (proj1 (proj2 (printableCoin_rule_order milli_env
             (mkCoin (Str (js "1230")) (Str (js "uosmo"))))) (js "uosmo")).
    + reflexivity.
    + simpl. discriminate.
    + reflexivity.
  - apply (proj2 (proj2 (printableCoin_rule_order milli_env
             (mkCoin (Str (js "5")) (Str (js "foo")))))).
    + simpl. discriminate.
    + reflexivity.
Defined.

(** C9, as stated, fails in the native branch when the display
    exponent is not set: the exponent is [NaN] and the decimal class
    throws, although the missing amount has been read as "0". *)
Lemma printableCoin_missing_amount_counterexample :
  amount (mkCoin Undefined (Str (js "uatom"))) = Undefined
  /\ denom (mkCoin Undefined (Str (js "uatom")))
     = of_env (NEXT_PUBLIC_DENOM no_exponent_env)
  /\ printableCoin no_exponent_env (Some (mkCoin Undefined (Str (js "uatom"))))
     = Throw (Error (js "Fractional digits is not an integer")).
Proof. repeat split. Qed.

(** C9, amended. A coin whose amount is [null] or [undefined] is printed
    as the amount "0": under the micro rule the result is "0", the
    narrow no-break space and the ticker; under the native rule it is
    the same with the configured ticker when the configured exponent is
    an integer from 0 to 100, and with any other exponent the decimal
    class throws. *)
Theorem printableCoin_missing_amount (env : Env) (coin : Coin) :
  amount coin = Undefined \/ amount coin = Null ->
  (denom coin = of_env (NEXT_PUBLIC_DENOM env) ->
     (accepted_exponent (NEXT_PUBLIC_DISPLAY_DENOM_EXPONENT env) ->
        printableCoin env (Some coin)
        = Return (js "0" ++ thinSpace
                    ++ to_string (of_env (NEXT_PUBLIC_DISPLAY_DENOM env))))
     /\ (~ accepted_exponent (NEXT_PUBLIC_DISPLAY_DENOM_EXPONENT env) ->
         throws (printableCoin env (Some coin))))
  /\ (forall d, denom coin = Str d -> NEXT_PUBLIC_DENOM env <> Some d ->
        starts_with (js "u") d = true ->
        printableCoin env (Some coin)
        = Return (js "0" ++ thinSpace ++ toUpperCase (skipn 1 d))).
Proof.
  intros Hamount.
  assert (Hzero : nullish (amount coin) (js "0") = js "0")
    by (destruct Hamount as [-> | ->]; reflexivity).
  split.
  - intros Hd. rewrite (printableCoin_native env coin Hd), Hzero. split.
    + intros Hacc. destruct (fromAtomics_zero _ Hacc) as (v & -> & Hv).
      simpl. now rewrite Hv.
    + intros Hacc.
      destruct (proj2 (fromAtomics_throws (js "0") _) (or_introl Hacc)) as [err ->].
      exists err. reflexivity.
  - intros d Hd Hn Hu. rewrite (printableCoin_micro env coin d Hd Hn Hu), Hzero.
    reflexivity.
Qed.

Lemma printableCoin_missing_amount_witness :
  printableCoin cosmos_env (Some (mkCoin Null (Str (js "uatom"))))
  = Return (js "0" ++ thinSpace ++ js "ATOM")
  /\ throws (printableCoin no_exponent_env (Some (mkCoin Null (Str (js "uatom")))))
  /\ printableCoin cosmos_env (Some (mkCoin Undefined (Str (js "uosmo"))))
     = Return (js "0" ++ thinSpace ++ js "OSMO").
Proof.
  split; [|split].
  - apply (proj1 (proj1 (printableCoin_missing_amount cosmos_env
             (mkCoin Null (Str (js "uatom"))) (or_intror eq_refl)) eq_refl)).
    exists 6. split; [reflexivity|lia].
  - apply (proj2 (proj1 (printableCoin_missing_amount no_exponent_env
             (mkCoin Null (Str (js "uatom"))) (or_intror eq_refl)) eq_refl)).
    intros (e & He & _). discriminate He.
  - apply (proj2 (printableCoin_missing_amount cosmos_env
             (mkCoin Undefined (Str (js "uosmo"))) (or_introl eq_refl)) (js "uosmo")).
    + reflexivity.
    + simpl. discriminate.
    + reflexivity.
Defined.

(** C2, as stated, fails for a coin printed plainly: the amount "abc" is
    no numeral, the decimal class would refuse it, and the coin is
    printed without being parsed. *)
Lemma printableCoin_malformed_amount_counterexample :
  DecimalMath.is_numeral (js "abc") = false
  /\ throws (DecimalMath.fromAtomics (js "abc") (Int 6))
  /\ printableCoin cosmos_env (Some (mkCoin (Str (js "abc")) (Str (js "foo"))))
     = Return (js "abc" ++ thinSpace ++ js "foo").
Proof.
  split; [reflexivity|]. split; [|reflexivity].
  eexists. reflexivity.
Qed.

(** C2, amended. Under the native rule [printableCoin] throws exactly
    when the configured exponent is no integer from 0 to 100 or the
    amount, a missing one read as "0", is no non-negative integer
    numeral; under the micro rule exactly when that amount is no such
    numeral; a coin printed plainly never makes it throw.  Whatever it
    throws is the error of the decimal class. *)
Theorem printableCoin_throws (env : Env) (coin : Coin) :
  (denom coin = of_env (NEXT_PUBLIC_DENOM env) ->
     (throws (printableCoin env (Some coin))
      <-> ~ accepted_exponent (NEXT_PUBLIC_DISPLAY_DENOM_EXPONENT env)
          \/ DecimalMath.is_numeral (nullish (amount coin) (js "0")) = false))
  /\ (forall d, denom coin = Str d -> NEXT_PUBLIC_DENOM env <> Some d ->
        starts_with (js "u") d = true ->
        (throws (printableCoin env (Some coin))
         <-> DecimalMath.is_numeral (nullish (amount coin) (js "0")) = false))
  /\ (denom coin <> of_env (NEXT_PUBLIC_DENOM env) ->
      optional_startsWith (denom coin) (js "u") = false ->
      returns (printableCoin env (Some coin)))
  /\ (forall err, printableCoin env (Some coin) = Throw err ->
        exists n, DecimalMath.fromAtomics (nullish (amount coin) (js "0")) n
                  = Throw err).
Proof.
  assert (Hbind : forall (m : outcome DecimalMath.Decimal) k,
             throws (d <- m ;; Return (k d) : outcome jsstring) <-> throws m).
  { intros m k. destruct m as [v|err0]; simpl; split; intros [err1 He];
      try discriminate; exists err1; congruence. }
  split; [|split; [|split]].
  - intros Hd. rewrite (printableCoin_native env coin Hd).
    rewrite Hbind. apply fromAtomics_throws.
  - intros d Hd Hn Hu. rewrite (printableCoin_micro env coin d Hd Hn Hu).
    rewrite Hbind, fromAtomics_throws. split.
    + intros [H|H]; [|exact H]. exfalso. apply H. exists 6.
      split; [reflexivity|lia].
    + intros H. now right.
  - intros Hn Hu. rewrite (printableCoin_plain env coin Hn Hu). eexists. reflexivity.
  - intros err. unfold printableCoin.
    destruct (strict_eq (denom coin) (of_env (NEXT_PUBLIC_DENOM env))).
    + destruct (DecimalMath.fromAtomics _ (NEXT_PUBLIC_DISPLAY_DENOM_EXPONENT env))
        as [v|err'] eqn:E; simpl; intros H; [discriminate|].
      exists (NEXT_PUBLIC_DISPLAY_DENOM_EXPONENT env). congruence.
    + destruct (optional_startsWith (denom coin) (js "u")); [|discriminate].
      destruct (DecimalMath.fromAtomics _ (Int 6)) as [v|err'] eqn:E; simpl;
        intros H; [discriminate|].
      exists (Int 6). congruence.
Qed.

Lemma printableCoin_throws_witness :
  throws (printableCoin cosmos_env (Some (mkCoin (Str (js "1.5")) (Str (js "uatom")))))
  /\ throws (printableCoin cosmos_env (Some (mkCoin (Str (js "-3")) (Str (js "uosmo")))))
  /\ returns (printableCoin cosmos_env (Some (mkCoin (Str (js "1.5")) (Str (js "foo"))))).
Proof.
  split; [|split].
  - apply (proj2 (proj1 (printableCoin_throws cosmos_env
             (mkCoin (Str (js "1.5")) (Str (js "uatom")))) eq_refl)).
    right. reflexivity.
  - apply (proj2 (proj1 (proj2 (printableCoin_throws cosmos_env
             (mkCoin (Str (js "-3")) (Str (js "uosmo"))))) (js "uosmo") eq_refl
             ltac:(simpl; discriminate) eq_refl)).
    reflexivity.
  - apply (proj1 (proj2 (proj2 (printableCoin_throws cosmos_env
             (mkCoin (Str (js "1.5")) (Str (js "foo"))))))).
    + simpl. discriminate.
    + reflexivity.
Defined.

(** ** The example generators *)

Lemma be_bytes_length (n : nat) (z : Z) : length (Sha512.be_bytes n z) = n.
Proof. induction n as [|n IH]; simpl; congruence. Qed.

Lemma sha512_length (data : Uint8Array) : length (Sha512.sha512 data) = 64%nat.
Proof.
  unfold Sha512.sha512, Sha512.digest.
  rewrite length_map, !length_app, !be_bytes_length. reflexivity.
Qed.

(** Hashing and trimming to the original length keeps the length, as
    long as the data is no longer than a digest. *)
Lemma hash_and_trim (data : Uint8Array) :
  (length data <= 64)%nat ->
  slice (Sha512.sha512 data) 0 (Some (Z.of_nat (length data)))
  = firstn (length data) (Sha512.sha512 data)
  /\ length (firstn (length data) (Sha512.sha512 data)) = length data.
Proof.
  intros H. split.
  - rewrite slice_prefix by (rewrite sha512_length; lia).
    now rewrite Nat2Z.id.
  - rewrite length_firstn, sha512_length. lia.
Qed.

Lemma for_loop_iter {A} (n : nat) (body : A -> A) (data : A) :
  for_loop n body data = Nat.iter n body data.
Proof.
  revert data. induction n as [|n IH]; intros data; [reflexivity|].
  simpl for_loop. rewrite IH. symmetry. apply Nat.iter_succ_r.
Qed.

(** Two bodies that agree on the data satisfying an invariant they
    keep give the same loop. *)
Lemma for_loop_invariant {A} (P : A -> Prop) (body step : A -> A) :
  (forall data, P data -> body data = step data /\ P (step data)) ->
  forall n data, P data ->
    for_loop n body data = Nat.iter n step data /\ P (Nat.iter n step data).
Proof.
  intros H n. induction n as [|n IH]; intros data Hd; [now split|].
  simpl for_loop. destruct (H data Hd) as [E Hs]. rewrite E.
  rewrite Nat.iter_succ_r. now apply IH.
Qed.

Lemma fromBase64_pubkey_seed :
  Base64.fromBase64 (js "Akd/qKMWdZXyiMnSu6aFLpQEGDO0ijyal9mXUIcVaPNX")
  = Return pubkey_seed.
Proof. vm_compute. reflexivity. Qed.

Lemma toBase64_pubkey_seed :
  Base64.toBase64 pubkey_seed = js "Akd/qKMWdZXyiMnSu6aFLpQEGDO0ijyal9mXUIcVaPNX".
Proof. vm_compute. reflexivity. Qed.

Lemma remainder_truthy_odd (index : Z) :
  remainder_truthy (ArgNumber (Int index)) 2 = Z.odd index.
Proof.
  unfold remainder_truthy. simpl to_number.
  pose proof (Z.rem_mod_eq_0 index 2 ltac:(lia)) as H. rewrite Zmod_odd in H.
  destruct (Z.odd index); destruct (Z.rem index 2 =? 0) eqn:E; try reflexivity.
  - apply Z.eqb_eq in E. apply H in E. discriminate E.
  - apply Z.eqb_neq in E. exfalso. apply E, H. reflexivity.
Qed.

(** C1, as stated, fails at index 1: the index is odd and byte 0 of the
    data is forced to 0x02, not to 0x03; and at index 2, which is even,
    it is forced to 0x03. *)
Lemma examplePubkey_parity_counterexample :
  Z.odd 1 = true
  /\ examplePubkey (ArgNumber (Int 1))
     = Return (Base64.toBase64
                 (Byte.x02 :: skipn 1 (firstn 33 (Sha512.sha512 pubkey_seed))))
  /\ examplePubkey (ArgNumber (Int 1))
     <> Return (Base64.toBase64
                  (Byte.x03 :: skipn 1 (firstn 33 (Sha512.sha512 pubkey_seed)))).
Proof.
  assert (E : examplePubkey (ArgNumber (Int 1))
              = Return (js "Avd/V8hhNjtzFydIAAD3lLgHVo0TPKkjP/W+ihJWS9Sa"))
    by (vm_compute; reflexivity).
  assert (E2 : Base64.toBase64
                 (Byte.x02 :: skipn 1 (firstn 33 (Sha512.sha512 pubkey_seed)))
               = js "Avd/V8hhNjtzFydIAAD3lLgHVo0TPKkjP/W+ihJWS9Sa")
    by (vm_compute; reflexivity).
  assert (E3 : Base64.toBase64
                 (Byte.x03 :: skipn 1 (firstn 33 (Sha512.sha512 pubkey_seed)))
               = js "A/d/V8hhNjtzFydIAAD3lLgHVo0TPKkjP/W+ihJWS9Sa")
    by (vm_compute; reflexivity).
  rewrite E, E2, E3. split; [reflexivity|]. split; [reflexivity|].
  intros H. injection H as H. discriminate H.
Qed.

(** C1, amended. For an integer index of at least 1 the loop of
    [examplePubkey] runs [index] times on the 33 bytes of the seed; each
    run replaces the data by the first 33 bytes of its SHA-512 digest and
    then sets byte 0 to 0x02 when the index argument is odd and to 0x03
    when it is even, the same test in every run; the result is the base64
    text of the final bytes. *)
Theorem examplePubkey_iterations (index : Z) :
  1 <= index ->
  Base64.fromBase64 (js "Akd/qKMWdZXyiMnSu6aFLpQEGDO0ijyal9mXUIcVaPNX")
  = Return pubkey_seed
  /\ length pubkey_seed = 33%nat
  /\ (let step := fun data : Uint8Array =>
                    (if Z.odd index then Byte.x02 else Byte.x03)
                      :: skipn 1 (firstn 33 (Sha512.sha512 data)) in
      examplePubkey (ArgNumber (Int index))
      = Return (Base64.toBase64 (Nat.iter (Z.to_nat index) step pubkey_seed))
      /\ length (Nat.iter (Z.to_nat index) step pubkey_seed) = 33%nat).
Proof.
  intros Hindex. split; [exact fromBase64_pubkey_seed|]. split; [reflexivity|].
  intros step. unfold examplePubkey. rewrite fromBase64_pubkey_seed.
  unfold bind, or_zero, argument_truthy.
  destruct (index =? 0) eqn:E; [apply Z.eqb_eq in E; lia|].
  simpl negb. cbv iota. simpl to_number. unfold iterations.
  match goal with
  | |- Return (Base64.toBase64 (for_loop ?count ?body ?seed)) = _ /\ _ =>
      assert (Hloop : for_loop count body seed = Nat.iter count step seed
                      /\ length (Nat.iter count step seed) = 33%nat);
      [apply (for_loop_invariant (fun data : Uint8Array => length data = 33%nat))|]
  end.
  - intros data Hd.
    destruct (hash_and_trim data) as [Hs Hl]; [lia|].
    rewrite Hs, Hd. rewrite Hd in Hl. rewrite remainder_truthy_odd.
    unfold step. destruct (firstn 33 (Sha512.sha512 data)) as [|b rest] eqn:F;
      [discriminate Hl|].
    split; [reflexivity|]. simpl in Hl |- *. exact Hl.
  - reflexivity.
  - destruct Hloop as [El Hl]. rewrite El. split; [reflexivity|exact Hl].
Qed.

Lemma examplePubkey_iterations_witness :
  examplePubkey (ArgNumber (Int 2))
  = Return (js "A3Mrw/Bhx/+rsU0KTqZQ11aBnf3vkmOt3QBowpMN9n9L").
Proof.
  rewrite (proj1 (proj2 (proj2 (examplePubkey_iterations 2 ltac:(lia))))).
  vm_compute. reflexivity.
Defined.

(** C10. With a falsy index, among them [undefined], [null] and 0, the
    loop of [examplePubkey] does not run and the result is the seed text
    itself. *)
Theorem examplePubkey_falsy_index (index : argument) :
  argument_truthy index = false ->
  or_zero index = Int 0
  /\ iterations (or_zero index) = 0%nat
  /\ examplePubkey index
     = Return (js "Akd/qKMWdZXyiMnSu6aFLpQEGDO0ijyal9mXUIcVaPNX").
Proof.
  intros H. unfold examplePubkey, or_zero. rewrite H.
  split; [reflexivity|]. split; [reflexivity|].
  rewrite fromBase64_pubkey_seed. simpl. now rewrite toBase64_pubkey_seed.
Qed.

Lemma examplePubkey_falsy_index_witness :
  examplePubkey (ArgNumber (Int 0))
  = Return (js "Akd/qKMWdZXyiMnSu6aFLpQEGDO0ijyal9mXUIcVaPNX")
  /\ examplePubkey ArgUndefined = examplePubkey (ArgNumber (Int 0))
  /\ examplePubkey ArgNull = examplePubkey (ArgNumber (Int 0)).
Proof.
  pose proof (proj2 (proj2 (examplePubkey_falsy_index (ArgNumber (Int 0)) eq_refl)))
    as H0.
  split; [exact H0|]. rewrite H0. split.
  - exact (proj2 (proj2 (examplePubkey_falsy_index ArgUndefined eq_refl))).
  - exact (proj2 (proj2 (examplePubkey_falsy_index ArgNull eq_refl))).
Defined.

(** ** Addresses *)

Lemma Bech32_decode_empty : exists err, Bech32.Bech32_decode [] = Throw err.
Proof. eexists. reflexivity. Qed.

Lemma checkAddress_decoded (env : Env) (address prefix : jsstring) (data : Uint8Array) :
  Bech32.Bech32_decode address = Return (prefix, data) ->
  checkAddress env (Str address)
  = Return
      (if negb (strict_eq (Str prefix) (of_env (NEXT_PUBLIC_ADDRESS_PREFIX env))) then
         Some (js "Expected address prefix '"
                 ++ to_string (of_env (NEXT_PUBLIC_ADDRESS_PREFIX env))
                 ++ js "' but got '" ++ prefix ++ js "'")
       else if negb (Z.of_nat (length data) =? 20) then
         Some (js "Invalid address length in bech32 data. Must be 20 bytes.")
       else None).
Proof.
  intros D. destruct address as [|c address].
  - destruct Bech32_decode_empty as [err E]. congruence.
  - unfold checkAddress. rewrite D.
    destruct (negb (strict_eq _ _)); [reflexivity|].
    destruct (negb (_ =? 20)); reflexivity.
Qed.

Lemma checkAddress_undecoded (env : Env) (address : jsstring) (err : error) :
  address <> [] ->
  Bech32.Bech32_decode address = Throw err ->
  checkAddress env (Str address) = Return (Some (error_toString err)).
Proof.
  intros Hne D. destruct address as [|c address]; [congruence|].
  unfold checkAddress. now rewrite D.
Qed.

Lemma checkAddress_falsy (env : Env) (input : field) :
  truthy input = false -> checkAddress env input = Return (Some (js "Empty")).
Proof. destruct input as [| |[|c s]]; simpl; intros H; congruence. Qed.

Lemma prefix_test (env : Env) (prefix : jsstring) :
  strict_eq (Str prefix) (of_env (NEXT_PUBLIC_ADDRESS_PREFIX env)) = true
  <-> NEXT_PUBLIC_ADDRESS_PREFIX env = Some prefix.
Proof.
  rewrite strict_eq_eq. destruct (NEXT_PUBLIC_ADDRESS_PREFIX env); simpl;
    split; congruence.
Qed.

(** C3. [checkAddress] never throws.  It returns [null] exactly when the
    input decodes as bech32 with the configured prefix and 20 bytes of
    data; otherwise it returns a message: "Empty" for a falsy input, the
    text of the decoder's error when decoding fails, a message with the
    expected and the found prefix when the prefix differs, and a fixed
    message when the data is not 20 bytes long. *)
Theorem checkAddress_messages (env : Env) (input : field) :
  returns (checkAddress env input)
  /\ (checkAddress env input = Return None
      <-> exists address prefix data,
            input = Str address
            /\ Bech32.Bech32_decode address = Return (prefix, data)
            /\ NEXT_PUBLIC_ADDRESS_PREFIX env = Some prefix
            /\ length data = 20%nat)
  /\ (truthy input = false ->
      checkAddress env input = Return (Some (js "Empty")))
  /\ (forall address err,
        input = Str address -> address <> [] ->
        Bech32.Bech32_decode address = Throw err ->
        checkAddress env input = Return (Some (error_toString err)))
  /\ (forall address prefix data,
        input = Str address ->
        Bech32.Bech32_decode address = Return (prefix, data) ->
        NEXT_PUBLIC_ADDRESS_PREFIX env <> Some prefix ->
        checkAddress env input
        = Return (Some (js "Expected address prefix '"
                          ++ to_string (of_env (NEXT_PUBLIC_ADDRESS_PREFIX env))
                          ++ js "' but got '" ++ prefix ++ js "'")))
  /\ (forall address prefix data,
        input = Str address ->
        Bech32.Bech32_decode address = Return (prefix, data) ->
        NEXT_PUBLIC_ADDRESS_PREFIX env = Some prefix ->
        length data <> 20%nat ->
        checkAddress env input
        = Return (Some (js "Invalid address length in bech32 data. Must be 20 bytes."))).
Proof.
  assert (Hcases : truthy input = false
                   \/ exists address, input = Str address /\ address <> []).
  { destruct input as [| |[|c s]]; simpl; auto.
    right. exists (c :: s). split; [reflexivity|discriminate]. }
  split; [|split; [|split; [|split; [|split]]]].
  - destruct Hcases as [H|(address & -> & Hne)].
    + rewrite (checkAddress_falsy env input H). eexists. reflexivity.
    + destruct (Bech32.Bech32_decode address) as [[prefix data]|err] eqn:D.
      * rewrite (checkAddress_decoded env address prefix data D). eexists. reflexivity.
      * rewrite (checkAddress_undecoded env address err Hne D). eexists. reflexivity.
  - split.
    + intros H. destruct Hcases as [F|(address & -> & Hne)].
      * rewrite (checkAddress_falsy env input F) in H. discriminate H.
      * destruct (Bech32.Bech32_decode address) as [[prefix data]|err] eqn:D.
        -- exists address, prefix, data. split; [reflexivity|]. split; [exact D|].
           rewrite (checkAddress_decoded env address prefix data D) in H.
           destruct (strict_eq _ _) eqn:P; [|discriminate H].
           destruct (_ =? 20) eqn:L; [|discriminate H].
           apply prefix_test in P. apply Z.eqb_eq in L. split; [exact P|lia].
        -- rewrite (checkAddress_undecoded env address err Hne D) in H. discriminate H.
    + intros (address & prefix & data & -> & D & P & L).
      rewrite (checkAddress_decoded env address prefix data D).
      apply prefix_test in P. rewrite P, L. reflexivity.
  - apply checkAddress_falsy.
  - intros address err -> Hne D. now apply checkAddress_undecoded.
  - intros address prefix data -> D P.
    rewrite (checkAddress_decoded env address prefix data D).
    destruct (strict_eq _ _) eqn:S; [|reflexivity].
    apply prefix_test in S. contradiction.
  - intros address prefix data -> D P L.
    rewrite (checkAddress_decoded env address prefix data D).
    apply prefix_test in P. rewrite P. simpl negb.
    destruct (_ =? 20) eqn:E; [|reflexivity].
    apply Z.eqb_eq in E. lia.
Qed.

Lemma checkAddress_messages_witness :
  checkAddress cosmos_env (Str (js "")) = Return (Some (js "Empty"))
  /\ checkAddress cosmos_env (Str (js "cosmos1vqpjljwsynsn58dugz0w8ut7kun7t8ls2qkmsq"))
     = Return None
  /\ checkAddress cosmos_env (Str (js "cosmos1vqpjljwsynsn58dugz0w8ut7kun7t8ls2qkmsr"))
     = Return (Some (js
         "Error: Invalid checksum for cosmos1vqpjljwsynsn58dugz0w8ut7kun7t8ls2qkmsr"))
  /\ checkAddress cosmos_env (Str (js "osmo1vqpjljwsynsn58dugz0w8ut7kun7t8lszm9txj"))
     = Return (Some (js "Expected address prefix 'cosmos' but got 'osmo'"))
  /\ checkAddress cosmos_env (Str (js "cosmos1vqpjljwsynsn58dujuazlt"))
     = Return (Some (js "Invalid address length in bech32 data. Must be 20 bytes.")).
Proof.
  split; [|split; [|split; [|split]]].
  - apply (proj1 (proj2 (proj2 (checkAddress_messages cosmos_env (Str (js ""))))) eq_refl).
  - apply (proj2 (proj1 (proj2 (checkAddress_messages cosmos_env
             (Str (js "cosmos1vqpjljwsynsn58dugz0w8ut7kun7t8ls2qkmsq")))))).
    exists (js "cosmos1vqpjljwsynsn58dugz0w8ut7kun7t8ls2qkmsq"), (js "cosmos"), address_seed.
    repeat split; vm_compute; reflexivity.
  - apply (proj1 (proj2 (proj2 (proj2 (checkAddress_messages cosmos_env
             (Str (js "cosmos1vqpjljwsynsn58dugz0w8ut7kun7t8ls2qkmsr"))))))
             (js "cosmos1vqpjljwsynsn58dugz0w8ut7kun7t8ls2qkmsr")
             (Error (js "Invalid checksum for cosmos1vqpjljwsynsn58dugz0w8ut7kun7t8ls2qkmsr"))
             eq_refl).
    + discriminate.
    + vm_compute. reflexivity.
  - apply (proj1 (proj2 (proj2 (proj2 (proj2 (checkAddress_messages cosmos_env
             (Str (js "osmo1vqpjljwsynsn58dugz0w8ut7kun7t8lszm9txj")))))))
             (js "osmo1vqpjljwsynsn58dugz0w8ut7kun7t8lszm9txj") (js "osmo") address_seed
             eq_refl).
    + vm_compute. reflexivity.
    + simpl. discriminate.
  - apply (proj2 (proj2 (proj2 (proj2 (proj2 (checkAddress_messages cosmos_env
             (Str (js "cosmos1vqpjljwsynsn58dujuazlt")))))))
             (js "cosmos1vqpjljwsynsn58dujuazlt") (js "cosmos") (firstn 10 address_seed)
             eq_refl).
    + vm_compute. reflexivity.
    + reflexivity.
    + simpl. lia.
Defined.

(** ** Explorer links *)

Lemma starts_with_app (pat s : jsstring) :
  starts_with pat s = true <-> exists rest, s = pat ++ rest.
Proof.
  revert s. induction pat as [|a pat IH]; intros s; simpl.
  - split; [intros _; now exists s|reflexivity].
  - destruct s as [|b s].
    + split; [discriminate|]. intros [rest H]. discriminate H.
    + rewrite andb_true_iff, N.eqb_eq, IH. split.
      * intros [-> [rest ->]]. now exists rest.
      * intros [rest H]. injection H as -> ->. split; [reflexivity|now exists rest].
Qed.

Lemma split_at_first_sound (pat s before after : jsstring) :
  split_at_first pat s = Some (before, after) -> occurs_first pat s before after.
Proof.
  revert before after. induction s as [|c s IH]; intros before after.
  - simpl. destruct (starts_with pat []) eqn:E; [|discriminate].
    intros H. injection H as <- <-.
    apply starts_with_app in E. destruct E as [rest E].
    split; [|intros; simpl; lia].
    destruct pat; [|discriminate E]. now destruct rest.
  - simpl. destruct (starts_with pat (c :: s)) eqn:E.
    + intros H. injection H as <- <-.
      apply starts_with_app in E. destruct E as [rest E].
      split; [|intros; simpl; lia].
      rewrite E at 2. rewrite skipn_app, skipn_all, Nat.sub_diag. simpl.
      exact E.
    + destruct (split_at_first pat s) as [[b0 a0]|] eqn:S; [|discriminate].
      intros H. injection H as <- <-.
      destruct (IH b0 a0 eq_refl) as [Es Hmin]. split.
      * simpl. now rewrite <- Es.
      * intros b a Hb. destruct b as [|x b].
        -- exfalso. assert (starts_with pat (c :: s) = true); [|congruence].
           apply starts_with_app. now exists a.
        -- simpl in Hb. injection Hb as _ Hb. simpl.
           apply le_n_S. now apply (Hmin b a).
Qed.

Lemma split_at_first_complete (pat s : jsstring) :
  occurs pat s -> exists before after, split_at_first pat s = Some (before, after).
Proof.
  intros (b & a & E). revert s E. induction b as [|x b IH]; intros s E.
  - assert (H : starts_with pat s = true) by (apply starts_with_app; now exists a).
    destruct s; simpl; rewrite H; eauto.
  - subst s. simpl. destruct (starts_with pat (x :: b ++ pat ++ a)); [eauto|].
    destruct (IH _ eq_refl) as (b0 & a0 & ->). eauto.
Qed.

Lemma occurs_first_unique (pat s b1 a1 b2 a2 : jsstring) :
  occurs_first pat s b1 a1 -> occurs_first pat s b2 a2 -> b1 = b2 /\ a1 = a2.
Proof.
  intros [E1 M1] [E2 M2].
  assert (L : length b1 = length b2).
  { apply Nat.le_antisymm; [apply (M1 b2 a2 E2)|apply (M2 b1 a1 E1)]. }
  rewrite E1 in E2.
  destruct (app_eq_app _ _ _ _ E2) as [l [[H1 H2]|[H1 H2]]];
    subst; rewrite length_app in L; destruct l; simpl in L; try lia;
    rewrite app_nil_r in *; simpl in *.
  - split; [reflexivity|]. now apply app_inv_head in H2.
  - split; [reflexivity|]. now apply app_inv_head in H2.
Qed.

Lemma substitution_plain (matched before after replacement : jsstring) :
  replacement_pattern replacement = false ->
  substitution matched before after replacement = replacement.
Proof.
  induction replacement as [|c r IH]; intros H; [reflexivity|].
  cbn [substitution]. destruct r as [|d r'].
  - destruct (c =? 36)%N; reflexivity.
  - cbn [replacement_pattern] in H. apply orb_false_iff in H. destruct H as [H1 H2].
    rewrite (IH H2). destruct (c =? 36)%N; [|reflexivity].
    cbn [andb] in H1. apply orb_false_iff in H1. destruct H1 as [H1 H39].
    apply orb_false_iff in H1. destruct H1 as [H1 H96].
    apply orb_false_iff in H1. destruct H1 as [H36 H38].
    now rewrite H36, H38, H96, H39.
Qed.

Lemma replace_first (s pat replacement before after : jsstring) :
  replacement_pattern replacement = false ->
  occurs_first pat s before after ->
  replace s pat replacement = before ++ replacement ++ after.
Proof.
  intros Hr Ho. unfold replace.
  destruct (split_at_first_complete pat s) as (b0 & a0 & E).
  { destruct Ho as [Es _]. now exists before, after. }
  rewrite E. apply split_at_first_sound in E.
  destruct (occurs_first_unique _ _ _ _ _ _ E Ho) as [-> ->].
  now rewrite substitution_plain.
Qed.

Lemma replace_absent (s pat replacement : jsstring) :
  ~ occurs pat s -> replace s pat replacement = s.
Proof.
  intros H. unfold replace.
  destruct (split_at_first pat s) as [[b a]|] eqn:E; [|reflexivity].
  exfalso. apply H. destruct (split_at_first_sound _ _ _ _ E) as [Es _].
  now exists b, a.
Qed.

(** C8. At the hash "$&" the link is not the template with "%s"
    replaced by the hash: [replace] reads the hash as a replacement
    text, in which "$&" stands for the text that was matched, and the
    template comes back as it was. *)
Theorem explorerLinkTx_dollar_hash :
  NEXT_PUBLIC_EXPLORER_LINK_TX cosmos_env
  = Some (js "https://www.mintscan.io/cosmos/txs/" ++ js "%s" ++ [])
  /\ explorerLinkTx cosmos_env (js "$&")
     = Some (js "https://www.mintscan.io/cosmos/txs/%s")
  /\ explorerLinkTx cosmos_env (js "$&")
     <> Some (js "https://www.mintscan.io/cosmos/txs/" ++ js "$&" ++ []).
Proof.
  split; [reflexivity|]. split; [reflexivity|].
  intros H. vm_compute in H. discriminate H.
Qed.

(** Without a template, or with the empty one, [explorerLinkTx] returns
    [null].  With a template and a hash that holds no replacement
    pattern, as every hexadecimal hash, it returns the template with the
    first "%s" replaced by the hash, and the template itself when it
    holds no "%s". *)
Theorem explorerLinkTx_substitutes (env : Env) (hash : jsstring) :
  (NEXT_PUBLIC_EXPLORER_LINK_TX env = None
   \/ NEXT_PUBLIC_EXPLORER_LINK_TX env = Some [] ->
   explorerLinkTx env hash = None)
  /\ (forall template,
        NEXT_PUBLIC_EXPLORER_LINK_TX env = Some template -> template <> [] ->
        replacement_pattern hash = false ->
        (forall before after,
           occurs_first (js "%s") template before after ->
           explorerLinkTx env hash = Some (before ++ hash ++ after))
        /\ (~ occurs (js "%s") template ->
            explorerLinkTx env hash = Some template)).
Proof.
  unfold explorerLinkTx. split.
  - intros [-> | ->]; reflexivity.
  - intros template -> Hne Hhash. destruct template as [|c t]; [congruence|].
    split.
    + intros before after Ho. f_equal. now apply replace_first.
    + intros Ho. f_equal. now apply replace_absent.
Qed.

Lemma explorerLinkTx_substitutes_witness :
  explorerLinkTx empty_env (js "ABC") = None
  /\ explorerLinkTx cosmos_env (js "A$1")
     = Some (js "https://www.mintscan.io/cosmos/txs/A$1").
Proof.
  split.
  - apply (proj1 (explorerLinkTx_substitutes empty_env (js "ABC"))). now left.
  - apply (proj1 (proj2 (explorerLinkTx_substitutes cosmos_env (js "A$1"))
             (js "https://www.mintscan.io/cosmos/txs/%s") eq_refl
             ltac:(discriminate) eq_refl)
             (js "https://www.mintscan.io/cosmos/txs/") []).
    apply split_at_first_sound. reflexivity.
Defined.

(** ** Example addresses *)

Lemma Bech32_decode_seed :
  Bech32.Bech32_decode (js "cosmos1vqpjljwsynsn58dugz0w8ut7kun7t8ls2qkmsq")
  = Return (js "cosmos", address_seed).
Proof. vm_compute. reflexivity. Qed.

Lemma exampleAddress_unfold (env : Env) (index : argument) :
  exampleAddress env index
  = Bech32.Bech32_encode (NEXT_PUBLIC_ADDRESS_PREFIX env)
      (for_loop (iterations (or_zero index))
         (fun data => slice (Sha512.sha512 data) 0 (Some (Z.of_nat (length data))))
         address_seed).
Proof. unfold exampleAddress. rewrite Bech32_decode_seed. reflexivity. Qed.

Lemma exampleAddress_data_length (n : nat) :
  length (for_loop n
            (fun data => slice (Sha512.sha512 data) 0 (Some (Z.of_nat (length data))))
            address_seed) = 20%nat.
Proof.
  match goal with
  | |- length (for_loop n ?body ?seed) = _ =>
      destruct (for_loop_invariant (fun data : Uint8Array => length data = 20%nat)
                  body (fun data => firstn 20 (Sha512.sha512 data))) with n seed
        as [E L]
  end.
  - intros data Hd. destruct (hash_and_trim data) as [Hs Hl]; [lia|].
    rewrite Hs, Hd. rewrite Hd in Hl. now split.
  - reflexivity.
  - now rewrite E.
Qed.

Lemma land_31_five_bit (x : Z) : Z.shiftr (Z.land x 31) 5 = 0.
Proof.
  change 31 with (Z.ones 5). rewrite Z.land_ones by lia.
  rewrite Z.shiftr_div_pow2 by lia. apply Z.div_small.
  apply Z.mod_pos_bound. lia.
Qed.

(** Twenty bytes make thirty-two words of five bits. *)
Lemma toWords_20 (bytes : list Z) :
  length bytes = 20%nat ->
  length (Bech32.toWords bytes) = 32%nat
  /\ Forall (fun x => Z.shiftr x 5 = 0) (Bech32.toWords bytes).
Proof.
  intros H.
  do 20 (destruct bytes as [|? bytes]; [discriminate H|]).
  destruct bytes; [|discriminate H]. clear H.
  unfold Bech32.toWords, Bech32.convert.
  change (Z.shiftl 1 5 - 1) with 31.
  cbn -[Z.land Z.lor Z.shiftl Z.shiftr Bech32.int32].
  split; [reflexivity|].
  repeat (constructor; [apply land_31_five_bit|]). constructor.
Qed.

Lemma lower_unit_printable (c : N) :
  (33 <= c <= 126)%N -> (33 <= lower_unit c <= 126)%N.
Proof.
  intros H. unfold lower_unit.
  destruct ((65 <=? c) && (c <=? 90))%N eqn:E; [|exact H].
  apply andb_true_iff in E. destruct E as [E1 E2].
  apply N.leb_le in E1, E2. lia.
Qed.

Lemma printable_is_ascii (s : jsstring) :
  Forall (fun c => (33 <= c <= 126)%N) s -> is_ascii s.
Proof. apply Forall_impl. intros c Hc. lia. Qed.

Lemma toLowerCase_printable (s : jsstring) :
  Forall (fun c => (33 <= c <= 126)%N) s ->
  Forall (fun c => (33 <= c <= 126)%N) (toLowerCase s).
Proof.
  intros H. rewrite (toLowerCase_ascii s (printable_is_ascii s H)).
  apply Forall_map. eapply Forall_impl; [|exact H]. apply lower_unit_printable.
Qed.

Lemma prefixChk_high_printable (prefix rest : jsstring) (chk : Z) :
  Forall (fun c => (33 <= c <= 126)%N) rest ->
  exists chk', Bech32.prefixChk_high prefix rest chk = inr chk'.
Proof.
  intros H. revert chk. induction H as [|c rest Hc _ IH]; intros chk; simpl.
  - now exists chk.
  - destruct (c <? 33)%N eqn:E1; [apply N.ltb_lt in E1; lia|].
    destruct (126 <? c)%N eqn:E2; [apply N.ltb_lt in E2; lia|].
    simpl. apply IH.
Qed.

Lemma prefixChk_printable (prefix : jsstring) :
  Forall (fun c => (33 <= c <= 126)%N) prefix ->
  exists chk, Bech32.prefixChk prefix = inr chk.
Proof.
  intros H. unfold Bech32.prefixChk.
  destruct (prefixChk_high_printable prefix prefix 1 H) as [chk ->].
  eexists. reflexivity.
Qed.

Lemma encode_words_five_bit (words : list Z) :
  Forall (fun x => Z.shiftr x 5 = 0) words ->
  forall chk result,
  exists chk',
    Bech32.encode_words words chk result
    = Return (chk', result ++ map Bech32.charAt words).
Proof.
  intros H. induction H as [|x words Hx _ IH]; intros chk result; simpl.
  - exists chk. now rewrite app_nil_r.
  - rewrite Hx. simpl.
    destruct (IH (Z.lxor (Bech32.polymodStep chk) x) (result ++ [Bech32.charAt x]))
      as [chk' ->].
    exists chk'. now rewrite <- app_assoc.
Qed.

(** The shape of an address: the prefix in lower case, the separator,
    the words of the data and six units of checksum. *)
Lemma Bech32_encode_shape (prefix : option jsstring) (data : Uint8Array)
  (address : jsstring) :
  length data = 20%nat ->
  Bech32.Bech32_encode prefix data = Return address ->
  exists p checksum,
    prefix = Some p
    /\ address = toLowerCase p ++ js "1"
                 ++ map Bech32.charAt (Bech32.toWords (map Z_of_byte data))
                 ++ checksum.
Proof.
  intros Hdata.
  destruct (toWords_20 (map Z_of_byte data)) as [_ Hfive];
    [now rewrite length_map|].
  unfold Bech32.Bech32_encode, Bech32.encode.
  destruct prefix as [p|]; [|discriminate].
  destruct (Bech32.LIMIT <? _); [discriminate|].
  destruct (Bech32.prefixChk (toLowerCase p)) as [msg|chk]; [discriminate|].
  destruct (encode_words_five_bit _ Hfive chk (toLowerCase p ++ js "1"))
    as [chk' ->].
  cbv beta iota zeta delta [bind fst snd]. intros H.
  apply Return_inj in H. subst address.
  exists p, (Bech32.checksum_units (Z.lxor (Nat.iter 6 Bech32.polymodStep chk') 1)).
  split; [reflexivity|]. rewrite <- !app_assoc. reflexivity.
Qed.

Lemma Bech32_encode_valid (prefix : jsstring) (data : Uint8Array) :
  valid_prefix prefix -> length data = 20%nat ->
  returns (Bech32.Bech32_encode (Some prefix) data).
Proof.
  intros [Hlen Hprint] Hdata.
  destruct (toWords_20 (map Z_of_byte data)) as [Hw Hfive];
    [now rewrite length_map|].
  unfold Bech32.Bech32_encode, Bech32.encode, Bech32.LIMIT. rewrite Hw.
  destruct (90 <? _) eqn:E; [apply Z.ltb_lt in E; lia|].
  destruct (prefixChk_printable (toLowerCase prefix)) as [chk ->];
    [now apply toLowerCase_printable|].
  destruct (encode_words_five_bit _ Hfive chk (toLowerCase prefix ++ js "1"))
    as [chk' ->].
  eexists. reflexivity.
Qed.

Lemma toWords_seed :
  Bech32.toWords (map Z_of_byte address_seed)
  = [12; 0; 1; 18; 31; 18; 14; 16; 4; 19; 16; 19; 20; 7; 13; 28;
     8; 2; 15; 14; 7; 28; 11; 30; 22; 28; 19; 30; 11; 7; 31; 16].
Proof. vm_compute. reflexivity. Qed.

Lemma toWords_seed_hashed :
  Bech32.toWords
    (map Z_of_byte
       (for_loop 1
          (fun data => slice (Sha512.sha512 data) 0 (Some (Z.of_nat (length data))))
          address_seed))
  = [7; 15; 8; 1; 8; 22; 9; 18; 2; 4; 4; 27; 23; 4; 17; 6;
     30; 24; 14; 26; 3; 2; 30; 19; 3; 15; 6; 13; 8; 7; 30; 19].
Proof. vm_compute. reflexivity. Qed.

(** C6. [exampleAddress] is a function of the index: the same index
    gives the same result.  The hard-coded address decodes to 20 bytes,
    and index 0 gives their encoding under the configured prefix.
    Whenever index 0 and index 1 give strings the two strings differ,
    and with a configured prefix that bech32 takes every index gives a
    string. *)
Theorem exampleAddress_deterministic (env : Env) :
  (forall index r1 r2,
     exampleAddress env index = r1 -> exampleAddress env index = r2 -> r1 = r2)
  /\ Bech32.Bech32_decode (js "cosmos1vqpjljwsynsn58dugz0w8ut7kun7t8ls2qkmsq")
     = Return (js "cosmos", address_seed)
  /\ length address_seed = 20%nat
  /\ exampleAddress env (ArgNumber (Int 0))
     = Bech32.Bech32_encode (NEXT_PUBLIC_ADDRESS_PREFIX env) address_seed
  /\ (forall s0 s1,
        exampleAddress env (ArgNumber (Int 0)) = Return s0 ->
        exampleAddress env (ArgNumber (Int 1)) = Return s1 ->
        s1 <> s0)
  /\ (forall prefix,
        NEXT_PUBLIC_ADDRESS_PREFIX env = Some prefix -> valid_prefix prefix ->
        forall index, returns (exampleAddress env index)).
Proof.
  split; [|split; [|split; [|split; [|split]]]].
  - intros index r1 r2 <- <-. reflexivity.
  - exact Bech32_decode_seed.
  - reflexivity.
  - rewrite exampleAddress_unfold. reflexivity.
  - intros s0 s1. rewrite !exampleAddress_unfold.
    change (iterations (or_zero (ArgNumber (Int 0)))) with 0%nat.
    change (iterations (or_zero (ArgNumber (Int 1)))) with 1%nat.
    intros E0 E1.
    apply Bech32_encode_shape in E0; [|apply exampleAddress_data_length].
    apply Bech32_encode_shape in E1; [|apply exampleAddress_data_length].
    destruct E0 as (p0 & c0 & Hp0 & ->). destruct E1 as (p1 & c1 & Hp1 & ->).
    assert (p1 = p0) as -> by congruence.
    rewrite toWords_seed_hashed.
    change (for_loop 0 _ address_seed) with address_seed. rewrite toWords_seed.
    intros H. apply app_inv_head in H. apply app_inv_head in H.
    cbn [map] in H. injection H as H _. vm_compute in H. discriminate H.
  - intros prefix Hp Hvalid index. rewrite exampleAddress_unfold, Hp.
    apply Bech32_encode_valid; [exact Hvalid|apply exampleAddress_data_length].
Qed.

Lemma exampleAddress_deterministic_witness :
  exampleAddress cosmos_env (ArgNumber (Int 0))
  = Return (js "cosmos1vqpjljwsynsn58dugz0w8ut7kun7t8ls2qkmsq")
  /\ exampleAddress cosmos_env (ArgNumber (Int 1))
     = Return (js "cosmos180gpgkfjzyymhy3x7cw6rz7nr0xdg87ns576n2")
  /\ js "cosmos180gpgkfjzyymhy3x7cw6rz7nr0xdg87ns576n2"
     <> js "cosmos1vqpjljwsynsn58dugz0w8ut7kun7t8ls2qkmsq"
  /\ returns (exampleAddress cosmos_env (ArgNumber (Int 7))).
Proof.
  assert (E0 : exampleAddress cosmos_env (ArgNumber (Int 0))
               = Return (js "cosmos1vqpjljwsynsn58dugz0w8ut7kun7t8ls2qkmsq"))
    by (vm_compute; reflexivity).
  assert (E1 : exampleAddress cosmos_env (ArgNumber (Int 1))
               = Return (js "cosmos180gpgkfjzyymhy3x7cw6rz7nr0xdg87ns576n2"))
    by (vm_compute; reflexivity).
  split; [exact E0|]. split; [exact E1|]. split.
  - exact (proj1 (proj2 (proj2 (proj2 (proj2
             (exampleAddress_deterministic cosmos_env))))) _ _ E0 E1).
  - apply (proj2 (proj2 (proj2 (proj2 (proj2
             (exampleAddress_deterministic cosmos_env))))) (js "cosmos") eq_refl).
    split; [simpl; lia|]. repeat constructor; discriminate.
Defined.

(** * Further properties of the helpers *)

(** ** Abbreviations *)

Lemma abbreviateLongString_short (s : jsstring) :
  (length s < 13)%nat -> abbreviateLongString s = s.
Proof.
  intros H. unfold abbreviateLongString.
  destruct (Z.of_nat (length s) <? 13) eqn:E; [reflexivity|].
  apply Z.ltb_ge in E. lia.
Qed.

Lemma abbreviateLongString_long (s : jsstring) :
  (13 <= length s)%nat ->
  abbreviateLongString s = firstn 5 s ++ js "..." ++ skipn (length s - 5) s.
Proof.
  intros H. unfold abbreviateLongString.
  destruct (Z.of_nat (length s) <? 13) eqn:E; [apply Z.ltb_lt in E; lia|].
  rewrite slice_prefix by lia. rewrite (slice_suffix s (-5)) by lia.
  reflexivity.
Qed.

Lemma abbreviateLongString_long_length (s : jsstring) :
  (13 <= length s)%nat -> length (abbreviateLongString s) = 13%nat.
Proof.
  intros H. rewrite abbreviateLongString_long by exact H.
  rewrite !length_app, length_firstn, length_skipn.
  change (length (js "...")) with 3%nat. lia.
Qed.

(** Abbreviating twice is abbreviating once: an abbreviation is shown
    as it is wherever it is abbreviated again. *)
Theorem abbreviateLongString_idempotent (s : jsstring) :
  abbreviateLongString (abbreviateLongString s) = abbreviateLongString s.
Proof.
  destruct (Nat.lt_ge_cases (length s) 13) as [H|H].
  - rewrite (abbreviateLongString_short s H). exact (abbreviateLongString_short s H).
  - rewrite (abbreviateLongString_long (abbreviateLongString s))
      by (rewrite abbreviateLongString_long_length; [lia|exact H]).
    rewrite (abbreviateLongString_long_length s H).
    rewrite (abbreviateLongString_long s H).
    assert (L : length (firstn 5 s) = 5%nat) by (rewrite length_firstn; lia).
    rewrite firstn_app, L, firstn_firstn, Nat.sub_diag, firstn_O, app_nil_r.
    rewrite skipn_app, L. rewrite (skipn_all2 (firstn 5 s)) by lia.
    reflexivity.
Qed.

(** The abbreviation begins with the same five code units as the string
    and ends with the same five, and it is never longer than the string. *)
Theorem abbreviateLongString_keeps_ends (s : jsstring) :
  firstn 5 (abbreviateLongString s) = firstn 5 s
  /\ skipn (length (abbreviateLongString s) - 5) (abbreviateLongString s)
     = skipn (length s - 5) s
  /\ (length (abbreviateLongString s) <= length s)%nat.
Proof.
  destruct (Nat.lt_ge_cases (length s) 13) as [H|H].
  - rewrite abbreviateLongString_short by exact H. repeat split. lia.
  - rewrite (abbreviateLongString_long_length s H).
    rewrite (abbreviateLongString_long s H).
    assert (L : length (firstn 5 s) = 5%nat) by (rewrite length_firstn; lia).
    split; [|split; [|lia]].
    + now rewrite firstn_app, L, firstn_firstn, Nat.sub_diag, firstn_O, app_nil_r.
    + rewrite skipn_app, L. rewrite (skipn_all2 (firstn 5 s)) by lia.
      reflexivity.
Qed.

(** ** The index of the example generators *)

Lemma iterations_nonpositive (z : Z) :
  z <= 0 -> iterations (or_zero (ArgNumber (Int z))) = 0%nat.
Proof.
  intros H. unfold or_zero, argument_truthy.
  destruct (z =? 0); simpl; [reflexivity|lia].
Qed.

(** An index below zero is an index of zero: the loops of both
    generators do not run, [exampleAddress] gives the address of index 0
    and [examplePubkey] the seed key. *)
Theorem example_generators_negative_index (env : Env) (z : Z) :
  z <= 0 ->
  exampleAddress env (ArgNumber (Int z)) = exampleAddress env (ArgNumber (Int 0))
  /\ examplePubkey (ArgNumber (Int z))
     = Return (js "Akd/qKMWdZXyiMnSu6aFLpQEGDO0ijyal9mXUIcVaPNX").
Proof.
  intros H. split.
  - rewrite !exampleAddress_unfold.
    rewrite (iterations_nonpositive z H), (iterations_nonpositive 0) by lia.
    reflexivity.
  - unfold examplePubkey. cbv zeta. rewrite fromBase64_pubkey_seed.
    unfold bind. rewrite (iterations_nonpositive z H).
    cbn [for_loop]. now rewrite toBase64_pubkey_seed.
Qed.

Lemma example_generators_negative_index_witness :
  exampleAddress cosmos_env (ArgNumber (Int (-3)))
  = exampleAddress cosmos_env (ArgNumber (Int 0))
  /\ examplePubkey (ArgNumber (Int (-3)))
     = Return (js "Akd/qKMWdZXyiMnSu6aFLpQEGDO0ijyal9mXUIcVaPNX").
Proof. apply (example_generators_negative_index cosmos_env (-3)). lia. Defined.

(** ** Coins without a denom, and redundant configurations *)

(** A coin whose denom is [null] is always printed plainly, with the
    text "null" for the denom.  A coin whose denom is [undefined] is
    printed plainly when a native denom is configured, and by the native
    rule when none is: the missing denom then equals the missing
    variable. *)
Theorem printableCoin_missing_denom (env : Env) (coin : Coin) :
  (denom coin = Null ->
     printableCoin env (Some coin)
     = Return (to_string (amount coin) ++ thinSpace ++ js "null"))
  /\ (denom coin = Undefined -> NEXT_PUBLIC_DENOM env <> None ->
      printableCoin env (Some coin)
      = Return (to_string (amount coin) ++ thinSpace ++ js "undefined"))
  /\ (denom coin = Undefined -> NEXT_PUBLIC_DENOM env = None ->
      printableCoin env (Some coin)
      = (d <- DecimalMath.fromAtomics (nullish (amount coin) (js "0"))
                                      (NEXT_PUBLIC_DISPLAY_DENOM_EXPONENT env) ;;
         Return (DecimalMath.toString d ++ thinSpace
                   ++ to_string (of_env (NEXT_PUBLIC_DISPLAY_DENOM env))))).
Proof.
  split; [|split].
  - intros H. rewrite printableCoin_plain; rewrite H; try reflexivity.
    destruct (NEXT_PUBLIC_DENOM env); discriminate.
  - intros H Hn. rewrite printableCoin_plain; rewrite H; try reflexivity.
    destruct (NEXT_PUBLIC_DENOM env); [discriminate|congruence].
  - intros H Hn. apply printableCoin_native. now rewrite H, Hn.
Qed.

Lemma printableCoin_missing_denom_witness :
  printableCoin cosmos_env (Some (mkCoin (Str (js "5")) Null))
  = Return (js "5" ++ thinSpace ++ js "null")
  /\ printableCoin cosmos_env (Some (mkCoin (Str (js "5")) Undefined))
     = Return (js "5" ++ thinSpace ++ js "undefined")
  /\ printableCoin (without_native_denom cosmos_env)
       (Some (mkCoin (Str (js "5")) Undefined))
     = Return (js "0.000005" ++ thinSpace ++ js "ATOM").
Proof.
  split; [|split].
  - apply (proj1 (printableCoin_missing_denom cosmos_env
             (mkCoin (Str (js "5")) Null)) eq_refl).
  - apply (proj1 (proj2 (printableCoin_missing_denom cosmos_env
             (mkCoin (Str (js "5")) Undefined))) eq_refl).
    simpl. discriminate.
  - apply (proj2 (proj2 (printableCoin_missing_denom (without_native_denom cosmos_env)
             (mkCoin (Str (js "5")) Undefined))) eq_refl eq_refl).
Defined.

(** Naming a micro denom as the native one, with the exponent 6 and its
    upper-case ticker, changes nothing: every coin with a denom is
    printed as it is without a native denom. *)
Theorem printableCoin_native_as_micro (env : Env) (d x : jsstring) (coin : Coin) :
  NEXT_PUBLIC_DENOM env = Some d ->
  starts_with (js "u") d = true ->
  NEXT_PUBLIC_DISPLAY_DENOM_EXPONENT env = Int 6 ->
  NEXT_PUBLIC_DISPLAY_DENOM env = Some (toUpperCase (skipn 1 d)) ->
  denom coin = Str x ->
  printableCoin env (Some coin) = printableCoin (without_native_denom env) (Some coin).
Proof.
  intros Hd Hu He Ht Hx.
  destruct (list_eq_dec N.eq_dec x d) as [->|Hne].
  - rewrite (printableCoin_native env coin) by (now rewrite Hx, Hd).
    rewrite (printableCoin_micro (without_native_denom env) coin d Hx)
      by (first [exact Hu | simpl; discriminate]). now rewrite He, Ht.
  - unfold printableCoin.
    assert (E1 : strict_eq (denom coin) (of_env (NEXT_PUBLIC_DENOM env)) = false).
    { apply strict_eq_neq. rewrite Hx, Hd. simpl. congruence. }
    assert (E2 : strict_eq (denom coin)
                   (of_env (NEXT_PUBLIC_DENOM (without_native_denom env))) = false).
    { apply strict_eq_neq. rewrite Hx. simpl. discriminate. }
    now rewrite E1, E2.
Qed.

Lemma printableCoin_native_as_micro_witness :
  printableCoin xyz_env (Some (mkCoin (Str (js "1500000")) (Str (js "uxyz"))))
  = printableCoin (without_native_denom xyz_env)
      (Some (mkCoin (Str (js "1500000")) (Str (js "uxyz")))).
Proof.
  apply (printableCoin_native_as_micro xyz_env (js "uxyz") (js "uxyz")); reflexivity.
Defined.

(** ** Links for templates without a placeholder *)

(** A template without "%s" is the link of every hash: the hash is not
    used. *)
Theorem explorerLinkTx_without_placeholder (env : Env) (template hash : jsstring) :
  NEXT_PUBLIC_EXPLORER_LINK_TX env = Some template -> template <> [] ->
  ~ occurs (js "%s") template ->
  explorerLinkTx env hash = Some template.
Proof.
  intros Ht Hne Ho. unfold explorerLinkTx. rewrite Ht.
  destruct template as [|c t]; [congruence|].
  f_equal. now apply replace_absent.
Qed.

Lemma explorerLinkTx_without_placeholder_witness :
  explorerLinkTx plain_link_env (js "$&")
  = Some (js "https://www.mintscan.io/cosmos/txs").
Proof.
  apply (explorerLinkTx_without_placeholder plain_link_env
           (js "https://www.mintscan.io/cosmos/txs") (js "$&")).
  - reflexivity.
  - discriminate.
  - intros H. destruct (split_at_first_complete _ _ H) as (b & a & E).
    vm_compute in E. discriminate E.
Defined.

(** ** The case of letters *)

Ltac unit_cases :=
  unfold lower_unit, upper_unit;
  repeat match goal with
         | |- context [if ?b then _ else _] => destruct b eqn:?
         end;
  repeat match goal with
         | H : (_ && _)%bool = true |- _ => apply andb_true_iff in H; destruct H
         | H : (_ && _)%bool = false |- _ => apply andb_false_iff in H; destruct H
         | H : (_ <=? _)%N = true |- _ => apply N.leb_le in H
         | H : (_ <=? _)%N = false |- _ => apply N.leb_gt in H
         end;
  lia.

Lemma upper_unit_idempotent (c : N) : upper_unit (upper_unit c) = upper_unit c.
Proof. unit_cases. Qed.

Lemma lower_upper_unit (c : N) : lower_unit (upper_unit c) = lower_unit c.
Proof. unit_cases. Qed.

Lemma toUpperCase_ascii_fixed (s : jsstring) :
  is_ascii s -> toUpperCase (toUpperCase s) = toUpperCase s.
Proof.
  intros H. rewrite (toUpperCase_ascii s H).
  rewrite toUpperCase_ascii.
  - rewrite map_map. apply map_ext, upper_unit_idempotent.
  - apply Forall_map. eapply Forall_impl; [|exact H]. apply upper_unit_ascii.
Qed.

Lemma toLowerCase_toUpperCase_ascii (s : jsstring) :
  is_ascii s -> toLowerCase (toUpperCase s) = toLowerCase s.
Proof.
  intros H. rewrite (toUpperCase_ascii s H), (toLowerCase_ascii s H).
  rewrite toLowerCase_ascii.
  - rewrite map_map. apply map_ext, lower_upper_unit.
  - apply Forall_map. eapply Forall_impl; [|exact H]. apply upper_unit_ascii.
Qed.

(** ** What the decoder returns and throws *)

Lemma Throw_inj {A} (e1 e2 : error) : @Throw A e1 = Throw e2 -> e1 = e2.
Proof. intros H. now injection H. Qed.

Lemma lastIndexOf_range (c : N) (s : jsstring) (i found : Z) :
  0 <= i -> found = -1 \/ 0 <= found < i ->
  Bech32.lastIndexOf c s i found = -1
  \/ 0 <= Bech32.lastIndexOf c s i found < i + Z.of_nat (length s).
Proof.
  revert i found. induction s as [|x s IH]; intros i found Hi Hf; simpl.
  - destruct Hf as [->|Hf]; [now left|right; lia].
  - destruct (IH (i + 1) (if (x =? c)%N then i else found)) as [H|H].
    + lia.
    + destruct (x =? c)%N; [right; lia|]. destruct Hf; [now left|right; lia].
    + now left.
    + right. lia.
Qed.

Lemma prefixChk_high_returns (prefix rest : jsstring) (chk chk' : Z) :
  Bech32.prefixChk_high prefix rest chk = inr chk' ->
  Forall (fun c => (33 <= c <= 126)%N) rest.
Proof.
  revert chk. induction rest as [|c rest IH]; intros chk; [constructor|].
  cbn [Bech32.prefixChk_high].
  destruct (c <? 33)%N eqn:E1; [discriminate|].
  destruct (126 <? c)%N eqn:E2; [discriminate|]. cbn [orb].
  intros H. apply N.ltb_ge in E1, E2. constructor; [lia|].
  now apply IH in H.
Qed.

(** A prefix whose checksum can be taken is printable. *)
Lemma prefixChk_returns (prefix : jsstring) (chk : Z) :
  Bech32.prefixChk prefix = inr chk -> Forall (fun c => (33 <= c <= 126)%N) prefix.
Proof.
  unfold Bech32.prefixChk.
  destruct (Bech32.prefixChk_high prefix prefix 1) as [msg|chk'] eqn:E; [discriminate|].
  intros _. now apply prefixChk_high_returns in E.
Qed.

Lemma ALPHABET_MAP_ascii (c : N) (v : Z) :
  Bech32.ALPHABET_MAP c = Some v -> (c < 128)%N.
Proof.
  unfold Bech32.ALPHABET_MAP.
  assert (All : Forall (fun x => (x < 128)%N) Bech32.ALPHABET)
    by (repeat constructor).
  revert All. generalize 0. generalize Bech32.ALPHABET.
  intros l. induction l as [|x l IH]; intros i All; [discriminate|].
  cbn [Bech32.ALPHABET_MAP_from]. inversion All as [|? ? Hx Hl]; subst.
  destruct (x =? c)%N eqn:E.
  - apply N.eqb_eq in E. now subst c.
  - now apply IH.
Qed.

Lemma decode_words_returns (wordChars : jsstring) (chk : Z) (words : list Z)
  (r : Z * list Z) :
  Bech32.decode_words wordChars chk words = inr r -> is_ascii wordChars.
Proof.
  revert chk words. induction wordChars as [|c rest IH]; intros chk words;
    [constructor|].
  cbn [Bech32.decode_words].
  destruct (Bech32.ALPHABET_MAP c) as [v|] eqn:E; [|discriminate].
  cbv zeta. intros H. constructor; [now apply ALPHABET_MAP_ascii in E|].
  destruct (6 <=? Z.of_nat (length rest)); now apply IH in H.
Qed.

Lemma lastIndexOf_found (c : N) (s : jsstring) (i found : Z) :
  Bech32.lastIndexOf c s i found <> found ->
  i <= Bech32.lastIndexOf c s i found
  /\ nth_error s (Z.to_nat (Bech32.lastIndexOf c s i found - i)) = Some c.
Proof.
  revert i found. induction s as [|x s IH]; intros i found; cbn [Bech32.lastIndexOf].
  - congruence.
  - intros H. destruct (x =? c)%N eqn:E.
    + apply N.eqb_eq in E. subst x.
      destruct (Z.eq_dec (Bech32.lastIndexOf c s (i + 1) i) i) as [Ei|Ei].
      * rewrite Ei, Z.sub_diag. split; [lia|reflexivity].
      * destruct (IH (i + 1) i Ei) as [Hle Hn]. split; [lia|].
        replace (Z.to_nat (Bech32.lastIndexOf c s (i + 1) i - i))
          with (S (Z.to_nat (Bech32.lastIndexOf c s (i + 1) i - (i + 1)))) by lia.
        exact Hn.
    + destruct (IH (i + 1) found H) as [Hle Hn]. split; [lia|].
      replace (Z.to_nat (Bech32.lastIndexOf c s (i + 1) found - i))
        with (S (Z.to_nat (Bech32.lastIndexOf c s (i + 1) found - (i + 1)))) by lia.
      exact Hn.
Qed.

Lemma skipn_nth_error {A} (l : list A) (n : nat) (x : A) :
  nth_error l n = Some x -> skipn n l = x :: skipn (S n) l.
Proof.
  revert l. induction n as [|n IH]; intros [|y l] H; try discriminate H.
  - simpl in H. injection H as ->. reflexivity.
  - apply (IH l H).
Qed.

(** The text the decoder takes is in one case; its lower case is a text
    of ASCII of at least eight units, and the prefix returned is a
    non-empty piece of it, printable and in lower case. *)
Lemma decode_returns (str prefix : jsstring) (words : list Z) :
  Bech32.decode str = Return (prefix, words) ->
  (8 <= length str)%nat
  /\ (jsstring_eqb str (toLowerCase str) = true
      \/ jsstring_eqb str (toUpperCase str) = true)
  /\ prefix <> []
  /\ toLowerCase prefix = prefix
  /\ is_ascii (toLowerCase str)
  /\ (8 <= length (toLowerCase str))%nat.
Proof.
  unfold Bech32.decode. cbv zeta.
  destruct (Z.of_nat (length str) <? 8) eqn:E8; [discriminate|].
  apply Z.ltb_ge in E8.
  assert (Hcap := toLowerCase_no_capital str).
  set (low := toLowerCase str) in *. clearbody low.
  destruct (negb (jsstring_eqb str low)
            && negb (jsstring_eqb str (toUpperCase str))) eqn:Emix; [discriminate|].
  set (split := Bech32.lastIndexOf 49%N low 0 (-1)).
  destruct (split =? -1) eqn:E1; [discriminate|].
  destruct (split =? 0) eqn:E0; [discriminate|].
  destruct (Z.of_nat (length (slice low (split + 1) None)) <? 6) eqn:E6;
    [discriminate|].
  destruct (Bech32.prefixChk _) as [msg|chk] eqn:Ep; [discriminate|].
  destruct (Bech32.decode_words _ chk []) as [msg|[chk' words']] eqn:Ew;
    [discriminate|].
  destruct (negb (chk' =? 1)); [discriminate|].
  intros H. apply Return_inj in H. injection H as Hp _.
  apply Z.eqb_neq in E1, E0. apply Z.ltb_ge in E6.
  assert (Hsplit : 0 < split < Z.of_nat (length low)).
  { destruct (lastIndexOf_range 49%N low 0 (-1)) as [H|H];
      [lia|now left|fold split in H; lia|fold split in H; lia]. }
  apply prefixChk_returns in Ep. apply decode_words_returns in Ew.
  rewrite Hp in Ep.
  assert (Hnth : nth_error low (Z.to_nat split) = Some 49%N).
  { destruct (lastIndexOf_found 49%N low 0 (-1)) as [_ Hn]; [exact E1|].
    fold split in Hn. now rewrite Z.sub_0_r in Hn. }
  rewrite slice_from in Ew, E6 by lia.
  rewrite slice_prefix in Hp by lia.
  assert (Parts : low = prefix ++ 49%N :: skipn (Z.to_nat (split + 1)) low).
  { rewrite <- (firstn_skipn (Z.to_nat split) low) at 1. rewrite Hp. f_equal.
    replace (Z.to_nat (split + 1)) with (S (Z.to_nat split)) by lia.
    now apply skipn_nth_error. }
  split; [lia|]. split.
  { apply andb_false_iff in Emix.
    destruct Emix as [H|H]; apply negb_false_iff in H; auto. }
  split.
  { subst prefix. intros H.
    apply (f_equal (@length N)) in H. rewrite length_firstn in H. simpl in H. lia. }
  split.
  { apply toLowerCase_fixed; [now apply printable_is_ascii|].
    subst prefix. rewrite <- (firstn_skipn (Z.to_nat split) low) in Hcap.
    apply Forall_app in Hcap. now destruct Hcap. }
  split.
  { rewrite Parts. apply Forall_app. split; [now apply printable_is_ascii|].
    constructor; [lia|exact Ew]. }
  rewrite length_skipn in E6. lia.
Qed.

(** Every error of the decoder is an [Error] with a message. *)
Lemma decode_throws (str : jsstring) (err : error) :
  Bech32.decode str = Throw err -> err_name err = js "Error".
Proof.
  unfold Bech32.decode. cbv zeta.
  repeat match goal with
         | |- context [if ?b then _ else _] => destruct b
         | |- context [match ?x with inl _ => _ | inr _ => _ end] => destruct x
         | |- context [let (_, _) := ?x in _] => destruct x
         end;
    intros H; try discriminate H; apply Throw_inj in H; now subst err.
Qed.

Lemma Bech32_decode_throws (address : jsstring) (err : error) :
  Bech32.Bech32_decode address = Throw err -> err_name err = js "Error".
Proof.
  unfold Bech32.Bech32_decode.
  destruct (Bech32.decode address) as [[p w]|e] eqn:D; simpl.
  - unfold Bech32.fromWords. destruct (Bech32.convert w 5 8 false); simpl;
      intros H; [apply Throw_inj in H; now subst err|discriminate H].
  - intros H. apply Throw_inj in H. subst e. now apply decode_throws in D.
Qed.

Lemma Bech32_decode_returns (address prefix : jsstring) (data : Uint8Array) :
  Bech32.Bech32_decode address = Return (prefix, data) ->
  exists words, Bech32.decode address = Return (prefix, words).
Proof.
  unfold Bech32.Bech32_decode.
  destruct (Bech32.decode address) as [[p w]|e]; simpl; [|discriminate].
  destruct (Bech32.fromWords w); simpl; [|discriminate].
  intros H. apply Return_inj in H. injection H as -> _.
  now exists w.
Qed.

(** Texts that differ in the case of their letters only decode alike. *)
Lemma decode_same_letters (s t : jsstring) :
  (8 <= length s)%nat -> (8 <= length t)%nat ->
  toLowerCase t = toLowerCase s ->
  jsstring_eqb s (toLowerCase s) = true \/ jsstring_eqb s (toUpperCase s) = true ->
  jsstring_eqb t (toLowerCase t) = true \/ jsstring_eqb t (toUpperCase t) = true ->
  Bech32.decode t = Bech32.decode s.
Proof.
  intros Hlen Ht Hlow Hs Htt. unfold Bech32.decode. cbv zeta.
  destruct (Z.of_nat (length s) <? 8) eqn:E8; [apply Z.ltb_lt in E8; lia|].
  destruct (Z.of_nat (length t) <? 8) eqn:E8'; [apply Z.ltb_lt in E8'; lia|].
  assert (Es : negb (jsstring_eqb s (toLowerCase s))
               && negb (jsstring_eqb s (toUpperCase s)) = false).
  { destruct Hs as [-> | ->]; simpl; [reflexivity|apply andb_false_r]. }
  assert (Et : negb (jsstring_eqb t (toLowerCase t))
               && negb (jsstring_eqb t (toUpperCase t)) = false).
  { destruct Htt as [-> | ->]; simpl; [reflexivity|apply andb_false_r]. }
  rewrite Es, Et, Hlow. reflexivity.
Qed.

Lemma checkAddress_null (env : Env) (input : field) :
  checkAddress env input = Return None ->
  exists address prefix data,
    input = Str address
    /\ Bech32.Bech32_decode address = Return (prefix, data)
    /\ NEXT_PUBLIC_ADDRESS_PREFIX env = Some prefix
    /\ length data = 20%nat.
Proof.
  intros H. destruct input as [| |[|c address]]; try discriminate H.
  destruct (Bech32.Bech32_decode (c :: address)) as [[prefix data]|err] eqn:D.
  - rewrite (checkAddress_decoded env _ prefix data D) in H.
    destruct (strict_eq _ _) eqn:P; [|discriminate H].
    destruct (_ =? 20) eqn:L; [|discriminate H].
    apply prefix_test in P. apply Z.eqb_eq in L.
    exists (c :: address), prefix, data. repeat split; [exact D|exact P|lia].
  - rewrite (checkAddress_undecoded env _ err) in H; [discriminate H| |exact D].
    discriminate.
Qed.

Lemma checkAddress_returns (env : Env) (input : field) :
  exists result, checkAddress env input = Return result.
Proof.
  destruct input as [| |[|c address]]; try (eexists; reflexivity).
  destruct (Bech32.Bech32_decode (c :: address)) as [[prefix data]|err] eqn:D.
  - rewrite (checkAddress_decoded env _ prefix data D). eexists. reflexivity.
  - rewrite (checkAddress_undecoded env _ err); [eexists; reflexivity| |exact D].
    discriminate.
Qed.

Lemma error_toString_nonempty (err : error) :
  err_name err = js "Error" -> error_toString err <> [].
Proof.
  destruct err as [name message]. simpl. intros ->.
  unfold error_toString. simpl. destruct message; discriminate.
Qed.

(** ** Messages and configurations of the address check *)

(** A message of [checkAddress] is never the empty string: a caller
    that tests the result for truth sees every failure. *)
Theorem checkAddress_message_nonempty (env : Env) (input : field) (msg : jsstring) :
  checkAddress env input = Return (Some msg) -> msg <> [].
Proof.
  intros H. destruct input as [| |[|c address]];
    try (apply Return_inj in H; injection H as <-; discriminate).
  destruct (Bech32.Bech32_decode (c :: address)) as [[prefix data]|err] eqn:D.
  - rewrite (checkAddress_decoded env _ prefix data D) in H.
    apply Return_inj in H.
    destruct (negb (strict_eq _ _)); [injection H as <-; discriminate|].
    destruct (negb (_ =? 20)); [injection H as <-; discriminate|discriminate H].
  - rewrite (checkAddress_undecoded env _ err) in H; [| |exact D]; [|discriminate].
    apply Return_inj in H. injection H as <-.
    apply error_toString_nonempty. now apply Bech32_decode_throws in D.
Qed.

Lemma checkAddress_message_nonempty_witness :
  js "Expected address prefix 'cosmos' but got 'osmo'" <> [].
Proof.
  apply (checkAddress_message_nonempty cosmos_env
           (Str (js "osmo1vqpjljwsynsn58dugz0w8ut7kun7t8lszm9txj"))).
  vm_compute. reflexivity.
Defined.

(** [checkAddress] accepts an input only under a configured prefix that
    is not empty and holds no upper-case letter: with the prefix unset,
    empty or holding such a letter, every input gets a message. *)
Theorem checkAddress_needs_lower_case_prefix (env : Env) (input : field) :
  NEXT_PUBLIC_ADDRESS_PREFIX env = None
  \/ NEXT_PUBLIC_ADDRESS_PREFIX env = Some []
  \/ (exists prefix, NEXT_PUBLIC_ADDRESS_PREFIX env = Some prefix
                     /\ toLowerCase prefix <> prefix) ->
  exists msg, checkAddress env input = Return (Some msg).
Proof.
  intros Hcfg. destruct (checkAddress_returns env input) as [[msg|] H].
  - now exists msg.
  - exfalso. destruct (checkAddress_null env input H)
      as (address & prefix & data & _ & D & P & _).
    destruct (Bech32_decode_returns _ _ _ D) as [words Dw].
    destruct (decode_returns _ _ _ Dw) as (_ & _ & Hne & Hlow & _).
    destruct Hcfg as [Hc|[Hc|(p & Hc & Hp)]]; congruence.
Qed.

Lemma checkAddress_needs_lower_case_prefix_witness :
  exists msg,
    checkAddress capital_env (Str (js "cosmos1vqpjljwsynsn58dugz0w8ut7kun7t8ls2qkmsq"))
    = Return (Some msg).
Proof.
  apply checkAddress_needs_lower_case_prefix.
  right. right. exists (js "Cosmos"). split; [reflexivity|].
  vm_compute. discriminate.
Defined.

(** An address that [checkAddress] accepts is accepted in upper case and
    in lower case as well. *)
Theorem checkAddress_letter_case (env : Env) (address : jsstring) :
  checkAddress env (Str address) = Return None ->
  checkAddress env (Str (toUpperCase address)) = Return None
  /\ checkAddress env (Str (toLowerCase address)) = Return None.
Proof.
  intros H. destruct (checkAddress_null env _ H)
    as (a & prefix & data & Ha & D & P & L).
  injection Ha as <-.
  destruct (Bech32_decode_returns _ _ _ D) as [words Dw].
  destruct (decode_returns _ _ _ Dw) as (Hlen & Hcase & _ & _ & Hascii & Hlow).
  assert (Accept : forall t, Bech32.decode t = Bech32.decode address ->
                             checkAddress env (Str t) = Return None).
  { intros t Ht.
    rewrite (checkAddress_decoded env t prefix data).
    - apply prefix_test in P. rewrite P, L. reflexivity.
    - unfold Bech32.Bech32_decode in *. now rewrite Ht. }
  assert (Fixed : toLowerCase (toLowerCase address) = toLowerCase address)
    by (apply toLowerCase_fixed; [exact Hascii|apply toLowerCase_no_capital]).
  split.
  - destruct Hcase as [Hcase|Hcase]; apply jsstring_eqb_eq in Hcase.
    + (* the address is in lower case, and so a text of ASCII *)
      rewrite <- Hcase in Hascii.
      apply Accept, decode_same_letters; try exact Hlen.
      * rewrite (toUpperCase_ascii address Hascii), length_map. exact Hlen.
      * now apply toLowerCase_toUpperCase_ascii.
      * now left; apply jsstring_eqb_eq.
      * right. apply jsstring_eqb_eq. symmetry. now apply toUpperCase_ascii_fixed.
    + (* the address is in upper case already *)
      now rewrite <- Hcase.
  - apply Accept, decode_same_letters; try exact Hlen; try exact Hlow;
      try exact Hcase; try exact Fixed.
    left. apply jsstring_eqb_eq. now symmetry.
Qed.

Lemma checkAddress_letter_case_witness :
  checkAddress cosmos_env (Str (js "COSMOS1VQPJLJWSYNSN58DUGZ0W8UT7KUN7T8LS2QKMSQ"))
  = Return None.
Proof.
  apply (proj1 (checkAddress_letter_case cosmos_env
                  (js "cosmos1vqpjljwsynsn58dugz0w8ut7kun7t8ls2qkmsq")
                  ltac:(vm_compute; reflexivity))).
Defined.

(** ** Bit operations as arithmetic *)

Lemma lor_shiftl_low (hi lo k : Z) :
  0 <= k -> 0 <= lo < 2 ^ k -> Z.lor (Z.shiftl hi k) lo = hi * 2 ^ k + lo.
Proof.
  intros Hk Hlo. rewrite <- Z.shiftl_mul_pow2 by lia.
  assert (D : Z.land (Z.shiftl hi k) lo = 0).
  { apply Z.bits_inj'. intros n Hn. rewrite Z.land_spec, Z.bits_0.
    destruct (Z.lt_ge_cases n k).
    - now rewrite Z.shiftl_spec_low by lia.
    - rewrite <- (Z.mod_small lo (2 ^ k)) by lia.
      rewrite Z.mod_pow2_bits_high by lia. apply andb_false_r. }
  rewrite <- Z.lxor_lor by exact D. symmetry. now apply Z.add_nocarry_lxor.
Qed.

(** The union of two numbers without a common bit is their sum. *)
Lemma lor_add_disjoint (k hi lo : Z) :
  0 <= k -> 0 <= lo < 2 ^ k -> hi mod 2 ^ k = 0 -> Z.lor hi lo = hi + lo.
Proof.
  intros Hk Hlo Hhi.
  rewrite (Z.div_mod hi (2 ^ k)) at 1 by lia. rewrite Hhi, Z.add_0_r.
  rewrite Z.mul_comm, <- Z.shiftl_mul_pow2 by lia.
  rewrite lor_shiftl_low by lia.
  rewrite (Z.div_mod hi (2 ^ k)) at 2 by lia. lia.
Qed.

Ltac pow2 :=
  repeat match goal with
         | |- context [2 ^ ?n] =>
             let v := eval vm_compute in (2 ^ n) in change (2 ^ n) with v
         end.

(** Shifts and masks by constants, written with products, quotients
    and remainders. *)
Ltac to_arith :=
  change 63 with (Z.ones 6); change 255 with (Z.ones 8); change 31 with (Z.ones 5);
  rewrite ?Z.land_ones, ?Z.shiftl_mul_pow2, ?Z.shiftr_div_pow2 by lia; pow2.

Lemma Z_of_byte_range (b : byte) : 0 <= Z_of_byte b < 256.
Proof. unfold Z_of_byte. pose proof (Byte.to_N_bounded b). lia. Qed.

Lemma byte_of_Z_of_byte (b : byte) : byte_of_Z (Z_of_byte b) = b.
Proof.
  unfold byte_of_Z. rewrite Z.mod_small by apply Z_of_byte_range.
  unfold Z_of_byte. now rewrite N2Z.id, Byte.of_to_N.
Qed.

Lemma bytes_of_Z_of_bytes (data : Uint8Array) :
  map byte_of_Z (map Z_of_byte data) = data.
Proof.
  rewrite map_map. rewrite <- (map_id data) at 2.
  apply map_ext, byte_of_Z_of_byte.
Qed.

(** ** The round trip of base64 *)

Lemma base64_digit (v : Z) :
  0 <= v < 64 ->
  Base64.lookup (Base64.charAt v) = v
  /\ Base64.is_digit (Base64.charAt v) = true
  /\ (Base64.charAt v =? Base64.pad_unit)%N = false.
Proof.
  intros Hv.
  assert (All : forallb
                  (fun n => let v := Z.of_nat n in
                            (Base64.lookup (Base64.charAt v) =? v)
                            && Base64.is_digit (Base64.charAt v)
                            && negb (Base64.charAt v =? Base64.pad_unit)%N)
                  (seq 0 64) = true) by (vm_compute; reflexivity).
  rewrite forallb_forall in All.
  specialize (All (Z.to_nat v)). rewrite Z2Nat.id in All by lia.
  cbv zeta in All.
  assert (H := All ltac:(apply in_seq; lia)).
  apply andb_true_iff in H. destruct H as [H H3].
  apply andb_true_iff in H. destruct H as [H1 H2].
  apply Z.eqb_eq in H1. apply negb_true_iff in H3. auto.
Qed.

Lemma well_formed_cons (c : N) (s : jsstring) :
  Base64.is_digit c = true -> Base64.well_formed s = true ->
  Base64.well_formed (c :: s) = true.
Proof.
  intros Hc Hs. destruct s as [|d [|e s]].
  - simpl. now rewrite Hc.
  - simpl in *. now rewrite Hc, Hs.
  - change (Base64.is_digit c && Base64.well_formed (d :: e :: s) = true).
    now rewrite Hc, Hs.
Qed.

Lemma encode_triple (a b c : Z) (rest : list Z) :
  Base64.encode (a :: b :: c :: rest)
  = Base64.charAt (Z.land (Z.shiftr (Z.shiftl a 16 + Z.shiftl b 8 + c) 18) 63)
    :: Base64.charAt (Z.land (Z.shiftr (Z.shiftl a 16 + Z.shiftl b 8 + c) 12) 63)
    :: Base64.charAt (Z.land (Z.shiftr (Z.shiftl a 16 + Z.shiftl b 8 + c) 6) 63)
    :: Base64.charAt (Z.land (Z.shiftl a 16 + Z.shiftl b 8 + c) 63)
    :: Base64.encode rest.
Proof. reflexivity. Qed.

Lemma decode_quad (c1 c2 c3 c4 : N) (rest : jsstring) :
  (c3 =? Base64.pad_unit)%N = false -> (c4 =? Base64.pad_unit)%N = false ->
  Base64.decode (c1 :: c2 :: c3 :: c4 :: rest)
  = (let tmp := Z.lor (Z.lor (Z.shiftl (Base64.lookup c1) 18)
                             (Z.shiftl (Base64.lookup c2) 12))
                      (Z.lor (Z.shiftl (Base64.lookup c3) 6) (Base64.lookup c4)) in
     Z.land (Z.shiftr tmp 16) 255 :: Z.land (Z.shiftr tmp 8) 255
       :: Z.land tmp 255 :: Base64.decode rest).
Proof. intros H3 H4. cbn [Base64.decode]. rewrite H3, H4. reflexivity. Qed.

Lemma triple_sextets (a b c : Z) :
  0 <= a < 256 -> 0 <= b < 256 -> 0 <= c < 256 ->
  let tmp := Z.shiftl a 16 + Z.shiftl b 8 + c in
  let v1 := Z.land (Z.shiftr tmp 18) 63 in
  let v2 := Z.land (Z.shiftr tmp 12) 63 in
  let v3 := Z.land (Z.shiftr tmp 6) 63 in
  let v4 := Z.land tmp 63 in
  let t := Z.lor (Z.lor (Z.shiftl v1 18) (Z.shiftl v2 12))
                 (Z.lor (Z.shiftl v3 6) v4) in
  (0 <= v1 < 64 /\ 0 <= v2 < 64 /\ 0 <= v3 < 64 /\ 0 <= v4 < 64)
  /\ Z.land (Z.shiftr t 16) 255 = a
  /\ Z.land (Z.shiftr t 8) 255 = b
  /\ Z.land t 255 = c.
Proof.
  intros Ha Hb Hc tmp v1 v2 v3 v4 t.
  assert (Hv : 0 <= v1 < 64 /\ 0 <= v2 < 64 /\ 0 <= v3 < 64 /\ 0 <= v4 < 64).
  { subst v1 v2 v3 v4 tmp. to_arith. repeat split; Z.div_mod_to_equations; lia. }
  split; [exact Hv|].
  assert (Ht : t = tmp).
  { subst t.
    rewrite (lor_add_disjoint 18 (Z.shiftl v1 18) (Z.shiftl v2 12));
      [rewrite (lor_add_disjoint 6 (Z.shiftl v3 6) v4);
       [rewrite (lor_add_disjoint 12)|..]|..];
      subst v1 v2 v3 v4 tmp; to_arith; try lia;
      Z.div_mod_to_equations; lia. }
  rewrite Ht. subst tmp. to_arith. repeat split; Z.div_mod_to_equations; lia.
Qed.

Lemma pair_sextets (a b : Z) :
  0 <= a < 256 -> 0 <= b < 256 ->
  let tmp := Z.shiftl a 8 + b in
  let v1 := Z.shiftr tmp 10 in
  let v2 := Z.land (Z.shiftr tmp 4) 63 in
  let v3 := Z.land (Z.shiftl tmp 2) 63 in
  let t := Z.lor (Z.lor (Z.shiftl v1 10) (Z.shiftl v2 4)) (Z.shiftr v3 2) in
  (0 <= v1 < 64 /\ 0 <= v2 < 64 /\ 0 <= v3 < 64)
  /\ Z.land (Z.shiftr t 8) 255 = a
  /\ Z.land t 255 = b.
Proof.
  intros Ha Hb tmp v1 v2 v3 t.
  assert (Hv : 0 <= v1 < 64 /\ 0 <= v2 < 64 /\ 0 <= v3 < 64).
  { subst v1 v2 v3 tmp. to_arith. repeat split; Z.div_mod_to_equations; lia. }
  split; [exact Hv|].
  assert (Ht : t = tmp).
  { subst t.
    rewrite (lor_add_disjoint 10 (Z.shiftl v1 10) (Z.shiftl v2 4));
      [rewrite (lor_add_disjoint 4)|..];
      subst v1 v2 v3 tmp; to_arith; try lia;
      Z.div_mod_to_equations; lia. }
  rewrite Ht. subst tmp. to_arith. repeat split; Z.div_mod_to_equations; lia.
Qed.

Lemma single_sextets (a : Z) :
  0 <= a < 256 ->
  let v1 := Z.shiftr a 2 in
  let v2 := Z.land (Z.shiftl a 4) 63 in
  let t := Z.lor (Z.shiftl v1 2) (Z.shiftr v2 4) in
  (0 <= v1 < 64 /\ 0 <= v2 < 64) /\ Z.land t 255 = a.
Proof.
  intros Ha v1 v2 t.
  assert (Hv : 0 <= v1 < 64 /\ 0 <= v2 < 64).
  { subst v1 v2. to_arith. repeat split; Z.div_mod_to_equations; lia. }
  split; [exact Hv|].
  assert (Ht : t = a).
  { subst t. rewrite (lor_add_disjoint 2);
      subst v1 v2; to_arith; try lia; Z.div_mod_to_equations; lia. }
  rewrite Ht. to_arith. Z.div_mod_to_equations; lia.
Qed.

Lemma list_ind3 {A} (P : list A -> Prop) :
  P [] -> (forall a, P [a]) -> (forall a b, P [a; b]) ->
  (forall a b c rest, P rest -> P (a :: b :: c :: rest)) ->
  forall l, P l.
Proof.
  intros H0 H1 H2 H3 l.
  assert (H : P l /\ (forall a, P (a :: l)) /\ (forall a b, P (a :: b :: l))).
  { induction l as [|x l (IH0 & IH1 & IH2)]; [auto|].
    split; [apply IH1|]. split; [intros a; apply IH2|].
    intros a b. now apply H3. }
  apply H.
Qed.

Lemma base64_round_trip (l : list Z) :
  Forall (fun x => 0 <= x < 256) l ->
  Base64.decode (Base64.encode l) = l
  /\ Base64.well_formed (Base64.encode l) = true
  /\ length (Base64.encode l) = (4 * ((length l + 2) / 3))%nat.
Proof.
  induction l as [|a|a b|a b c rest IH] using list_ind3; intros Hl.
  - repeat split.
  - inversion Hl as [|? ? Ha _]; subst.
    destruct (single_sextets a Ha) as ((Hv1 & Hv2) & Hback).
    destruct (base64_digit _ Hv1) as (L1 & D1 & P1).
    destruct (base64_digit _ Hv2) as (L2 & D2 & P2).
    cbn [Base64.encode Base64.decode].
    rewrite N.eqb_refl, L1, L2. cbv zeta in Hback. rewrite Hback.
    split; [reflexivity|]. split; [|reflexivity].
    apply well_formed_cons; [exact D1|]. apply well_formed_cons; [exact D2|].
    reflexivity.
  - inversion Hl as [|? ? Ha Hl']; subst. inversion Hl' as [|? ? Hb _]; subst.
    destruct (pair_sextets a b Ha Hb) as ((Hv1 & Hv2 & Hv3) & Hback1 & Hback2).
    destruct (base64_digit _ Hv1) as (L1 & D1 & P1).
    destruct (base64_digit _ Hv2) as (L2 & D2 & P2).
    destruct (base64_digit _ Hv3) as (L3 & D3 & P3).
    cbn [Base64.encode Base64.decode]. cbv zeta.
    rewrite P3, N.eqb_refl, L1, L2, L3.
    cbv zeta in Hback1, Hback2. rewrite Hback1, Hback2.
    split; [reflexivity|]. split; [|reflexivity].
    apply well_formed_cons; [exact D1|]. apply well_formed_cons; [exact D2|].
    apply well_formed_cons; [exact D3|]. reflexivity.
  - inversion Hl as [|? ? Ha Hl1]; subst. inversion Hl1 as [|? ? Hb Hl2]; subst.
    inversion Hl2 as [|? ? Hc Hrest]; subst.
    destruct (IH Hrest) as (IHd & IHw & IHl).
    destruct (triple_sextets a b c Ha Hb Hc)
      as ((Hv1 & Hv2 & Hv3 & Hv4) & Hback1 & Hback2 & Hback3).
    destruct (base64_digit _ Hv1) as (L1 & D1 & P1).
    destruct (base64_digit _ Hv2) as (L2 & D2 & P2).
    destruct (base64_digit _ Hv3) as (L3 & D3 & P3).
    destruct (base64_digit _ Hv4) as (L4 & D4 & P4).
    rewrite encode_triple. split; [|split].
    + rewrite decode_quad by assumption. cbv zeta.
      rewrite L1, L2, L3, L4. cbv zeta in Hback1, Hback2, Hback3.
      now rewrite Hback1, Hback2, Hback3, IHd.
    + repeat (apply well_formed_cons; [assumption|]). exact IHw.
    + cbn [length]. rewrite IHl.
      replace (S (S (S (length rest))) + 2)%nat
        with ((length rest + 2) + 1 * 3)%nat by lia.
      rewrite Nat.div_add by lia. lia.
Qed.

(** Decoding what was encoded gives the bytes back. *)
Lemma fromBase64_toBase64 (data : Uint8Array) :
  Base64.fromBase64 (Base64.toBase64 data) = Return data.
Proof.
  destruct (base64_round_trip (map Z_of_byte data)) as (Hd & Hw & Hl).
  { apply Forall_map, Forall_forall. intros b _. apply Z_of_byte_range. }
  unfold Base64.fromBase64, Base64.toBase64. rewrite Hw, Hl, Hd.
  rewrite Nat2Z.inj_mul, Z.mul_comm, Z_mod_mult.
  simpl. now rewrite bytes_of_Z_of_bytes.
Qed.

Lemma toBase64_injective (d1 d2 : Uint8Array) :
  Base64.toBase64 d1 = Base64.toBase64 d2 -> d1 = d2.
Proof.
  intros H. apply Return_inj.
  rewrite <- (fromBase64_toBase64 d1), <- (fromBase64_toBase64 d2). now rewrite H.
Qed.

(** ** The shape of the example keys *)

Lemma examplePubkey_unfold (index : argument) :
  examplePubkey index
  = Return (Base64.toBase64
              (for_loop (iterations (or_zero index)) (pubkey_body index) pubkey_seed)).
Proof. unfold examplePubkey. rewrite fromBase64_pubkey_seed. reflexivity. Qed.

Lemma pubkey_body_shape (index : argument) (data : Uint8Array) :
  length data = 33%nat ->
  length (pubkey_body index data) = 33%nat
  /\ hd_error (pubkey_body index data)
     = Some (if remainder_truthy index 2 then Byte.x02 else Byte.x03).
Proof.
  intros Hd. unfold pubkey_body. cbv zeta.
  destruct (hash_and_trim data) as [Hs Hl]; [lia|].
  rewrite Hs, Hd. rewrite Hd in Hl.
  destruct (firstn 33 (Sha512.sha512 data)) as [|b rest]; [discriminate Hl|].
  split; [exact Hl|reflexivity].
Qed.

Lemma pubkey_loop_shape (index : argument) (n : nat) (data : Uint8Array) :
  length data = 33%nat ->
  length (for_loop (S n) (pubkey_body index) data) = 33%nat
  /\ hd_error (for_loop (S n) (pubkey_body index) data)
     = Some (if remainder_truthy index 2 then Byte.x02 else Byte.x03).
Proof.
  revert data. induction n as [|n IH]; intros data Hd.
  - apply pubkey_body_shape, Hd.
  - change (for_loop (S (S n)) (pubkey_body index) data)
      with (for_loop (S n) (pubkey_body index) (pubkey_body index data)).
    apply IH, pubkey_body_shape, Hd.
Qed.

(** Every example key has the shape of a compressed key: it is a
    base64 text of 44 code units that decodes to 33 bytes, the first of
    which is 0x02 or 0x03. *)
Theorem examplePubkey_compressed_key (index : argument) :
  exists key data,
    examplePubkey index = Return key
    /\ Base64.fromBase64 key = Return data
    /\ length key = 44%nat
    /\ length data = 33%nat
    /\ (hd_error data = Some Byte.x02 \/ hd_error data = Some Byte.x03).
Proof.
  rewrite examplePubkey_unfold.
  set (data := for_loop _ _ _).
  assert (H : length data = 33%nat
              /\ (hd_error data = Some Byte.x02 \/ hd_error data = Some Byte.x03)).
  { subst data. destruct (iterations (or_zero index)) as [|n].
    - split; [reflexivity|now left].
    - destruct (pubkey_loop_shape index n pubkey_seed eq_refl) as [L H].
      split; [exact L|]. rewrite H.
      destruct (remainder_truthy index 2); [now left|now right]. }
  destruct H as [L H]. exists (Base64.toBase64 data), data.
  split; [reflexivity|]. split; [apply fromBase64_toBase64|].
  split; [|now split].
  destruct (base64_round_trip (map Z_of_byte data)) as (_ & _ & Hl).
  { apply Forall_map, Forall_forall. intros b _. apply Z_of_byte_range. }
  unfold Base64.toBase64. rewrite Hl, length_map, L. reflexivity.
Qed.

(** The keys of the even indices from 2 on differ from the keys of the
    odd indices and from the seed key, which indices below 1 give: the
    former start with 0x03 and the latter with 0x02. *)
Theorem examplePubkey_parity_distinct (i j : Z) :
  1 <= i -> Z.even i = true -> j <= 0 \/ Z.odd j = true ->
  examplePubkey (ArgNumber (Int i)) <> examplePubkey (ArgNumber (Int j)).
Proof.
  intros Hi Heven Hj. rewrite !examplePubkey_unfold. intros H.
  apply Return_inj, toBase64_injective in H.
  apply (f_equal (@hd_error byte)) in H. revert H.
  assert (Ei : iterations (or_zero (ArgNumber (Int i))) = S (Z.to_nat (i - 1))).
  { unfold or_zero, argument_truthy. destruct (i =? 0) eqn:E;
      [apply Z.eqb_eq in E; lia|]. simpl. lia. }
  rewrite Ei.
  rewrite (proj2 (pubkey_loop_shape (ArgNumber (Int i)) _ pubkey_seed eq_refl)).
  rewrite remainder_truthy_odd, <- Z.negb_even, Heven. simpl negb. cbv iota.
  destruct (Z.le_gt_cases j 0) as [Hle|Hgt].
  - rewrite (iterations_nonpositive j Hle). discriminate.
  - assert (Ej : iterations (or_zero (ArgNumber (Int j))) = S (Z.to_nat (j - 1))).
    { unfold or_zero, argument_truthy. destruct (j =? 0) eqn:E;
        [apply Z.eqb_eq in E; lia|]. simpl. lia. }
    rewrite Ej.
    rewrite (proj2 (pubkey_loop_shape (ArgNumber (Int j)) _ pubkey_seed eq_refl)).
    rewrite remainder_truthy_odd.
    destruct Hj as [Hj|Hj]; [lia|]. rewrite Hj. discriminate.
Qed.

Lemma examplePubkey_parity_distinct_witness :
  examplePubkey (ArgNumber (Int 2)) <> examplePubkey (ArgNumber (Int 1))
  /\ examplePubkey (ArgNumber (Int 2)) <> examplePubkey (ArgNumber (Int 0)).
Proof.
  split.
  - apply examplePubkey_parity_distinct; [lia|reflexivity|now right].
  - apply examplePubkey_parity_distinct; [lia|reflexivity|left; lia].
Defined.

(** ** The checksum of bech32 *)

Lemma land_disjoint (k hi lo : Z) :
  0 <= k -> 0 <= lo < 2 ^ k -> hi mod 2 ^ k = 0 -> Z.land hi lo = 0.
Proof.
  intros Hk Hlo Hhi. apply Z.bits_inj'. intros n Hn.
  rewrite Z.land_spec, Z.bits_0. destruct (Z.lt_ge_cases n k).
  - rewrite <- (Z.mod_pow2_bits_low hi k n) by lia. rewrite Hhi.
    now rewrite Z.bits_0.
  - rewrite <- (Z.mod_small lo (2 ^ k)) by lia.
    rewrite Z.mod_pow2_bits_high by lia. apply andb_false_r.
Qed.

Lemma lxor_add_disjoint (k hi lo : Z) :
  0 <= k -> 0 <= lo < 2 ^ k -> hi mod 2 ^ k = 0 -> Z.lxor hi lo = hi + lo.
Proof.
  intros Hk Hlo Hhi. symmetry. apply Z.add_nocarry_lxor.
  now apply (land_disjoint k).
Qed.

Lemma lxor_range (n a b : Z) :
  0 <= n -> 0 <= a < 2 ^ n -> 0 <= b < 2 ^ n -> 0 <= Z.lxor a b < 2 ^ n.
Proof.
  intros Hn Ha Hb. split; [apply Z.lxor_nonneg; lia|].
  destruct (Z.eq_dec (Z.lxor a b) 0) as [->|Hne]; [lia|].
  assert (Hpos : 0 < n).
  { destruct (Z.eq_dec n 0) as [->|]; [|lia].
    assert (a = 0) as -> by (simpl in Ha; lia).
    assert (b = 0) as -> by (simpl in Hb; lia). now contradiction Hne. }
  apply Z.log2_lt_pow2; [pose proof (proj2 (Z.lxor_nonneg a b)); lia|].
  eapply Z.le_lt_trans; [apply Z.log2_lxor; lia|].
  apply Z.max_lub_lt.
  - destruct (Z.eq_dec a 0) as [->|]; [simpl; lia|]. apply Z.log2_lt_pow2; lia.
  - destruct (Z.eq_dec b 0) as [->|]; [simpl; lia|]. apply Z.log2_lt_pow2; lia.
Qed.

(** The term of a generator: present when the bit is set. *)
Lemma generator_term (b i G : Z) :
  0 <= i ->
  Z.land (- Z.land (Z.shiftr b i) 1) G = if Z.testbit b i then G else 0.
Proof.
  intros Hi. change 1 with (Z.ones 1) at 1. rewrite Z.land_ones by lia.
  change (2 ^ 1) with 2. rewrite <- Z.bit0_mod, Z.shiftr_spec by lia.
  rewrite Z.add_0_l. destruct (Z.testbit b i); simpl Z.b2z.
  - apply Z.land_m1_l.
  - apply Z.land_0_l.
Qed.

Lemma polymodStep_terms (pre : Z) :
  Bech32.polymodStep pre
  = Z.lxor (Z.lxor (Z.lxor (Z.lxor (Z.lxor
      (Z.shiftl (Z.land pre 0x1FFFFFF) 5)
      (if Z.testbit (Z.shiftr pre 25) 0 then 0x3b6a57b2 else 0))
      (if Z.testbit (Z.shiftr pre 25) 1 then 0x26508e6d else 0))
      (if Z.testbit (Z.shiftr pre 25) 2 then 0x1ea119fa else 0))
      (if Z.testbit (Z.shiftr pre 25) 3 then 0x3d4233dd else 0))
      (if Z.testbit (Z.shiftr pre 25) 4 then 0x2a1462b3 else 0).
Proof.
  unfold Bech32.polymodStep. cbv zeta. now rewrite !generator_term by lia.
Qed.

Lemma lxor_interchange (a b c d : Z) :
  Z.lxor (Z.lxor a b) (Z.lxor c d) = Z.lxor (Z.lxor a c) (Z.lxor b d).
Proof.
  rewrite !Z.lxor_assoc. f_equal.
  rewrite <- !Z.lxor_assoc. f_equal. apply Z.lxor_comm.
Qed.

Lemma generator_term_lxor (p q : bool) (G : Z) :
  (if xorb p q then G else 0)
  = Z.lxor (if p then G else 0) (if q then G else 0).
Proof.
  destruct p, q; simpl xorb; cbv iota;
    rewrite ?Z.lxor_nilpotent, ?Z.lxor_0_r, ?Z.lxor_0_l; reflexivity.
Qed.

Lemma land_lxor_distr (a b m : Z) :
  Z.land (Z.lxor a b) m = Z.lxor (Z.land a m) (Z.land b m).
Proof.
  apply Z.bits_inj'. intros n _.
  rewrite !Z.lxor_spec, !Z.land_spec, Z.lxor_spec.
  destruct (Z.testbit a n), (Z.testbit b n), (Z.testbit m n); reflexivity.
Qed.

Lemma lxor_chain (t g0 g1 g2 g3 g4 t' g0' g1' g2' g3' g4' : Z) :
  Z.lxor (Z.lxor (Z.lxor (Z.lxor (Z.lxor
    (Z.lxor t t') (Z.lxor g0 g0')) (Z.lxor g1 g1')) (Z.lxor g2 g2'))
    (Z.lxor g3 g3')) (Z.lxor g4 g4')
  = Z.lxor
      (Z.lxor (Z.lxor (Z.lxor (Z.lxor (Z.lxor t g0) g1) g2) g3) g4)
      (Z.lxor (Z.lxor (Z.lxor (Z.lxor (Z.lxor t' g0') g1') g2') g3') g4').
Proof.
  rewrite (lxor_interchange t t' g0 g0').
  rewrite (lxor_interchange (Z.lxor t g0) (Z.lxor t' g0') g1 g1').
  rewrite (lxor_interchange (Z.lxor (Z.lxor t g0) g1) _ g2 g2').
  rewrite (lxor_interchange (Z.lxor (Z.lxor (Z.lxor t g0) g1) g2) _ g3 g3').
  apply lxor_interchange.
Qed.

(** The step of the checksum is linear for the exclusive or. *)
Lemma polymodStep_lxor (a b : Z) :
  Bech32.polymodStep (Z.lxor a b)
  = Z.lxor (Bech32.polymodStep a) (Bech32.polymodStep b).
Proof.
  rewrite !polymodStep_terms.
  rewrite Z.shiftr_lxor, !Z.lxor_spec, !generator_term_lxor.
  rewrite land_lxor_distr, Z.shiftl_lxor.
  apply lxor_chain.
Qed.

Lemma polymodStep_small (x : Z) :
  0 <= x < 2 ^ 25 -> Bech32.polymodStep x = x * 32.
Proof.
  intros Hx. rewrite polymodStep_terms.
  rewrite (Z.shiftr_div_pow2 x 25), Z.div_small by lia.
  rewrite !Z.bits_0. cbv iota. rewrite !Z.lxor_0_r.
  change 0x1FFFFFF with (Z.ones 25).
  rewrite Z.land_ones, Z.mod_small, Z.shiftl_mul_pow2 by lia. reflexivity.
Qed.

Lemma polymodStep_range (x : Z) :
  0 <= x < 2 ^ 30 -> 0 <= Bech32.polymodStep x < 2 ^ 30.
Proof.
  intros Hx. rewrite polymodStep_terms.
  repeat apply lxor_range; try lia;
    try (destruct (Z.testbit _ _); lia).
  change 0x1FFFFFF with (Z.ones 25).
  rewrite Z.land_ones, Z.shiftl_mul_pow2 by lia.
  pose proof (Z.mod_pos_bound x (2 ^ 25)). lia.
Qed.

Lemma polymodStep_powers (w : Z) :
  0 <= w < 32 ->
  Bech32.polymodStep w = w * 32
  /\ Bech32.polymodStep (w * 32) = w * 1024
  /\ Bech32.polymodStep (w * 1024) = w * 32768
  /\ Bech32.polymodStep (w * 32768) = w * 1048576
  /\ Bech32.polymodStep (w * 1048576) = w * 33554432.
Proof.
  intros Hw. repeat split; rewrite polymodStep_small; pow2; lia.
Qed.

Lemma five_bits_range (c k : Z) :
  0 <= k -> 0 <= Z.land (Z.shiftr c k) 31 < 32.
Proof.
  intros Hk. change 31 with (Z.ones 5). rewrite Z.land_ones by lia.
  apply Z.mod_pos_bound. lia.
Qed.

(** The six words of the checksum bring the state of the checksum to 1:
    a text that [encode] writes passes the test of [decode]. *)
Lemma checksum_closes (s0 : Z) :
  0 <= s0 < 2 ^ 30 ->
  fold_left (fun chk x => Z.lxor (Bech32.polymodStep chk) x)
    (map (fun i => Z.land
                     (Z.shiftr (Z.lxor (Nat.iter 6 Bech32.polymodStep s0) 1)
                               ((5 - i) * 5)) 0x1f)
         [0; 1; 2; 3; 4; 5])
    s0
  = 1.
Proof.
  intros Hs.
  assert (H6 : 0 <= Nat.iter 6 Bech32.polymodStep s0 < 2 ^ 30).
  { cbn [Nat.iter]. now do 6 apply polymodStep_range. }
  set (c := Z.lxor (Nat.iter 6 Bech32.polymodStep s0) 1).
  assert (Hc : 0 <= c < 2 ^ 30) by (apply lxor_range; [lia|exact H6|pow2; lia]).
  cbn [map fold_left].
  change ((5 - 0) * 5) with 25. change ((5 - 1) * 5) with 20.
  change ((5 - 2) * 5) with 15. change ((5 - 3) * 5) with 10.
  change ((5 - 4) * 5) with 5. change ((5 - 5) * 5) with 0.
  set (w0 := Z.land (Z.shiftr c 25) 31). set (w1 := Z.land (Z.shiftr c 20) 31).
  set (w2 := Z.land (Z.shiftr c 15) 31). set (w3 := Z.land (Z.shiftr c 10) 31).
  set (w4 := Z.land (Z.shiftr c 5) 31). set (w5 := Z.land (Z.shiftr c 0) 31).
  assert (R0 : 0 <= w0 < 32) by (apply five_bits_range; lia).
  assert (R1 : 0 <= w1 < 32) by (apply five_bits_range; lia).
  assert (R2 : 0 <= w2 < 32) by (apply five_bits_range; lia).
  assert (R3 : 0 <= w3 < 32) by (apply five_bits_range; lia).
  assert (R4 : 0 <= w4 < 32) by (apply five_bits_range; lia).
  assert (R5 : 0 <= w5 < 32) by (apply five_bits_range; lia).
  rewrite !polymodStep_lxor.
  destruct (polymodStep_powers w0 R0) as (A1 & A2 & A3 & A4 & A5).
  destruct (polymodStep_powers w1 R1) as (B1 & B2 & B3 & B4 & _).
  destruct (polymodStep_powers w2 R2) as (C1 & C2 & C3 & _).
  destruct (polymodStep_powers w3 R3) as (D1 & D2 & _).
  destruct (polymodStep_powers w4 R4) as (E1 & _).
  rewrite A1, A2, A3, A4, A5, B1, B2, B3, B4, C1, C2, C3, D1, D2, E1.
  rewrite !Z.lxor_assoc.
  assert (Sum : Z.lxor (w0 * 33554432)
                  (Z.lxor (w1 * 1048576)
                     (Z.lxor (w2 * 32768)
                        (Z.lxor (w3 * 1024) (Z.lxor (w4 * 32) w5)))) = c).
  { rewrite (lxor_add_disjoint 5 (w4 * 32) w5) by (pow2; lia || (Z.div_mod_to_equations; lia)).
    rewrite (lxor_add_disjoint 10 (w3 * 1024))
      by (pow2; lia || (Z.div_mod_to_equations; lia)).
    rewrite (lxor_add_disjoint 15 (w2 * 32768))
      by (pow2; lia || (Z.div_mod_to_equations; lia)).
    rewrite (lxor_add_disjoint 20 (w1 * 1048576))
      by (pow2; lia || (Z.div_mod_to_equations; lia)).
    rewrite (lxor_add_disjoint 25 (w0 * 33554432))
      by (pow2; lia || (Z.div_mod_to_equations; lia)).
    subst w0 w1 w2 w3 w4 w5. clear -Hc. to_arith.
    change (2 ^ 30) with 1073741824 in Hc.
    Z.div_mod_to_equations. lia. }
  rewrite Sum. subst c. cbn [Nat.iter nat_rect]. clear.
  match goal with
  | |- Z.lxor ?x _ = 1 => generalize x
  end.
  intros x. rewrite <- Z.lxor_assoc, Z.lxor_nilpotent. reflexivity.
Qed.

Lemma polymod_fold_range (words : list Z) (s : Z) :
  0 <= s < 2 ^ 30 -> Forall (fun x => 0 <= x < 32) words ->
  0 <= fold_left (fun chk x => Z.lxor (Bech32.polymodStep chk) x) words s < 2 ^ 30.
Proof.
  intros Hs Hw. revert s Hs. induction Hw as [|x words Hx _ IH]; intros s Hs.
  - exact Hs.
  - simpl. apply IH. apply lxor_range; [lia|now apply polymodStep_range|pow2; lia].
Qed.

Lemma prefixChk_range (prefix : jsstring) :
  Forall (fun c => (33 <= c <= 126)%N) prefix ->
  exists chk, Bech32.prefixChk prefix = inr chk /\ 0 <= chk < 2 ^ 30.
Proof.
  intros H. unfold Bech32.prefixChk.
  assert (High : forall rest chk,
             Forall (fun c => (33 <= c <= 126)%N) rest -> 0 <= chk < 2 ^ 30 ->
             exists chk', Bech32.prefixChk_high prefix rest chk = inr chk'
                          /\ 0 <= chk' < 2 ^ 30).
  { intros rest chk Hr. revert chk.
    induction Hr as [|c rest Hc _ IH]; intros chk Hchk; simpl.
    - now exists chk.
    - destruct (c <? 33)%N eqn:E1; [apply N.ltb_lt in E1; lia|].
      destruct (126 <? c)%N eqn:E2; [apply N.ltb_lt in E2; lia|].
      simpl. apply IH. apply lxor_range; [lia|now apply polymodStep_range|].
      rewrite Z.shiftr_div_pow2 by lia. pow2. Z.div_mod_to_equations. lia. }
  destruct (High prefix 1 H) as (chk & -> & Hchk); [pow2; lia|].
  eexists. split; [reflexivity|].
  assert (Low : forall rest s, 0 <= s < 2 ^ 30 ->
             0 <= fold_left
                    (fun chk v => Z.lxor (Bech32.polymodStep chk)
                                         (Z.land (Z.of_N v) 31))
                    rest s < 2 ^ 30).
  { induction rest as [|v rest IH]; intros s Hs; [exact Hs|].
    simpl. apply IH. apply lxor_range; [lia|now apply polymodStep_range|].
    change 31 with (Z.ones 5). rewrite Z.land_ones by lia.
    pow2. pose proof (Z.mod_pos_bound (Z.of_N v) 32). lia. }
  apply Low. now apply polymodStep_range.
Qed.

(** ** Regrouping bits between bytes and words *)

Lemma int32_mod (x m : Z) :
  0 <= m <= 32 -> Bech32.int32 x mod 2 ^ m = x mod 2 ^ m.
Proof.
  intros Hm. unfold Bech32.int32.
  rewrite (Z.mod_eq (x + 2 ^ 31) (2 ^ 32)) by lia.
  replace (2 ^ 32) with (2 ^ (32 - m) * 2 ^ m)
    by (rewrite <- Z.pow_add_r by lia; f_equal; lia).
  replace (x + 2 ^ 31 - 2 ^ (32 - m) * 2 ^ m
                        * ((x + 2 ^ 31) / (2 ^ (32 - m) * 2 ^ m)) - 2 ^ 31)
    with (x + (- (2 ^ (32 - m) * ((x + 2 ^ 31) / (2 ^ (32 - m) * 2 ^ m)))) * 2 ^ m)
    by ring.
  apply Z_mod_plus_full.
Qed.

(** The low bits of the accumulator: the datum under the low bits of
    the accumulator before. *)
Lemma shift_in_mod (s n value d : Z) :
  0 <= s -> 0 <= n -> n + s <= 32 -> 0 <= d < 2 ^ s ->
  shift_in s value d mod 2 ^ (n + s) = (value mod 2 ^ n) * 2 ^ s + d.
Proof.
  intros Hs Hn Hns Hd. unfold shift_in.
  assert (Hhi : Bech32.int32 (Z.shiftl value s) mod 2 ^ s = 0).
  { rewrite int32_mod by lia. rewrite Z.shiftl_mul_pow2 by lia.
    apply Z_mod_mult. }
  rewrite (lor_add_disjoint s) by assumption.
  rewrite int32_mod by lia.
  rewrite <- Zplus_mod_idemp_l, int32_mod by lia.
  rewrite Z.shiftl_mul_pow2 by lia.
  rewrite Z.pow_add_r by lia. rewrite Z.mul_mod_distr_r by lia.
  apply Z.mod_small.
  pose proof (Z.mod_pos_bound value (2 ^ n) ltac:(lia)).
  assert (0 < 2 ^ s) by lia. nia.
Qed.

Lemma convert_loop_cons (d : Z) (data : list Z)
  (inBits outBits maxV value bits : Z) (result : list Z) :
  Bech32.convert_loop (d :: data) inBits outBits maxV value bits result
  = (let (bits', result') :=
       Bech32.drain (Z.to_nat (bits + inBits)) outBits maxV
         (shift_in inBits value d) (bits + inBits) result in
     Bech32.convert_loop data inBits outBits maxV (shift_in inBits value d)
       bits' result').
Proof. reflexivity. Qed.

Lemma drain_none (fuel : nat) (outBits maxV value bits : Z) (result : list Z) :
  bits < outBits ->
  Bech32.drain fuel outBits maxV value bits result = (bits, result).
Proof.
  intros H. destruct fuel; [reflexivity|]. simpl.
  destruct (outBits <=? bits) eqn:E; [apply Z.leb_le in E; lia|reflexivity].
Qed.

Lemma drain_some (fuel : nat) (outBits maxV value bits : Z) (result : list Z) :
  outBits <= bits ->
  Bech32.drain (S fuel) outBits maxV value bits result
  = Bech32.drain fuel outBits maxV value (bits - outBits)
      (result ++ [Z.land (Z.shiftr value (bits - outBits)) maxV]).
Proof.
  intros H. simpl.
  destruct (outBits <=? bits) eqn:E; [reflexivity|apply Z.leb_gt in E; lia].
Qed.

(** One step of the loop of [convert] that takes no word out, one, or
    two. *)
Lemma convert_step_0 (d : Z) (data : list Z)
  (inBits outBits maxV value bits : Z) (result : list Z) :
  bits + inBits < outBits ->
  Bech32.convert_loop (d :: data) inBits outBits maxV value bits result
  = Bech32.convert_loop data inBits outBits maxV (shift_in inBits value d)
      (bits + inBits) result.
Proof. intros H. rewrite convert_loop_cons, drain_none by lia. reflexivity. Qed.

Lemma convert_step_1 (d : Z) (data : list Z)
  (inBits outBits maxV value bits : Z) (result : list Z) :
  0 < outBits -> outBits <= bits + inBits < 2 * outBits ->
  Bech32.convert_loop (d :: data) inBits outBits maxV value bits result
  = Bech32.convert_loop data inBits outBits maxV (shift_in inBits value d)
      (bits + inBits - outBits)
      (result ++ [Z.land (Z.shiftr (shift_in inBits value d)
                                   (bits + inBits - outBits)) maxV]).
Proof.
  intros Ho H. rewrite convert_loop_cons.
  destruct (Z.to_nat (bits + inBits)) as [|fuel] eqn:F; [lia|].
  rewrite drain_some, drain_none by lia. reflexivity.
Qed.

Lemma convert_step_2 (d : Z) (data : list Z)
  (inBits outBits maxV value bits : Z) (result : list Z) :
  0 < outBits -> 2 * outBits <= bits + inBits < 3 * outBits ->
  Bech32.convert_loop (d :: data) inBits outBits maxV value bits result
  = Bech32.convert_loop data inBits outBits maxV (shift_in inBits value d)
      (bits + inBits - outBits - outBits)
      ((result ++ [Z.land (Z.shiftr (shift_in inBits value d)
                                    (bits + inBits - outBits)) maxV])
         ++ [Z.land (Z.shiftr (shift_in inBits value d)
                              (bits + inBits - outBits - outBits)) maxV]).
Proof.
  intros Ho H. rewrite convert_loop_cons.
  destruct (Z.to_nat (bits + inBits)) as [|[|fuel]] eqn:F; [lia|lia|].
  rewrite !drain_some, drain_none by lia. reflexivity.
Qed.

Lemma convert_bytes_unrolled (value b1 b2 b3 b4 b5 : Z) (rest result : list Z) :
  Bech32.convert_loop (b1 :: b2 :: b3 :: b4 :: b5 :: rest) 8 5 31 value 0 result
  = (let v1 := shift_in 8 value b1 in
     let v2 := shift_in 8 v1 b2 in
     let v3 := shift_in 8 v2 b3 in
     let v4 := shift_in 8 v3 b4 in
     let v5 := shift_in 8 v4 b5 in
     Bech32.convert_loop rest 8 5 31 v5 0
       (result ++ [Z.land (Z.shiftr v1 3) 31; Z.land (Z.shiftr v2 6) 31;
                   Z.land (Z.shiftr v2 1) 31; Z.land (Z.shiftr v3 4) 31;
                   Z.land (Z.shiftr v4 7) 31; Z.land (Z.shiftr v4 2) 31;
                   Z.land (Z.shiftr v5 5) 31; Z.land (Z.shiftr v5 0) 31])).
Proof.
  cbv zeta.
  rewrite (convert_step_1 b1) by lia. change (0 + 8 - 5) with 3.
  rewrite (convert_step_2 b2) by lia.
  change (3 + 8 - 5) with 6. change (6 - 5) with 1.
  rewrite (convert_step_1 b3) by lia. change (1 + 8 - 5) with 4.
  rewrite (convert_step_2 b4) by lia.
  change (4 + 8 - 5) with 7. change (7 - 5) with 2.
  rewrite (convert_step_2 b5) by lia.
  change (2 + 8 - 5) with 5. change (5 - 5) with 0.
  rewrite <- !app_assoc. reflexivity.
Qed.

Lemma convert_words_unrolled (value w1 w2 w3 w4 w5 w6 w7 w8 : Z)
  (rest result : list Z) :
  Bech32.convert_loop (w1 :: w2 :: w3 :: w4 :: w5 :: w6 :: w7 :: w8 :: rest)
    5 8 255 value 0 result
  = (let u1 := shift_in 5 value w1 in
     let u2 := shift_in 5 u1 w2 in
     let u3 := shift_in 5 u2 w3 in
     let u4 := shift_in 5 u3 w4 in
     let u5 := shift_in 5 u4 w5 in
     let u6 := shift_in 5 u5 w6 in
     let u7 := shift_in 5 u6 w7 in
     let u8 := shift_in 5 u7 w8 in
     Bech32.convert_loop rest 5 8 255 u8 0
       (result ++ [Z.land (Z.shiftr u2 2) 255; Z.land (Z.shiftr u4 4) 255;
                   Z.land (Z.shiftr u5 1) 255; Z.land (Z.shiftr u7 3) 255;
                   Z.land (Z.shiftr u8 0) 255])).
Proof.
  cbv zeta.
  rewrite (convert_step_0 w1) by lia. change (0 + 5) with 5.
  rewrite (convert_step_1 w2) by lia. change (5 + 5 - 8) with 2.
  rewrite (convert_step_0 w3) by lia. change (2 + 5) with 7.
  rewrite (convert_step_1 w4) by lia. change (7 + 5 - 8) with 4.
  rewrite (convert_step_1 w5) by lia. change (4 + 5 - 8) with 1.
  rewrite (convert_step_0 w6) by lia. change (1 + 5) with 6.
  rewrite (convert_step_1 w7) by lia. change (6 + 5 - 8) with 3.
  rewrite (convert_step_1 w8) by lia. change (3 + 5 - 8) with 0.
  rewrite <- !app_assoc. reflexivity.
Qed.

Lemma shift_in_low (s value d : Z) :
  0 <= s <= 32 -> 0 <= d < 2 ^ s -> shift_in s value d mod 2 ^ s = d.
Proof.
  intros Hs Hd. pose proof (shift_in_mod s 0 value d) as H.
  simpl (0 + s) in H. rewrite H by lia. rewrite Z.mod_1_r. lia.
Qed.

Ltac list_eq :=
  repeat match goal with
         | |- _ :: _ = _ :: _ => f_equal
         end.

(** Five bytes leave the loop of [convert] as their eight words,
    whatever came before them. *)
Lemma convert_bytes_chunk (value b1 b2 b3 b4 b5 : Z) (rest result : list Z) :
  0 <= b1 < 256 -> 0 <= b2 < 256 -> 0 <= b3 < 256 -> 0 <= b4 < 256 ->
  0 <= b5 < 256 ->
  exists value',
    Bech32.convert_loop (b1 :: b2 :: b3 :: b4 :: b5 :: rest) 8 5 31 value 0 result
    = Bech32.convert_loop rest 8 5 31 value' 0 (result ++ words5 b1 b2 b3 b4 b5).
Proof.
  intros H1 H2 H3 H4 H5. rewrite convert_bytes_unrolled. cbv zeta.
  set (v1 := shift_in 8 value b1). set (v2 := shift_in 8 v1 b2).
  set (v3 := shift_in 8 v2 b3). set (v4 := shift_in 8 v3 b4).
  set (v5 := shift_in 8 v4 b5).
  assert (L1 : v1 mod 256 = b1) by (apply (shift_in_low 8); pow2; lia).
  assert (L2 : v2 mod 65536 = v1 mod 256 * 256 + b2)
    by (apply (shift_in_mod 8 8); pow2; lia).
  assert (L3 : v3 mod 65536 = v2 mod 256 * 256 + b3)
    by (apply (shift_in_mod 8 8); pow2; lia).
  assert (L4 : v4 mod 65536 = v3 mod 256 * 256 + b4)
    by (apply (shift_in_mod 8 8); pow2; lia).
  assert (L5 : v5 mod 65536 = v4 mod 256 * 256 + b5)
    by (apply (shift_in_mod 8 8); pow2; lia).
  exists v5. clearbody v1 v2 v3 v4 v5. do 2 f_equal. unfold words5.
  list_eq; to_arith.
  - clear -L1 H1. Z.div_mod_to_equations. lia.
  - clear -L1 L2 H1 H2. Z.div_mod_to_equations. lia.
  - clear -L1 L2 H1 H2. Z.div_mod_to_equations. lia.
  - clear -L2 L3 H2 H3 H1. Z.div_mod_to_equations. lia.
  - clear -L3 L4 H3 H4 H2. Z.div_mod_to_equations. lia.
  - clear -L3 L4 H3 H4 H2. Z.div_mod_to_equations. lia.
  - clear -L4 L5 H4 H5 H3. Z.div_mod_to_equations. lia.
  - clear -L4 L5 H4 H5 H3. Z.div_mod_to_equations. lia.
Qed.

(** Eight words leave the loop of [convert] as their five bytes. *)
Lemma convert_words_chunk (value w1 w2 w3 w4 w5 w6 w7 w8 : Z)
  (rest result : list Z) :
  0 <= w1 < 32 -> 0 <= w2 < 32 -> 0 <= w3 < 32 -> 0 <= w4 < 32 ->
  0 <= w5 < 32 -> 0 <= w6 < 32 -> 0 <= w7 < 32 -> 0 <= w8 < 32 ->
  exists value',
    Bech32.convert_loop (w1 :: w2 :: w3 :: w4 :: w5 :: w6 :: w7 :: w8 :: rest)
      5 8 255 value 0 result
    = Bech32.convert_loop rest 5 8 255 value' 0
        (result ++ bytes8 w1 w2 w3 w4 w5 w6 w7 w8).
Proof.
  intros H1 H2 H3 H4 H5 H6 H7 H8. rewrite convert_words_unrolled. cbv zeta.
  set (u1 := shift_in 5 value w1). set (u2 := shift_in 5 u1 w2).
  set (u3 := shift_in 5 u2 w3). set (u4 := shift_in 5 u3 w4).
  set (u5 := shift_in 5 u4 w5). set (u6 := shift_in 5 u5 w6).
  set (u7 := shift_in 5 u6 w7). set (u8 := shift_in 5 u7 w8).
  assert (L1 : u1 mod 32 = w1) by (apply (shift_in_low 5); pow2; lia).
  assert (L2 : u2 mod 1024 = u1 mod 32 * 32 + w2)
    by (apply (shift_in_mod 5 5); pow2; lia).
  assert (L3 : u3 mod 32768 = u2 mod 1024 * 32 + w3)
    by (apply (shift_in_mod 5 10); pow2; lia).
  assert (L4 : u4 mod 32768 = u3 mod 1024 * 32 + w4)
    by (apply (shift_in_mod 5 10); pow2; lia).
  assert (L5 : u5 mod 32768 = u4 mod 1024 * 32 + w5)
    by (apply (shift_in_mod 5 10); pow2; lia).
  assert (L6 : u6 mod 32768 = u5 mod 1024 * 32 + w6)
    by (apply (shift_in_mod 5 10); pow2; lia).
  assert (L7 : u7 mod 32768 = u6 mod 1024 * 32 + w7)
    by (apply (shift_in_mod 5 10); pow2; lia).
  assert (L8 : u8 mod 32768 = u7 mod 1024 * 32 + w8)
    by (apply (shift_in_mod 5 10); pow2; lia).
  exists u8. clearbody u1 u2 u3 u4 u5 u6 u7 u8. do 2 f_equal. unfold bytes8.
  list_eq; to_arith.
  - clear -L1 L2 H1 H2. Z.div_mod_to_equations. lia.
  - clear -L2 L3 L4 H2 H3 H4 H1. Z.div_mod_to_equations. lia.
  - clear -L3 L4 L5 H3 H4 H5. Z.div_mod_to_equations. lia.
  - clear -L4 L5 L6 L7 H4 H5 H6 H7. Z.div_mod_to_equations. lia.
  - clear -L6 L7 L8 H6 H7 H8. Z.div_mod_to_equations. lia.
Qed.

Lemma words5_range (b1 b2 b3 b4 b5 : Z) :
  0 <= b1 < 256 -> 0 <= b2 < 256 -> 0 <= b3 < 256 -> 0 <= b4 < 256 ->
  0 <= b5 < 256 ->
  Forall (fun w => 0 <= w < 32) (words5 b1 b2 b3 b4 b5).
Proof.
  intros. unfold words5.
  repeat (constructor; [Z.div_mod_to_equations; lia|]). constructor.
Qed.

(** The words of five bytes make the five bytes again. *)
Lemma convert_chunk_round_trip (value b1 b2 b3 b4 b5 : Z) (rest result : list Z) :
  0 <= b1 < 256 -> 0 <= b2 < 256 -> 0 <= b3 < 256 -> 0 <= b4 < 256 ->
  0 <= b5 < 256 ->
  exists value',
    Bech32.convert_loop (words5 b1 b2 b3 b4 b5 ++ rest) 5 8 255 value 0 result
    = Bech32.convert_loop rest 5 8 255 value' 0 (result ++ [b1; b2; b3; b4; b5]).
Proof.
  intros H1 H2 H3 H4 H5.
  pose proof (words5_range b1 b2 b3 b4 b5 H1 H2 H3 H4 H5) as R.
  unfold words5 in *. cbn [app].
  repeat match goal with
         | H : Forall _ (_ :: _) |- _ => inversion H; subst; clear H
         end.
  match goal with
  | |- context [Bech32.convert_loop
                  (?w1 :: ?w2 :: ?w3 :: ?w4 :: ?w5 :: ?w6 :: ?w7 :: ?w8 :: rest)] =>
      destruct (convert_words_chunk value w1 w2 w3 w4 w5 w6 w7 w8 rest result)
        as [value' E]; try assumption
  end.
  exists value'. rewrite E. do 2 f_equal. unfold bytes8.
  list_eq; Z.div_mod_to_equations; lia.
Qed.

Lemma no_padding_left (value : Z) :
  Z.land (Bech32.int32 (Z.shiftl value 8)) 255 = 0.
Proof.
  change 255 with (Z.ones 8). rewrite Z.land_ones by lia.
  rewrite int32_mod by lia. rewrite Z.shiftl_mul_pow2 by lia.
  apply Z_mod_mult.
Qed.

(** Twenty bytes come back from their thirty-two words. *)
Lemma fromWords_toWords_20 (bytes : list Z) :
  length bytes = 20%nat -> Forall (fun b => 0 <= b < 256) bytes ->
  Bech32.fromWords (Bech32.toWords bytes) = Return bytes.
Proof.
  intros Hlen Hrange.
  do 20 (destruct bytes as [|? bytes]; [discriminate Hlen|]).
  destruct bytes; [|discriminate Hlen]. clear Hlen.
  repeat match goal with
         | H : Forall _ (_ :: _) |- _ => inversion H; subst; clear H
         end.
  match goal with
  | |- context [Bech32.toWords [?b1; ?b2; ?b3; ?b4; ?b5; ?b6; ?b7; ?b8; ?b9; ?b10;
                                ?b11; ?b12; ?b13; ?b14; ?b15; ?b16; ?b17; ?b18;
                                ?b19; ?b20]] =>
      assert (W : Bech32.toWords [b1; b2; b3; b4; b5; b6; b7; b8; b9; b10;
                                  b11; b12; b13; b14; b15; b16; b17; b18; b19; b20]
                  = words5 b1 b2 b3 b4 b5 ++ words5 b6 b7 b8 b9 b10
                      ++ words5 b11 b12 b13 b14 b15
                      ++ words5 b16 b17 b18 b19 b20 ++ []);
      [unfold Bech32.toWords, Bech32.convert; change (Z.shiftl 1 5 - 1) with 31;
       destruct (convert_bytes_chunk 0 b1 b2 b3 b4 b5
                   [b6; b7; b8; b9; b10; b11; b12; b13; b14; b15;
                    b16; b17; b18; b19; b20] []) as [v1 E1]; try assumption;
       rewrite E1;
       destruct (convert_bytes_chunk v1 b6 b7 b8 b9 b10
                   [b11; b12; b13; b14; b15; b16; b17; b18; b19; b20]
                   ([] ++ words5 b1 b2 b3 b4 b5)) as [v2 E2]; try assumption;
       rewrite E2;
       destruct (convert_bytes_chunk v2 b11 b12 b13 b14 b15
                   [b16; b17; b18; b19; b20]
                   (([] ++ words5 b1 b2 b3 b4 b5) ++ words5 b6 b7 b8 b9 b10))
         as [v3 E3]; try assumption;
       rewrite E3;
       destruct (convert_bytes_chunk v3 b16 b17 b18 b19 b20 []
                   ((([] ++ words5 b1 b2 b3 b4 b5) ++ words5 b6 b7 b8 b9 b10)
                      ++ words5 b11 b12 b13 b14 b15)) as [v4 E4]; try assumption;
       rewrite E4; cbn [Bech32.convert_loop];
       change (0 <? 0) with false; cbv iota;
       rewrite app_nil_l, app_nil_r, <- !app_assoc; reflexivity
      |rewrite W;
       unfold Bech32.fromWords, Bech32.convert; change (Z.shiftl 1 8 - 1) with 255;
       destruct (convert_chunk_round_trip 0 b1 b2 b3 b4 b5
                   (words5 b6 b7 b8 b9 b10 ++ words5 b11 b12 b13 b14 b15
                      ++ words5 b16 b17 b18 b19 b20 ++ []) [])
         as [u1 F1]; try assumption;
       rewrite F1;
       destruct (convert_chunk_round_trip u1 b6 b7 b8 b9 b10
                   (words5 b11 b12 b13 b14 b15 ++ words5 b16 b17 b18 b19 b20 ++ [])
                   ([] ++ [b1; b2; b3; b4; b5])) as [u2 F2]; try assumption;
       rewrite F2;
       destruct (convert_chunk_round_trip u2 b11 b12 b13 b14 b15
                   (words5 b16 b17 b18 b19 b20 ++ [])
                   (([] ++ [b1; b2; b3; b4; b5]) ++ [b6; b7; b8; b9; b10]))
         as [u3 F3]; try assumption;
       rewrite F3;
       destruct (convert_chunk_round_trip u3 b16 b17 b18 b19 b20 []
                   ((([] ++ [b1; b2; b3; b4; b5]) ++ [b6; b7; b8; b9; b10])
                      ++ [b11; b12; b13; b14; b15])) as [u4 F4]; try assumption;
       rewrite F4; cbn [Bech32.convert_loop];
       change (5 <=? 0) with false; cbv iota;
       change (8 - 0) with 8; rewrite no_padding_left;
       reflexivity]
  end.
Qed.

(** ** The round trip of bech32 *)

Lemma bech32_char (v : Z) :
  0 <= v < 32 ->
  Bech32.ALPHABET_MAP (Bech32.charAt v) = Some v
  /\ lower_unit (Bech32.charAt v) = Bech32.charAt v
  /\ (Bech32.charAt v =? 49)%N = false.
Proof.
  intros Hv.
  assert (All : forallb
                  (fun n => let v := Z.of_nat n in
                            match Bech32.ALPHABET_MAP (Bech32.charAt v) with
                            | Some x => x =? v
                            | None => false
                            end
                            && (lower_unit (Bech32.charAt v) =? Bech32.charAt v)%N
                            && negb (Bech32.charAt v =? 49)%N)
                  (seq 0 32) = true) by (vm_compute; reflexivity).
  rewrite forallb_forall in All.
  specialize (All (Z.to_nat v)). rewrite Z2Nat.id in All by lia.
  cbv zeta in All.
  assert (H := All ltac:(apply in_seq; lia)).
  apply andb_true_iff in H. destruct H as [H H3].
  apply andb_true_iff in H. destruct H as [H1 H2].
  apply N.eqb_eq in H2. apply negb_true_iff in H3.
  destruct (Bech32.ALPHABET_MAP (Bech32.charAt v)) as [x|]; [|discriminate H1].
  apply Z.eqb_eq in H1. subst x. auto.
Qed.

Lemma no_capital_fixed (c : N) : lower_unit c = c -> no_capital c.
Proof.
  unfold lower_unit, no_capital. intros H [H1 H2].
  apply N.leb_le in H1, H2. rewrite H1, H2 in H. simpl in H. lia.
Qed.

(** The letters of five-bit words are lower-case letters and digits of
    ASCII. *)
Lemma bech32_text (W : list Z) :
  Forall (fun x => 0 <= x < 32) W ->
  is_ascii (map Bech32.charAt W) /\ Forall no_capital (map Bech32.charAt W).
Proof.
  intros H. split; apply Forall_map; (eapply Forall_impl; [|exact H]);
    intros v Hv; destruct (bech32_char v Hv) as (Hm & Hl & _).
  - now apply ALPHABET_MAP_ascii in Hm.
  - now apply no_capital_fixed.
Qed.

Lemma five_bit_range (x : Z) : Z.shiftr x 5 = 0 -> 0 <= x < 32.
Proof.
  rewrite Z.shiftr_div_pow2 by lia. pow2. intros H.
  Z.div_mod_to_equations. lia.
Qed.

Lemma lastIndexOf_absent (c : N) (s : jsstring) (i found : Z) :
  Forall (fun x => (x =? c)%N = false) s ->
  Bech32.lastIndexOf c s i found = found.
Proof.
  intros H. revert i. induction H as [|x s Hx _ IH]; intros i; simpl.
  - reflexivity.
  - now rewrite Hx, IH.
Qed.

Lemma lastIndexOf_separator (c : N) (a b : jsstring) (i found : Z) :
  Forall (fun x => (x =? c)%N = false) b ->
  Bech32.lastIndexOf c (a ++ c :: b) i found = i + Z.of_nat (length a).
Proof.
  intros Hb. revert i found. induction a as [|x a IH]; intros i found.
  - cbn [app length Bech32.lastIndexOf]. rewrite N.eqb_refl.
    rewrite lastIndexOf_absent by exact Hb. simpl. lia.
  - cbn [app length Bech32.lastIndexOf]. rewrite IH. lia.
Qed.

Lemma decode_words_charAt (W : list Z) (chk : Z) (acc : list Z) :
  Forall (fun x => 0 <= x < 32) W ->
  Bech32.decode_words (map Bech32.charAt W) chk acc
  = inr (fold_left (fun chk x => Z.lxor (Bech32.polymodStep chk) x) W chk,
         acc ++ firstn (length W - 6) W).
Proof.
  intros H. revert chk acc. induction H as [|v W Hv _ IH]; intros chk acc.
  - simpl. now rewrite app_nil_r.
  - cbn [map Bech32.decode_words fold_left].
    destruct (bech32_char v Hv) as (-> & _ & _). cbv zeta.
    rewrite length_map.
    destruct (6 <=? Z.of_nat (length W)) eqn:E.
    + apply Z.leb_le in E. rewrite IH, <- app_assoc.
      replace (length (v :: W) - 6)%nat with (S (length W - 6))
        by (simpl; lia).
      reflexivity.
    + apply Z.leb_gt in E. rewrite IH.
      replace (length (v :: W) - 6)%nat with 0%nat by (simpl; lia).
      replace (length W - 6)%nat with 0%nat by lia. reflexivity.
Qed.

Lemma encode_words_fold (words : list Z) (chk : Z) (result : jsstring) :
  Forall (fun x => 0 <= x < 32) words ->
  Bech32.encode_words words chk result
  = Return (fold_left (fun chk x => Z.lxor (Bech32.polymodStep chk) x) words chk,
            result ++ map Bech32.charAt words).
Proof.
  intros H. revert chk result.
  induction H as [|x words Hx _ IH]; intros chk result.
  - simpl. now rewrite app_nil_r.
  - cbn [Bech32.encode_words fold_left map].
    rewrite Z.shiftr_div_pow2, Z.div_small by (pow2; lia).
    simpl negb. cbv iota. rewrite IH, <- app_assoc. reflexivity.
Qed.

(** A text made of a lower-case prefix, the separator and the letters
    of words whose checksum state ends at 1 decodes to the prefix and
    the words before the last six. *)
Lemma decode_text (p : jsstring) (W : list Z) (chk0 : Z) :
  p <> [] -> toLowerCase p = p -> Bech32.prefixChk p = inr chk0 ->
  Forall (fun x => 0 <= x < 32) W -> (6 <= length W)%nat ->
  fold_left (fun chk x => Z.lxor (Bech32.polymodStep chk) x) W chk0 = 1 ->
  Bech32.decode (p ++ js "1" ++ map Bech32.charAt W)
  = Return (p, firstn (length W - 6) W).
Proof.
  intros Hne Hlow Hchk HW Hlen Hfold.
  set (text := p ++ js "1" ++ map Bech32.charAt W).
  assert (Ltext : length text = (length p + 1 + length W)%nat).
  { unfold text. rewrite !length_app, length_map. simpl. lia. }
  assert (Hp : (1 <= length p)%nat) by (destruct p; [congruence|simpl; lia]).
  assert (Lower : toLowerCase text = text).
  { assert (Hcap := toLowerCase_no_capital p). rewrite Hlow in Hcap.
    destruct (bech32_text W HW) as [Ha Hn].
    apply toLowerCase_fixed; unfold text;
      change (js "1" ++ map Bech32.charAt W) with (49%N :: map Bech32.charAt W);
      apply Forall_app.
    - split; [apply printable_is_ascii; now apply prefixChk_returns in Hchk|].
      constructor; [lia|exact Ha].
    - split; [exact Hcap|]. constructor; [unfold no_capital; lia|exact Hn]. }
  assert (Split : Bech32.lastIndexOf 49%N text 0 (-1) = Z.of_nat (length p)).
  { unfold text. change (js "1" ++ map Bech32.charAt W)
      with (49%N :: map Bech32.charAt W).
    rewrite lastIndexOf_separator; [lia|].
    apply Forall_map. eapply Forall_impl; [|exact HW].
    intros v Hv. now apply bech32_char. }
  unfold Bech32.decode. cbv zeta. fold text.
  rewrite Lower, Split.
  destruct (Z.of_nat (length text) <? 8) eqn:E8; [apply Z.ltb_lt in E8; lia|].
  assert (Eq : jsstring_eqb text text = true) by now apply jsstring_eqb_eq.
  rewrite Eq. cbn [negb andb].
  destruct (Z.of_nat (length p) =? -1) eqn:E1; [apply Z.eqb_eq in E1; lia|].
  destruct (Z.of_nat (length p) =? 0) eqn:E0; [apply Z.eqb_eq in E0; lia|].
  assert (Pre : slice text 0 (Some (Z.of_nat (length p))) = p).
  { rewrite slice_prefix by lia. rewrite Nat2Z.id. unfold text.
    rewrite firstn_app, Nat.sub_diag, firstn_all, firstn_O. apply app_nil_r. }
  assert (Post : slice text (Z.of_nat (length p) + 1) None = map Bech32.charAt W).
  { rewrite slice_from by lia.
    replace (Z.to_nat (Z.of_nat (length p) + 1)) with (length p + 1)%nat by lia.
    unfold text. rewrite skipn_app.
    rewrite (skipn_all2 p) by lia.
    replace (length p + 1 - length p)%nat with 1%nat by lia. reflexivity. }
  rewrite Pre, Post, length_map.
  destruct (Z.of_nat (length W) <? 6) eqn:E6; [apply Z.ltb_lt in E6; lia|].
  rewrite Hchk, decode_words_charAt by exact HW.
  rewrite Hfold. reflexivity.
Qed.

Lemma checksum_units_words (chk : Z) :
  Bech32.checksum_units chk
  = map Bech32.charAt
      (map (fun i => Z.land (Z.shiftr chk ((5 - i) * 5)) 0x1f) [0; 1; 2; 3; 4; 5]).
Proof. reflexivity. Qed.

(** Twenty bytes encoded under a lower-case prefix that bech32 takes
    decode to that prefix and those bytes. *)
Lemma Bech32_round_trip (p : jsstring) (data : Uint8Array) :
  valid_prefix p -> p <> [] -> toLowerCase p = p -> length data = 20%nat ->
  exists address,
    Bech32.Bech32_encode (Some p) data = Return address
    /\ Bech32.Bech32_decode address = Return (p, data).
Proof.
  intros [Hlen Hprint] Hne Hlow Hdata.
  destruct (toWords_20 (map Z_of_byte data)) as [Hw Hfive];
    [now rewrite length_map|].
  assert (Back : Bech32.fromWords (Bech32.toWords (map Z_of_byte data))
                 = Return (map Z_of_byte data)).
  { apply fromWords_toWords_20; [now rewrite length_map|].
    apply Forall_map, Forall_forall. intros b _. apply Z_of_byte_range. }
  revert Hw Hfive Back.
  unfold Bech32.Bech32_encode.
  generalize (Bech32.toWords (map Z_of_byte data)). intros words Hw Hfive Back.
  assert (HR : Forall (fun x => 0 <= x < 32) words).
  { eapply Forall_impl; [|exact Hfive]. apply five_bit_range. }
  destruct (prefixChk_range p Hprint) as (chk0 & Hchk & Hr0).
  unfold Bech32.encode, Bech32.LIMIT. rewrite Hw.
  destruct (90 <? _) eqn:E; [apply Z.ltb_lt in E; lia|].
  rewrite Hlow, Hchk, encode_words_fold by exact HR.
  cbv beta iota zeta delta [bind fst snd].
  eexists. split; [reflexivity|].
  set (s1 := fold_left (fun chk x => Z.lxor (Bech32.polymodStep chk) x) words chk0).
  assert (Hs1 : 0 <= s1 < 2 ^ 30) by now apply polymod_fold_range.
  rewrite checksum_units_words.
  set (cw := map (fun i => Z.land
                             (Z.shiftr (Z.lxor (Nat.iter 6 Bech32.polymodStep s1) 1)
                                       ((5 - i) * 5)) 0x1f)
                 [0; 1; 2; 3; 4; 5]).
  assert (Lcw : length cw = 6%nat) by reflexivity.
  assert (Hcw : Forall (fun x => 0 <= x < 32) cw).
  { unfold cw. apply Forall_map, Forall_forall. intros i Hi.
    apply five_bits_range. simpl in Hi. lia. }
  assert (Close : fold_left (fun chk x => Z.lxor (Bech32.polymodStep chk) x)
                    (words ++ cw) chk0 = 1).
  { rewrite fold_left_app. fold s1. unfold cw. now apply checksum_closes. }
  replace (((p ++ js "1") ++ map Bech32.charAt words) ++ map Bech32.charAt cw)
    with (p ++ js "1" ++ map Bech32.charAt (words ++ cw))
    by (rewrite map_app, <- !app_assoc; reflexivity).
  unfold Bech32.Bech32_decode.
  rewrite (decode_text p (words ++ cw) chk0 Hne Hlow Hchk);
    [|apply Forall_app; now split|rewrite length_app; lia|exact Close].
  replace (length (words ++ cw) - 6)%nat with (length words)
    by (rewrite length_app; lia).
  rewrite firstn_app, Nat.sub_diag, firstn_all, firstn_O, app_nil_r.
  cbv beta iota zeta delta [bind fst snd]. rewrite Back.
  cbv beta iota zeta delta [bind fst snd].
  now rewrite bytes_of_Z_of_bytes.
Qed.

(** Every example address passes the address check: with a configured
    prefix that is not empty, is in lower case and that bech32 takes,
    [exampleAddress] returns an address at every index and
    [checkAddress] returns [null] for it. *)
Theorem checkAddress_exampleAddress (env : Env) (prefix : jsstring) (index : argument) :
  NEXT_PUBLIC_ADDRESS_PREFIX env = Some prefix ->
  prefix <> [] -> toLowerCase prefix = prefix -> valid_prefix prefix ->
  exists address,
    exampleAddress env index = Return address
    /\ checkAddress env (Str address) = Return None.
Proof.
  intros Hp Hne Hlow Hvalid.
  rewrite exampleAddress_unfold, Hp.
  set (data := for_loop _ _ address_seed).
  assert (Hdata : length data = 20%nat) by apply exampleAddress_data_length.
  destruct (Bech32_round_trip prefix data Hvalid Hne Hlow Hdata)
    as (address & Enc & Dec).
  exists address. split; [exact Enc|].
  rewrite (checkAddress_decoded env address prefix data Dec).
  apply (prefix_test env) in Hp. rewrite Hp, Hdata. reflexivity.
Qed.

Lemma checkAddress_exampleAddress_witness :
  exists address,
    exampleAddress cosmos_env (ArgNumber (Int 7)) = Return address
    /\ checkAddress cosmos_env (Str address) = Return None.
Proof.
  apply (checkAddress_exampleAddress cosmos_env (js "cosmos") (ArgNumber (Int 7))).
  - reflexivity.
  - discriminate.
  - reflexivity.
  - split; [simpl; lia|]. repeat constructor; discriminate.
Defined.

(** The shape of an example address: the configured prefix in lower
    case, the separator "1", and 38 units in lower case, none of them
    the separator; its length is that of the prefix plus 39. *)
Theorem exampleAddress_shape (env : Env) (index : argument) (address : jsstring) :
  exampleAddress env index = Return address ->
  exists prefix body,
    NEXT_PUBLIC_ADDRESS_PREFIX env = Some prefix
    /\ address = toLowerCase prefix ++ js "1" ++ body
    /\ length body = 38%nat
    /\ toLowerCase body = body
    /\ ~ In 49%N body
    /\ length address = (length prefix + 39)%nat.
Proof.
  rewrite exampleAddress_unfold.
  set (data := for_loop _ _ address_seed).
  assert (Hdata : length data = 20%nat) by apply exampleAddress_data_length.
  destruct (toWords_20 (map Z_of_byte data)) as [Hw Hfive];
    [now rewrite length_map|].
  revert Hw Hfive. unfold Bech32.Bech32_encode.
  generalize (Bech32.toWords (map Z_of_byte data)). intros words Hw Hfive.
  assert (HR : Forall (fun x => 0 <= x < 32) words).
  { eapply Forall_impl; [|exact Hfive]. apply five_bit_range. }
  unfold Bech32.encode.
  destruct (NEXT_PUBLIC_ADDRESS_PREFIX env) as [p|]; [|discriminate].
  destruct (Bech32.LIMIT <? _); [discriminate|]. cbv zeta.
  destruct (Bech32.prefixChk (toLowerCase p)) as [msg|chk0] eqn:Hchk; [discriminate|].
  apply prefixChk_returns, printable_is_ascii, toLowerCase_ascii_length in Hchk.
  rewrite encode_words_fold by exact HR.
  cbv beta iota zeta delta [bind fst snd].
  rewrite checksum_units_words.
  set (c := Z.lxor _ 1).
  set (cw := map (fun i => Z.land (Z.shiftr c ((5 - i) * 5)) 0x1f) [0; 1; 2; 3; 4; 5]).
  assert (Hcw : Forall (fun x => 0 <= x < 32) cw).
  { unfold cw. apply Forall_map, Forall_forall. intros i Hi.
    apply five_bits_range. simpl in Hi. lia. }
  assert (Lcw : length cw = 6%nat) by reflexivity.
  intros H. apply Return_inj in H. subst address.
  assert (HW : Forall (fun x => 0 <= x < 32) (words ++ cw))
    by (apply Forall_app; now split).
  exists p, (map Bech32.charAt (words ++ cw)).
  split; [reflexivity|]. split; [now rewrite map_app, <- !app_assoc|].
  split; [rewrite length_map, length_app; lia|].
  split; [|split].
  - destruct (bech32_text _ HW). now apply toLowerCase_fixed.
  - rewrite in_map_iff. intros (v & Ev & Hin).
    rewrite Forall_forall in HW. destruct (bech32_char v (HW v Hin)) as (_ & _ & E).
    rewrite Ev in E. discriminate E.
  - rewrite !length_app, !length_map, Hw, Lcw, Hchk. simpl. lia.
Qed.

Lemma exampleAddress_shape_witness :
  exists prefix body,
    NEXT_PUBLIC_ADDRESS_PREFIX cosmos_env = Some prefix
    /\ js "cosmos180gpgkfjzyymhy3x7cw6rz7nr0xdg87ns576n2"
       = toLowerCase prefix ++ js "1" ++ body
    /\ length body = 38%nat
    /\ toLowerCase body = body
    /\ ~ In 49%N body
    /\ length (js "cosmos180gpgkfjzyymhy3x7cw6rz7nr0xdg87ns576n2")
       = (length prefix + 39)%nat.
Proof.
  apply (exampleAddress_shape cosmos_env (ArgNumber (Int 1))).
  vm_compute. reflexivity.
Defined.
